(** * Syncwave: the receive-side streaming engine

    A shallow embedding of [receiver_enhanced.py] and [receiver_silent.py]:
    the two wire-format parsers, the jitter buffer built on
    [collections.deque(maxlen=...)], the loops that wait for the header,
    the streaming loops with their statistics accumulators and reports, and
    the final summary; and of the device list of [syncwave_app.py].

    Conventions.
    - A Python [bytes] object is a [list byte]; the integer value of a byte
      is [byte_val].
    - Python integers are unbounded, so every counter is a [Z].
    - A Python call either returns or raises: pure functions return a
      [result]; the loop body lives in a state-and-exception monad whose
      state survives a raised exception, as Python's mutations do.
    - A Python [float] is a binary64 number. A finite one is a rational and
      is represented by that rational, a [Q]; every arithmetic operation
      that yields a float rounds its exact result to binary64 ([fl]). The
      readings of [time.time()] are such values. *)

From Stdlib Require Import ZArith QArith Qround Qabs Qpower Lia Lqa.
From Stdlib Require Floats.PrimFloat Floats.FloatOps Floats.SpecFloat.
From Stdlib Require Import Strings.Byte.
From stdpp Require Import base list list_numbers strings.

Local Open Scope Z_scope.

(** ** Exceptions and results *)

Inductive exn : Type :=
| IndexError        (* bytes index out of range *)
| StructError       (* struct.unpack on a buffer of the wrong size *)
| DecodeError       (* raised by the decoder capability *)
| SinkError         (* raised by stream.write *)
| ZeroDivisionError.

Inductive result (A : Type) : Type :=
| Ok (a : A)
| Raise (e : exn).
Arguments Ok {A} a.
Arguments Raise {A} e.

(** [result] is a monad; stdpp's [x ← c; k] sequences calls and passes the
    first raised exception on. *)
#[global] Instance result_ret : MRet result := λ A a, Ok a.
#[global] Instance result_bind : MBind result := λ A B k c,
  match c with
  | Ok a => k a
  | Raise e => Raise e
  end.

(** ** Bytes *)

Abbreviation bytes := (list byte).

#[global] Instance byte_eq_decision : EqDecision byte := Byte.byte_eq_dec.

Definition byte_val (b : byte) : Z := Z.of_N (Byte.to_N b).

(** [data[i]] for a non-negative index: the byte as an int, or IndexError. *)
Definition index (data : bytes) (i : nat) : result Z :=
  match data !! i with
  | Some b => Ok (byte_val b)
  | None => Raise IndexError
  end.

(** [data[a:b]] for non-negative bounds: Python clamps both bounds to the
    length of the object and never raises. *)
Definition slice (data : bytes) (a b : nat) : bytes :=
  take (b - a)%nat (drop a data).

(** [int.from_bytes(s, 'little')]. *)
Fixpoint int_from_bytes_le (s : bytes) : Z :=
  match s with
  | [] => 0
  | b :: rest => byte_val b + 256 * int_from_bytes_le rest
  end.

(** [struct.unpack('<I', s)[0]], [struct.unpack('<H', s)[0]] and
    [struct.unpack('<Q', s)[0]]: the buffer must have exactly the size of
    the format ([n] bytes), otherwise struct.error is raised. *)
Definition unpack_le (n : nat) (s : bytes) : result Z :=
  if decide (length s = n) then Ok (int_from_bytes_le s) else Raise StructError.

(** The little-endian encoding of [z] on [n] bytes, the inverse of
    [unpack_le]: what a sender writes with [struct.pack]. Used only to state
    the parsers' properties. *)
Definition byte_of_Z (z : Z) : byte :=
  match Byte.of_N (Z.to_N (z mod 256)) with
  | Some b => b
  | None => x00
  end.

Fixpoint pack_le (n : nat) (z : Z) : bytes :=
  match n with
  | O => []
  | S n' => byte_of_Z z :: pack_le n' (z / 256)
  end.

Definition HEADER_MAGIC : bytes := [x53; x59; x4e; x43].   (* b"SYNC" *)

(** ** receiver_enhanced.py: parsers *)

Module Enhanced.

Definition PROTOCOL_VERSION : Z := 1.
Definition PACKET_TYPE_RAW : Z := 0.
Definition PACKET_TYPE_OPUS : Z := 1.

Record Header : Type := mkHeader {
  version : Z;
  sample_rate : Z;
  channels : Z;
  compression : Z;
  compression_name : string
}.

Definition parse_header (data : bytes) : result (option Header) :=
  (if decide (length data < 12)%nat then Ok None else
   let magic := slice data 0 4 in
   if decide (magic ≠ HEADER_MAGIC) then Ok None else
   version ← index data 4;
   sample_rate ← unpack_le 4 (slice data 5 9);
   channels ← unpack_le 2 (slice data 9 11);
   compression ← index data 11;
   Ok (Some {| version := version;
               sample_rate := sample_rate;
               channels := channels;
               compression := compression;
               compression_name :=
                 if decide (compression = 1) then "Opus" else "Raw" |})).

Record AudioPacket : Type := mkAudioPacket {
  type : Z;
  timestamp : Z;
  size : Z;
  data : bytes
}.

Definition parse_audio_packet (data : bytes) : result (option AudioPacket) :=
  (if decide (length data < 11)%nat then Ok None else
   packet_type ← index data 0;
   timestamp ← unpack_le 8 (slice data 1 9);
   size ← unpack_le 2 (slice data 9 11);
   let audio_data := slice data 11 (11 + Z.to_nat size) in
   Ok (Some {| type := packet_type;
               timestamp := timestamp;
               size := size;
               data := audio_data |})).

End Enhanced.

(** ** receiver_silent.py: parser *)

Module Silent.

Record Header : Type := mkHeader {
  sample_rate : Z;
  channels : Z
}.

Definition parse_header (data : bytes) : result (option Header) :=
  (if decide (length data < 10)%nat then Ok None else
   let magic := slice data 0 4 in
   if decide (magic ≠ HEADER_MAGIC) then Ok None else
   sample_rate ← unpack_le 4 (slice data 4 8);
   channels ← unpack_le 2 (slice data 8 10);
   Ok (Some {| sample_rate := sample_rate; channels := channels |})).

End Silent.

(** ** collections.deque with a maximum length *)

Section Deque.
Context {A : Type}.

Record deque : Type := mkDeque {
  maxlen : nat;
  items : list A
}.

Definition deque_new (size : nat) : deque :=
  {| maxlen := size; items := [] |}.

Definition deque_len (d : deque) : nat := length (items d).

(** [d.append(x)]: the item is added on the right; when the deque then
    holds more than [maxlen] items, one item is discarded from the left. *)
Definition deque_append (d : deque) (x : A) : deque :=
  let l := items d ++ [x] in
  {| maxlen := maxlen d;
     items := if decide (maxlen d < length l)%nat then drop 1 l else l |}.

(** [d.popleft()]: IndexError on an empty deque. *)
Definition deque_popleft (d : deque) : result (A * deque) :=
  match items d with
  | [] => Raise IndexError
  | x :: rest => Ok (x, {| maxlen := maxlen d; items := rest |})
  end.
End Deque.
Arguments deque A : clear implicits.

(** ** JitterBuffer (receiver_enhanced.py)

    The lock only serialises the three methods; the receiver calls them from
    one thread, so each method is modelled as one atomic step. *)

Definition JITTER_BUFFER_SIZE : nat := 10.
Definition JITTER_BUFFER_MIN : nat := 3.

Module JitterBuffer.

Record t : Type := mk { buffer : deque bytes }.

Definition init (size : nat) : t := {| buffer := deque_new size |}.

Definition add (self : t) (data : bytes) : t :=
  {| buffer := deque_append (buffer self) data |}.

Definition get (self : t) : result (option bytes * t) :=
  if decide (JITTER_BUFFER_MIN ≤ deque_len (buffer self))%nat then
    '(x, d) ← deque_popleft (buffer self);
    Ok (Some x, {| buffer := d |})
  else Ok (None, self).

Definition size (self : t) : nat := deque_len (buffer self).

(** A client of the buffer: a sequence of calls, and what each one returns. *)
Inductive op : Type :=
| Add (data : bytes)
| Get.

Definition frames (self : t) : list bytes := items (buffer self).

(** Runs the calls in order; collects what the [get] calls returned (in call
    order) and stops at the first exception. *)
Fixpoint run (ops : list op) (self : t)
  : result (list (option bytes) * t) :=
  match ops with
  | [] => Ok ([], self)
  | Add x :: ops' => run ops' (add self x)
  | Get :: ops' =>
      '(r, self') ← get self;
      '(rs, self'') ← run ops' self';
      Ok (r :: rs, self'')
  end.

(** The frames handed to [add], in call order. *)
Definition pushed (ops : list op) : list bytes :=
  omap (λ o, match o with Add x => Some x | Get => None end) ops.

(** The frames a list of [get] results delivered. *)
Definition delivered (rs : list (option bytes)) : list bytes :=
  omap id rs.

(** What a run preserves in a buffer of capacity [n], given the frames [h]
    pushed so far and the frames [out] delivered so far. *)
Record inv (n : nat) (h out : list bytes) (jb : t) : Prop := mkInv {
  inv_maxlen : maxlen (buffer jb) = n;
  inv_bound : (length (frames jb) ≤ n)%nat;
  inv_suffix : frames jb `suffix_of` h;
  inv_order : (out ++ frames jb) `sublist_of` h
}.

End JitterBuffer.

(** ** State and exceptions

    A statement sequence over the module-level variables is a function from
    the state before to an outcome and the state after. A raised exception
    keeps every assignment made before it. *)

Definition M (S A : Type) : Type := S → result A * S.

#[global] Instance M_ret {S} : MRet (M S) := λ A a st, (Ok a, st).
#[global] Instance M_bind {S} : MBind (M S) := λ A B k c st,
  match c st with
  | (Ok a, st') => k a st'
  | (Raise e, st') => (Raise e, st')
  end.

Definition gets {S A} (f : S → A) : M S A := λ st, (Ok (f st), st).
Definition modify {S} (f : S → S) : M S unit := λ st, (Ok tt, f st).
Definition lift {S A} (r : result A) : M S A := λ st, (r, st).

(** [try: c  except Exception as e: h e]. *)
Definition try_except {S A} (c : M S A) (h : exn → M S A) : M S A := λ st,
  match c st with
  | (Ok a, st') => (Ok a, st')
  | (Raise e, st') => h e st'
  end.

(** ** Floats

    IEEE 754 binary64 with the default rounding: the result of an operation
    is the exact result rounded to the nearest number of the form
    [m * 2^e] with [|m| < 2^53] and [-1074 <= e], ties going to the even
    [m]. [+], [-], [*] and [/] on floats work this way, and so do CPython's
    conversion of an [int] operand to a [float] and its true division of two
    [int]s, which rounds the exact quotient once.

    Not represented: results of magnitude [2^1024] and more, where binary64
    has infinities and CPython's [int] conversions raise OverflowError (no
    counter or clock reading of a session comes near); NaN; the sign of
    zero. *)

(** [floor (log2 x)] for a positive [x]. *)
Definition ilog2 (x : Q) : Z :=
  let k := Z.log2 (Qnum x) - Z.log2 (Zpos (Qden x)) in
  if Qle_bool (2 ^ k) x then k else k - 1.

(** The integer nearest to [x], the even one of two that are equally near. *)
Definition round_half_even (x : Q) : Z :=
  let f := Qfloor x in
  match (x - inject_Z f ?= 1 # 2)%Q with
  | Lt => f
  | Gt => f + 1
  | Eq => if Z.even f then f else f + 1
  end.

(** Rounding to binary64. The exponent [e] of the result's last place is 52
    below that of [x]'s leading bit, and [-1074] for subnormal results. *)
Definition fl (x : Q) : Q :=
  if Qeq_bool x 0 then 0%Q
  else
    let a := Qabs x in
    let e := Z.max (ilog2 a - 52) (-1074) in
    let m := round_half_even (a / 2 ^ e) in
    let r := (inject_Z m * 2 ^ e)%Q in
    if Qle_bool 0 x then r else (- r)%Q.

(** [float(n)] for an [int] operand of a mixed operation. *)
Definition of_int (n : Z) : Q := fl (inject_Z n).

(** [a - b] and [a * b] on floats. *)
Definition fsub (a b : Q) : Q := fl (a - b).
Definition fmul (a b : Q) : Q := fl (a * b).

(** [a / b] where [b] is not zero: on two floats, and on two [int]s. *)
Definition fdiv (a b : Q) : Q := fl (a / b).

(** [a / b]: true division, ZeroDivisionError on zero. *)
Definition true_div (a b : Q) : result Q :=
  if Qeq_bool b 0 then Raise ZeroDivisionError else Ok (fdiv a b).

(** [kbps = (bytes_received * 8) / (elapsed * 1000)], the expression both
    receivers evaluate in their periodic report: an [int] divided by a
    float. *)
Definition throughput_kbps (bytes_received : Z) (elapsed : Q) : result Q :=
  true_div (of_int (bytes_received * 8)) (fmul elapsed 1000).

(** The value of a primitive binary64 number of Rocq's kernel, to compare
    [fl] with the hardware's arithmetic. *)
Definition SF2Q (f : SpecFloat.spec_float) : option Q :=
  match f with
  | SpecFloat.S754_zero _ => Some 0%Q
  | SpecFloat.S754_finite s m e =>
      Some ((if s then -1 else 1) * inject_Z (Zpos m) * 2 ^ e)%Q
  | SpecFloat.S754_infinity _ | SpecFloat.S754_nan => None
  end.

Definition binary64_is (f : PrimFloat.float) (x : Q) : bool :=
  match SF2Q (FloatOps.Prim2SF f) with
  | Some q => Qeq_bool q x
  | None => false
  end.

(** ** receiver_enhanced.py: session set-up and streaming loop *)

Module Receiver.
Import Enhanced.

(** What the script prints, field by field (before number formatting). *)
Inductive line : Type :=
| OpusInitialized
| OpusInitFailed (e : exn)
| OpusNotAvailable
| OpusDecodeError (e : exn)
| Report (packets : Z) (kbps : Q) (avg_latency_ms : Q)
         (buffer_fill : nat) (compression_ratio : Q).

(** The decoder object of opuslib; [None] stands for Python's [None]. *)
Inductive Decoder : Type := OpusDecoder (sample_rate channels : Z).

(** Lines 127-139. [new_decoder] is the constructor [opuslib.Decoder], which
    may raise. *)
Definition setup_decoder (OPUS_AVAILABLE : bool)
    (new_decoder : Z → Z → result Decoder) (config : Header)
  : option Decoder * list line :=
  if decide (compression config = 1) then
    if OPUS_AVAILABLE then
      match new_decoder (sample_rate config) (channels config) with
      | Ok d => (Some d, [OpusInitialized])
      | Raise e => (None, [OpusInitFailed e])
      end
    else (None, [OpusNotAvailable])
  else (None, []).

Record State : Type := mkState {
  packet_count : Z;
  bytes_received : Z;
  total_latency_us : Z;
  latency_count : Z;
  start_time : Q;
  last_report : Q;
  jitter_buffer : JitterBuffer.t;
  stream : list bytes;          (* buffers written to the audio stream *)
  stdout : list line
}.

(** Lines 151-162, at wall-clock time [now]. *)
Definition init_state (now : Q) : State :=
  {| packet_count := 0;
     bytes_received := 0;
     total_latency_us := 0;
     latency_count := 0;
     start_time := now;
     last_report := now;
     jitter_buffer := JitterBuffer.init JITTER_BUFFER_SIZE;
     stream := [];
     stdout := [] |}.

(** One iteration's answers from the outside world: the datagram, the
    clocks, what [decoder.decode_float] does if it is called on this
    datagram's payload, and whether [stream.write] fails if it is called. *)
Record Event : Type := mkEvent {
  ev_data : bytes;
  ev_receive_time : Z;            (* get_timestamp_us() *)
  ev_decode : result bytes;       (* decoder.decode_float(payload, 2880, ...) *)
  ev_write : result unit;         (* stream.write(audio_data) *)
  ev_now : Q                      (* time.time() at line 206 *)
}.

Definition count_packet (n : nat) (st : State) : State :=
  mkState (packet_count st + 1) (bytes_received st + Z.of_nat n)
          (total_latency_us st) (latency_count st)
          (start_time st) (last_report st)
          (jitter_buffer st) (stream st) (stdout st).

Definition latency_us (receive_time : Z) (packet : AudioPacket) : Z :=
  receive_time - timestamp packet.

Definition record_latency (sample : Z) (st : State) : State :=
  mkState (packet_count st) (bytes_received st)
          (total_latency_us st + sample) (latency_count st + 1)
          (start_time st) (last_report st)
          (jitter_buffer st) (stream st) (stdout st).

Definition set_jitter_buffer (jb : JitterBuffer.t) (st : State) : State :=
  mkState (packet_count st) (bytes_received st)
          (total_latency_us st) (latency_count st)
          (start_time st) (last_report st)
          jb (stream st) (stdout st).

Definition jitter_add (data : bytes) : M State unit :=
  modify (λ st, set_jitter_buffer (JitterBuffer.add (jitter_buffer st) data) st).

Definition jitter_get : M State (option bytes) :=
  jb ← gets jitter_buffer;
  '(r, jb') ← lift (JitterBuffer.get jb);
  modify (set_jitter_buffer jb');;
  mret r.

Definition stream_write (ev : Event) (audio_data : bytes) : M State unit :=
  lift (ev_write ev);;
  modify (λ st,
    mkState (packet_count st) (bytes_received st)
            (total_latency_us st) (latency_count st)
            (start_time st) (last_report st)
            (jitter_buffer st) (stream st ++ [audio_data]) (stdout st)).

Definition print (l : line) : M State unit :=
  modify (λ st,
    mkState (packet_count st) (bytes_received st)
            (total_latency_us st) (latency_count st)
            (start_time st) (last_report st)
            (jitter_buffer st) (stream st) (stdout st ++ [l])).

Definition set_last_report (now : Q) : M State unit :=
  modify (λ st,
    mkState (packet_count st) (bytes_received st)
            (total_latency_us st) (latency_count st)
            (start_time st) now
            (jitter_buffer st) (stream st) (stdout st)).

Section Loop.
Variable config : Header.
Variable decoder : option Decoder.

(** Lines 186-198. Returns [false] when the [except] clause ran
    [continue]. *)
Definition decode_and_buffer (ev : Event) (packet : AudioPacket)
  : M State bool :=
  if decide (type packet = PACKET_TYPE_OPUS ∧ is_Some decoder) then
    try_except
      (pcm_data ← lift (ev_decode ev);
       jitter_add pcm_data;;
       mret true)
      (λ e, print (OpusDecodeError e);; mret false)
  else
    jitter_add (data packet);;
    mret true.

(** Lines 200-203. An empty [bytes] object is falsy. *)
Definition play (ev : Event) : M State unit :=
  audio_data ← jitter_get;
  match audio_data with
  | Some a => if decide (a ≠ []) then stream_write ev a else mret tt
  | None => mret tt
  end.

(** Lines 205-228. The test [now - last_report >= 2.0] is made on the exact
    difference. For clock readings of 1 and more (any time later than one
    second after the epoch) this is the test on the rounded difference:
    both readings are multiples of [2^-52], so a difference below 2 is a
    binary64 number itself and the subtraction does not round it up to 2,
    and a difference of 2 or more never rounds below 2. *)
Definition report (ev : Event) : M State unit :=
  let now := ev_now ev in
  last ← gets last_report;
  if Qle_bool 2 (now - last) then
    st ← gets id;
    let elapsed := fsub now (start_time st) in
    kbps ← lift (throughput_kbps (bytes_received st) elapsed);
    let avg_latency_ms :=
      if decide (0 < latency_count st)
      then fdiv (fdiv (inject_Z (total_latency_us st))
                      (inject_Z (latency_count st))) 1000
      else 0%Q in
    let buffer_fill := JitterBuffer.size (jitter_buffer st) in
    compression_ratio ←
      (if decide (compression config = 1) then
         let uncompressed_bps := sample_rate config * channels config * 32 in
         r ← lift (true_div (fmul kbps 1000) (of_int uncompressed_bps));
         mret (fmul r 100)
       else mret 0%Q);
    print (Report (packet_count st) kbps avg_latency_ms buffer_fill
                  compression_ratio);;
    set_last_report now
  else mret tt.

(** Lines 166-228: the body of [while True], once per datagram. Each
    [continue] ends the iteration with [mret tt]. *)
Definition loop_body (ev : Event) : M State unit :=
  let data := ev_data ev in
  if decide (length data = 12%nat ∧ slice data 0 4 = HEADER_MAGIC) then mret tt
  else
    packet ← lift (parse_audio_packet data);
    match packet with
    | None => mret tt
    | Some packet =>
        modify (count_packet (length data));;
        let receive_time := ev_receive_time ev in
        modify (record_latency (latency_us receive_time packet));;
        buffered ← decode_and_buffer ev packet;
        if buffered : bool then play ev;; report ev else mret tt
    end.

(** The loop over the datagrams that arrive before the process is
    interrupted; an exception that leaves the body ends the loop. *)
Fixpoint run (evs : list Event) : M State unit :=
  match evs with
  | [] => mret tt
  | ev :: evs' => loop_body ev;; run evs'
  end.
End Loop.

End Receiver.

(** ** receiver_silent.py: monitoring loop *)

Module SilentReceiver.
Import Silent.

Inductive line : Type :=
| Report (packets : Z) (bytes_received : Z) (kbps : Q) (duration_sec : Q).

Record State : Type := mkState {
  packet_count : Z;
  bytes_received : Z;
  start_time : Q;
  last_report : Q;
  stdout : list line
}.

(** Lines 61-65. *)
Definition init_state (now : Q) : State :=
  {| packet_count := 0;
     bytes_received := 0;
     start_time := now;
     last_report := now;
     stdout := [] |}.

Record Event : Type := mkEvent {
  ev_data : bytes;
  ev_now : Q
}.

Definition count_packet (n : nat) (st : State) : State :=
  mkState (packet_count st + 1) (bytes_received st + Z.of_nat n)
          (start_time st) (last_report st) (stdout st).

Definition print (l : line) : M State unit :=
  modify (λ st,
    mkState (packet_count st) (bytes_received st)
            (start_time st) (last_report st) (stdout st ++ [l])).

Definition set_last_report (now : Q) : M State unit :=
  modify (λ st,
    mkState (packet_count st) (bytes_received st)
            (start_time st) now (stdout st)).

Section Loop.
Variable config : Header.

(** Lines 78-90. The test [now - last_report >= 2.0] is made on the exact
    difference, as in the enhanced receiver. *)
Definition report (ev : Event) : M State unit :=
  let now := ev_now ev in
  last ← gets last_report;
  if Qle_bool 2 (now - last) then
    st ← gets id;
    let elapsed := fsub now (start_time st) in
    kbps ← lift (throughput_kbps (bytes_received st) elapsed);
    let samples := bytes_received st `div` 4 in
    d ← lift (true_div (inject_Z samples) (inject_Z (sample_rate config)));
    duration_sec ← lift (true_div d (of_int (channels config)));
    print (Report (packet_count st) (bytes_received st) kbps duration_sec);;
    set_last_report now
  else mret tt.

(** Lines 69-90. *)
Definition loop_body (ev : Event) : M State unit :=
  let data := ev_data ev in
  if decide (length data = 10%nat ∧ slice data 0 4 = HEADER_MAGIC) then mret tt
  else
    modify (count_packet (length data));;
    report ev.

Fixpoint run (evs : list Event) : M State unit :=
  match evs with
  | [] => mret tt
  | ev :: evs' => loop_body ev;; run evs'
  end.
End Loop.

End SilentReceiver.

(** ** Waiting for the configuration header

    Both scripts start with [while config is None]: every datagram is
    offered to [parse_header] until one is accepted. The loop is run over
    the datagrams that [recvfrom] returns; when they are used up before a
    header came, the loop is blocked in [recvfrom]. *)

Module Startup.
Import Enhanced.

(** What lines 110-125 of receiver_enhanced.py print. *)
Inductive line : Type :=
| ConfigReceived (config : Header) (skipped : option Z)
| StillWaiting (audio_packet_count : Z).

Inductive outcome : Type :=
| Configured (config : Header) (audio_packet_count : Z) (rest : list bytes)
| Blocked (audio_packet_count : Z)
| Crashed (e : exn).

(** [wait datagrams audio_packet_count]: the loop from a state in which
    [config] is [None]. A returned dict is truthy (it has five keys). *)
Fixpoint wait (datagrams : list bytes) (audio_packet_count : Z)
  : outcome * list line :=
  match datagrams with
  | [] => (Blocked audio_packet_count, [])
  | data :: rest =>
      match parse_header data with
      | Raise e => (Crashed e, [])
      | Ok (Some config) =>
          (Configured config audio_packet_count rest,
           [ConfigReceived config
              (if decide (0 < audio_packet_count)
               then Some audio_packet_count else None)])
      | Ok None =>
          let audio_packet_count := audio_packet_count + 1 in
          let printed :=
            if decide (audio_packet_count `mod` 100 = 0)
            then [StillWaiting audio_packet_count] else [] in
          let '(o, out) := wait rest audio_packet_count in
          (o, printed ++ out)
      end
  end.

End Startup.

Module SilentStartup.
Import Silent.

(** What lines 42-59 of receiver_silent.py print. *)
Inductive line : Type :=
| ConfigReceived (config : Header) (skipped : option Z)
| ReceivingAudio (size : nat)
| StillWaiting (audio_packet_count : Z).

Inductive outcome : Type :=
| Configured (config : Header) (audio_packet_count : Z) (rest : list bytes)
| Blocked (audio_packet_count : Z)
| Crashed (e : exn).

Fixpoint wait (datagrams : list bytes) (audio_packet_count : Z)
  : outcome * list line :=
  match datagrams with
  | [] => (Blocked audio_packet_count, [])
  | data :: rest =>
      match parse_header data with
      | Raise e => (Crashed e, [])
      | Ok (Some config) =>
          (Configured config audio_packet_count rest,
           [ConfigReceived config
              (if decide (0 < audio_packet_count)
               then Some audio_packet_count else None)])
      | Ok None =>
          let audio_packet_count := audio_packet_count + 1 in
          let printed :=
            if decide (audio_packet_count = 1)
            then [ReceivingAudio (length data)]
            else if decide (audio_packet_count `mod` 100 = 0)
            then [StillWaiting audio_packet_count] else [] in
          let '(o, out) := wait rest audio_packet_count in
          (o, printed ++ out)
      end
  end.

End SilentStartup.

(** The number of [get] calls among [ops]. *)
Definition get_calls (ops : list JitterBuffer.op) : nat :=
  length (omap (λ o, match o with
                     | JitterBuffer.Get => Some tt
                     | JitterBuffer.Add _ => None
                     end) ops).

(** The datagrams each [parse_header] turns down. *)
Definition not_ext_header (data : bytes) : Prop :=
  (length data < 12)%nat ∨ take 4 data ≠ HEADER_MAGIC.

Definition not_basic_header (data : bytes) : Prop :=
  (length data < 10)%nat ∨ take 4 data ≠ HEADER_MAGIC.

(** ** receiver_enhanced.py: the final summary

    Lines 230-240, run when the loop is interrupted at wall-clock time
    [now]: what is printed, and whether the handler itself raises. *)

Module Shutdown.

Inductive line : Type :=
| Stopped
| FinalStats
| PacketsReceived (packet_count : Z)
| TotalData (megabytes : Q)
| AverageBitrate (kbps : Q)
| AverageLatency (ms : Q)
| Duration (seconds : Q).

Definition final_stats (now : Q) (st : Receiver.State)
  : result unit * list line :=
  let elapsed := fsub now (Receiver.start_time st) in
  let avg_latency_ms :=
    if decide (0 < Receiver.latency_count st)
    then fdiv (fdiv (inject_Z (Receiver.total_latency_us st))
                    (inject_Z (Receiver.latency_count st))) 1000
    else 0%Q in
  let printed :=
    [Stopped; FinalStats;
     PacketsReceived (Receiver.packet_count st);
     TotalData (fdiv (fdiv (inject_Z (Receiver.bytes_received st)) 1024)
                     1024)] in
  match throughput_kbps (Receiver.bytes_received st) elapsed with
  | Raise e => (Raise e, printed)
  | Ok kbps =>
      (Ok tt,
       printed ++ [AverageBitrate kbps; AverageLatency avg_latency_ms;
                   Duration elapsed])
  end.

End Shutdown.

(** ** syncwave_app.py: the multi-target device list

    [add_target_device] and [remove_target_device] (lines 560-619) on the
    part of the application state they touch. Widgets are represented by
    what the code does with them: an entry by its text, a device frame by
    the number under which it was created, a message box and a log call by
    an item appended to a list. *)

Module TargetList.

Inductive dialog : Type :=
| InputRequired
| InvalidPort
| Duplicate (ip : string) (port : Z).

Inductive log_line : Type :=
| Added (ip : string) (port : Z)
| Removed (ip : string) (port : Z).

(** A call returns, or [list.remove] raises ValueError. *)
Inductive outcome : Type := Returned | ValueError.

Record State : Type := mkState {
  target_devices : list (string * Z);
  device_labels : list nat;
  frames_created : nat;
  destroyed : list nat;
  new_device_ip : string;
  new_device_port : string;
  dialogs : list dialog;
  server_log : list log_line
}.

(** Lines 257-258, with empty entries and no frame created yet. *)
Definition init_state : State :=
  mkState [] [] 0 [] "" "" [] [].

(** [l.remove(x)]: the first item equal to [x] is removed; [None] stands
    for ValueError. *)
Fixpoint list_remove {A} `{EqDecision A} (x : A) (l : list A)
  : option (list A) :=
  match l with
  | [] => None
  | y :: l' =>
      if decide (x = y) then Some l' else (y ::.) <$> list_remove x l'
  end.

Section Methods.
  (** [str.strip] and [int] on a string; [None] stands for ValueError. *)
Variable strip : string → string.
Variable int : string → option Z.

Definition show (d : dialog) (st : State) : State :=
  mkState (target_devices st) (device_labels st) (frames_created st)
          (destroyed st) (new_device_ip st) (new_device_port st)
          (dialogs st ++ [d]) (server_log st).

Definition add_target_device (st : State) : State :=
  let ip := strip (new_device_ip st) in
  let port_str := strip (new_device_port st) in
  if decide (ip = "" ∨ port_str = "") then show InputRequired st
  else
    match int port_str with
    | None => show InvalidPort st
    | Some port =>
        if decide (port < 1 ∨ port > 65535) then show InvalidPort st
        else if decide ((ip, port) ∈ target_devices st)
        then show (Duplicate ip port) st
        else
          let device_frame := frames_created st in
          mkState (target_devices st ++ [(ip, port)])
                  (device_labels st ++ [device_frame])
                  (S (frames_created st))
                  (destroyed st) "" ""
                  (dialogs st) (server_log st ++ [Added ip port])
    end.

Definition remove_target_device (ip : string) (port : Z) (frame : nat)
    (st : State) : outcome * State :=
  if decide ((ip, port) ∈ target_devices st) then
    match list_remove (ip, port) (target_devices st) with
    | None => (ValueError, st)
    | Some devices =>
        let destroyed := destroyed st ++ [frame] in
        match list_remove frame (device_labels st) with
        | None =>
            (ValueError,
             mkState devices (device_labels st) (frames_created st) destroyed
                     (new_device_ip st) (new_device_port st)
                     (dialogs st) (server_log st))
        | Some labels =>
            (Returned,
             mkState devices labels (frames_created st) destroyed
                     (new_device_ip st) (new_device_port st)
                     (dialogs st) (server_log st ++ [Removed ip port]))
        end
    end
  else (Returned, st).

(** What can happen to the list: the user edits the two entries, presses
    the add button, or [remove_target_device] is called. An exception in a
    Tk callback is reported and the application goes on. *)
Inductive action : Type :=
| Edit (ip port : string)
| ClickAdd
| Remove (ip : string) (port : Z) (frame : nat).

Definition step (st : State) (a : action) : State :=
  match a with
  | Edit ip port =>
      mkState (target_devices st) (device_labels st) (frames_created st)
              (destroyed st) ip port (dialogs st) (server_log st)
  | ClickAdd => add_target_device st
  | Remove ip port frame => (remove_target_device ip port frame st).2
  end.

Definition run (actions : list action) (st : State) : State :=
  foldl step st actions.
End Methods.

End TargetList.

(** What every state of the device list satisfies. *)
Definition well_formed (st : TargetList.State) : Prop :=
  NoDup (TargetList.target_devices st)
  ∧ Forall (λ d, d.1 ≠ "" ∧ 1 ≤ d.2 ≤ 65535) (TargetList.target_devices st)
  ∧ NoDup (TargetList.device_labels st)
  ∧ Forall (λ f, f < TargetList.frames_created st)%nat
           (TargetList.device_labels st).

(** ** Wire formats, as a sender lays them out

    The sender is not part of the receivers; these encoders follow the
    layout in the parsers' docstrings and serve to state what the parsers
    return. *)

(** [MAGIC][VERSION][SAMPLE_RATE][CHANNELS][COMPRESSION], 12 bytes. *)
Definition ext_header (v : byte) (sr ch : Z) (c : byte) : bytes :=
  HEADER_MAGIC ++ [v] ++ pack_le 4 sr ++ pack_le 2 ch ++ [c].

(** [MAGIC][SAMPLE_RATE][CHANNELS], 10 bytes. *)
Definition basic_header (sr ch : Z) : bytes :=
  HEADER_MAGIC ++ pack_le 4 sr ++ pack_le 2 ch.

(** [TYPE][TIMESTAMP][SIZE], the 11-byte prefix of an audio datagram;
    the payload bytes follow it. *)
Definition audio_prefix (ty : byte) (ts sz : Z) : bytes :=
  [ty] ++ pack_le 8 ts ++ pack_le 2 sz.

(** ** Vocabulary for the loops' properties *)

(** A statement sequence [c] moves every state along the relation [R],
    whether it returns or raises. *)
Definition preserves {S A} (R : relation S) (c : M S A) : Prop :=
  ∀ st, R st (c st).2.

(** The guard with which both streaming loops skip a repeated header. *)
Definition header_shaped (n : nat) (data : bytes) : Prop :=
  length data = n ∧ slice data 0 4 = HEADER_MAGIC.

(** The accumulators and the session start time of the enhanced receiver
    agree in two states. *)
Definition same_counters (st st' : Receiver.State) : Prop :=
  Receiver.packet_count st' = Receiver.packet_count st
  ∧ Receiver.bytes_received st' = Receiver.bytes_received st
  ∧ Receiver.total_latency_us st' = Receiver.total_latency_us st
  ∧ Receiver.latency_count st' = Receiver.latency_count st
  ∧ Receiver.start_time st' = Receiver.start_time st.

(** A periodic report, as opposed to a warning. *)
Definition is_report (l : Receiver.line) : Prop :=
  match l with
  | Receiver.Report _ _ _ _ _ => True
  | _ => False
  end.

(** Between two states the accumulators and the report clock agree, and
    only warnings were printed. *)
Definition quiet (st st' : Receiver.State) : Prop :=
  same_counters st st'
  ∧ Receiver.last_report st' = Receiver.last_report st
  ∧ ∃ ls, Receiver.stdout st' = Receiver.stdout st ++ ls
          ∧ Forall (λ l, ¬ is_report l) ls.

(** Between two states the accumulators, the report clock and the output
    agree. *)
Definition same_session (st st' : Receiver.State) : Prop :=
  same_counters st st'
  ∧ Receiver.last_report st' = Receiver.last_report st
  ∧ Receiver.stdout st' = Receiver.stdout st.

(** The datagrams the enhanced loop counts: those that are not a repeated
    header and are long enough for [parse_audio_packet]. *)
Definition counted (data : bytes) : bool :=
  bool_decide (¬ header_shaped 12 data ∧ (11 ≤ length data)%nat).

(** The bytes of the counted datagrams among [evs]. *)
Definition received_bytes (evs : list Receiver.Event) : Z :=
  foldr (λ ev acc,
           (if counted (Receiver.ev_data ev)
            then Z.of_nat (length (Receiver.ev_data ev)) else 0) + acc)
        0 evs.

(** The same for the silent loop, which counts every datagram that is not
    a repeated header. *)
Definition counted_silent (data : bytes) : bool :=
  bool_decide (¬ header_shaped 10 data).

Definition received_bytes_silent (evs : list SilentReceiver.Event) : Z :=
  foldr (λ ev acc,
           (if counted_silent (SilentReceiver.ev_data ev)
            then Z.of_nat (length (SilentReceiver.ev_data ev)) else 0) + acc)
        0 evs.

(** ** Vocabulary for the audio path of the enhanced loop *)

(** The frame lines 186-198 append to the jitter buffer for a parsed
    packet: the decoder's output, the raw payload, or nothing when the
    decode raised. *)
Definition frame_of (decoder : option Receiver.Decoder)
    (ev : Receiver.Event) (p : Enhanced.AudioPacket) : option bytes :=
  if decide (Enhanced.type p = Enhanced.PACKET_TYPE_OPUS ∧ is_Some decoder)
  then match Receiver.ev_decode ev with
       | Ok pcm_data => Some pcm_data
       | Raise _ => None
       end
  else Some (Enhanced.data p).

(** The frame one iteration appends to the jitter buffer, if any. *)
Definition pushed_frame (decoder : option Receiver.Decoder)
    (ev : Receiver.Event) : option bytes :=
  if decide (header_shaped 12 (Receiver.ev_data ev)) then None
  else match Enhanced.parse_audio_packet (Receiver.ev_data ev) with
       | Ok (Some p) => frame_of decoder ev p
       | _ => None
       end.

(** Jitter buffer and audio stream agree in two states. *)
Definition same_audio (st st' : Receiver.State) : Prop :=
  Receiver.jitter_buffer st' = Receiver.jitter_buffer st
  ∧ Receiver.stream st' = Receiver.stream st.

(** The state of the audio path after the frames [pushed] went into the
    buffer of a fresh session: nothing was evicted, the frames not yet
    taken out are the last two, and what was taken out went to the stream
    unless it was empty. *)
Definition lagging (pushed : list bytes) (st : Receiver.State) : Prop :=
  maxlen (JitterBuffer.buffer (Receiver.jitter_buffer st)) = JITTER_BUFFER_SIZE
  ∧ ∃ played,
      pushed = played ++ JitterBuffer.frames (Receiver.jitter_buffer st)
      ∧ Receiver.stream st = filter (λ x, x ≠ []) played
      ∧ length (JitterBuffer.frames (Receiver.jitter_buffer st))
        = Nat.min 2 (length pushed).

(** ** Vocabulary for the contents of the periodic report *)

(** [(total_latency_us / latency_count) / 1000 if latency_count > 0 else 0]. *)
Definition average_latency_ms (total_latency_us latency_count : Z) : Q :=
  if decide (0 < latency_count)
  then fdiv (fdiv (inject_Z total_latency_us) (inject_Z latency_count)) 1000
  else 0%Q.

(** The compression figure of a report with throughput [kbps]:
    [(kbps * 1000) / uncompressed_bps * 100], or 0 without compression. *)
Definition ratio_of (config : Enhanced.Header) (kbps : Q) : Q :=
  if decide (Enhanced.compression config = 1)
  then fmul (fdiv (fmul kbps 1000)
               (of_int (Enhanced.sample_rate config
                        * Enhanced.channels config * 32)))
            100
  else 0%Q.

(** [(bytes * 8) / (elapsed * 1000)] with [elapsed = now - start], as
    binary64 arithmetic evaluates it. *)
Definition kbps_of (bytes : Z) (start now : Q) : Q :=
  fdiv (of_int (bytes * 8)) (fmul (fsub now start) 1000).

(** [(bytes // 4) / sample_rate / channels], the audio duration of the
    silent receiver's report. *)
Definition duration_of (config : Silent.Header) (bytes : Z) : Q :=
  fdiv (fdiv (inject_Z (bytes `div` 4)) (inject_Z (Silent.sample_rate config)))
       (of_int (Silent.channels config)).

(** The latency sample of a datagram the enhanced loop counts. *)
Definition sample (ev : Receiver.Event) : Z :=
  if counted (Receiver.ev_data ev)
  then match Enhanced.parse_audio_packet (Receiver.ev_data ev) with
       | Ok (Some p) => Receiver.latency_us (Receiver.ev_receive_time ev) p
       | _ => 0
       end
  else 0.

(** How many of [evs] the enhanced loop counts, and the sum of their
    latency samples. *)
Definition counted_packets (evs : list Receiver.Event) : Z :=
  foldr (λ ev acc, (if counted (Receiver.ev_data ev) then 1 else 0) + acc)
        0 evs.

Definition latency_total (evs : list Receiver.Event) : Z :=
  foldr (λ ev acc, sample ev + acc) 0 evs.

(** The number of periodic reports among printed lines. *)
Definition reports (ls : list Receiver.line) : nat :=
  length (omap (λ l, match l with
                     | Receiver.Report _ _ _ _ _ => Some tt
                     | _ => None
                     end) ls).

(** What a run has established after handling the datagrams [h] of a
    fresh session. *)
Record session_inv (decoder : option Receiver.Decoder)
    (h : list Receiver.Event) (st : Receiver.State) : Prop := mkSessionInv {
  si_clock : (Receiver.start_time st <= Receiver.last_report st)%Q;
  si_packets : Receiver.packet_count st = counted_packets h;
  si_latency_count : Receiver.latency_count st = counted_packets h;
  si_latency_total : Receiver.total_latency_us st = latency_total h;
  si_audio : lagging (omap (pushed_frame decoder) h) st;
  si_rate : (inject_Z (2 * Z.of_nat (reports (Receiver.stdout st)))
             <= Receiver.last_report st - Receiver.start_time st)%Q
}.

(** How many of [evs] the silent loop counts. *)
Definition counted_packets_silent (evs : list SilentReceiver.Event) : Z :=
  foldr (λ ev acc,
           (if counted_silent (SilentReceiver.ev_data ev) then 1 else 0) + acc)
        0 evs.

(** * Properties *)

(** ** Bytes and little-endian integers *)

Lemma byte_val_range b : 0 ≤ byte_val b < 256.
Proof.
  unfold byte_val. pose proof (Byte.to_N_bounded b). lia.
Qed.

Lemma byte_val_of_Z z : byte_val (byte_of_Z z) = z mod 256.
Proof.
  unfold byte_val, byte_of_Z.
  pose proof (Z.mod_pos_bound z 256 ltac:(lia)) as Hm.
  destruct (Byte.of_N (Z.to_N (z mod 256))) as [b|] eqn:E.
  - apply Byte.to_of_N in E. rewrite E. lia.
  - apply Byte.of_N_None_iff in E. lia.
Qed.

Lemma byte_of_Z_val b : byte_of_Z (byte_val b) = b.
Proof.
  unfold byte_of_Z.
  rewrite Z.mod_small by apply byte_val_range.
  unfold byte_val. rewrite N2Z.id, Byte.of_to_N. reflexivity.
Qed.

Lemma byte_of_Z_mod z : byte_of_Z z = byte_of_Z (z mod 256).
Proof. unfold byte_of_Z. by rewrite Z.mod_mod. Qed.

Lemma length_pack_le n z : length (pack_le n z) = n.
Proof. revert z. induction n as [|n IH]; intros z; simpl; [done | by rewrite IH]. Qed.

Lemma int_from_bytes_le_range s :
  0 ≤ int_from_bytes_le s < 256 ^ Z.of_nat (length s).
Proof.
  induction s as [|b s IH]; [simpl; lia|].
  cbn [int_from_bytes_le length].
  rewrite Nat2Z.inj_succ, Z.pow_succ_r by lia.
  pose proof (byte_val_range b). lia.
Qed.

(** Decoding an encoding gives the value back, for a value that fits. *)
Lemma int_from_bytes_pack_le n z :
  0 ≤ z < 256 ^ Z.of_nat n → int_from_bytes_le (pack_le n z) = z.
Proof.
  revert z. induction n as [|n IH]; intros z Hz.
  - simpl in *. lia.
  - cbn [pack_le int_from_bytes_le].
    rewrite Nat2Z.inj_succ, Z.pow_succ_r in Hz by lia.
    rewrite byte_val_of_Z, IH.
    + pose proof (Z.div_mod z 256 ltac:(lia)). lia.
    + split; [apply Z.div_pos; lia | apply Z.div_lt_upper_bound; lia].
Qed.

(** Encoding a decoded buffer gives the buffer back. *)
Lemma pack_le_int_from_bytes s :
  pack_le (length s) (int_from_bytes_le s) = s.
Proof.
  induction s as [|b s IH]; [done|].
  cbn [length pack_le int_from_bytes_le].
  pose proof (byte_val_range b) as Hb.
  assert (Hm : (byte_val b + 256 * int_from_bytes_le s) mod 256 = byte_val b).
  { rewrite (Z.mul_comm 256), Z.mod_add by lia. apply Z.mod_small; lia. }
  assert (Hd : (byte_val b + 256 * int_from_bytes_le s) / 256 = int_from_bytes_le s).
  { rewrite (Z.mul_comm 256), Z.div_add by lia.
    rewrite Z.div_small by lia. lia. }
  f_equal.
  - rewrite byte_of_Z_mod, Hm. apply byte_of_Z_val.
  - by rewrite Hd.
Qed.

Lemma unpack_pack_le n z :
  0 ≤ z < 256 ^ Z.of_nat n → unpack_le n (pack_le n z) = Ok z.
Proof.
  intros Hz. unfold unpack_le.
  rewrite decide_True by apply length_pack_le.
  by rewrite int_from_bytes_pack_le.
Qed.

Lemma length_slice (d : bytes) a b :
  length (slice d a b) = (Nat.min (b - a) (length d - a))%nat.
Proof. unfold slice. by rewrite length_take, length_drop. Qed.

(** ** The header parsers *)

Lemma slice_app_mid (pre mid post : bytes) a b :
  length pre = a → (b - a)%nat = length mid →
  slice (pre ++ mid ++ post) a b = mid.
Proof.
  intros Ha Hb. unfold slice.
  rewrite drop_app_length' by done.
  by rewrite take_app_length'.
Qed.

Lemma index_app_mid (pre post : bytes) x i :
  length pre = i → index (pre ++ x :: post) i = Ok (byte_val x).
Proof.
  intros <-. unfold index. by rewrite list_lookup_middle.
Qed.

Lemma enhanced_parse_header_accepts v sr ch c rest :
  0 ≤ sr < 2 ^ 32 → 0 ≤ ch < 2 ^ 16 →
  Enhanced.parse_header (ext_header v sr ch c ++ rest)
  = Ok (Some (Enhanced.mkHeader (byte_val v) sr ch (byte_val c)
               (if decide (byte_val c = 1) then "Opus" else "Raw"))).
Proof.
  intros Hsr Hch. unfold Enhanced.parse_header, ext_header.
  rewrite decide_False
    by (rewrite !length_app, !length_pack_le; simpl; lia).
  rewrite decide_False by (intros H; apply H; reflexivity).
  replace (index _ 4) with (Ok (A:=Z) (byte_val v)).
  2:{ symmetry. apply (index_app_mid HEADER_MAGIC). reflexivity. }
  replace (slice _ 5 9) with (pack_le 4 sr).
  2:{ symmetry. apply (slice_app_mid (HEADER_MAGIC ++ [v]) (pack_le 4 sr)
                         (pack_le 2 ch ++ [c] ++ rest)); reflexivity. }
  replace (slice _ 9 11) with (pack_le 2 ch).
  2:{ symmetry.
      apply (slice_app_mid (HEADER_MAGIC ++ [v] ++ pack_le 4 sr) (pack_le 2 ch)
               ([c] ++ rest)); reflexivity. }
  replace (index _ 11) with (Ok (A:=Z) (byte_val c)).
  2:{ symmetry.
      apply (index_app_mid (HEADER_MAGIC ++ [v] ++ pack_le 4 sr ++ pack_le 2 ch)).
      reflexivity. }
  rewrite !unpack_pack_le by done. reflexivity.
Qed.

Lemma silent_parse_header_accepts sr ch rest :
  0 ≤ sr < 2 ^ 32 → 0 ≤ ch < 2 ^ 16 →
  Silent.parse_header (basic_header sr ch ++ rest)
  = Ok (Some (Silent.mkHeader sr ch)).
Proof.
  intros Hsr Hch. unfold Silent.parse_header, basic_header.
  rewrite decide_False
    by (rewrite !length_app, !length_pack_le; simpl; lia).
  rewrite decide_False by (intros H; apply H; reflexivity).
  replace (slice _ 4 8) with (pack_le 4 sr).
  2:{ symmetry. apply (slice_app_mid HEADER_MAGIC (pack_le 4 sr)
                         (pack_le 2 ch ++ rest)); reflexivity. }
  replace (slice _ 8 10) with (pack_le 2 ch).
  2:{ symmetry.
      apply (slice_app_mid (HEADER_MAGIC ++ pack_le 4 sr) (pack_le 2 ch) rest);
        reflexivity. }
  rewrite !unpack_pack_le by done. reflexivity.
Qed.

Lemma enhanced_parse_header_rejects data :
  (length data < 12)%nat ∨ take 4 data ≠ HEADER_MAGIC →
  Enhanced.parse_header data = Ok None.
Proof.
  intros H. unfold Enhanced.parse_header.
  destruct (decide (length data < 12)%nat) as [|Hlen]; [done|].
  destruct H as [|H]; [done|].
  rewrite decide_True; [done|]. unfold slice. by rewrite drop_0.
Qed.

Lemma silent_parse_header_rejects data :
  (length data < 10)%nat ∨ take 4 data ≠ HEADER_MAGIC →
  Silent.parse_header data = Ok None.
Proof.
  intros H. unfold Silent.parse_header.
  destruct (decide (length data < 10)%nat) as [|Hlen]; [done|].
  destruct H as [|H]; [done|].
  rewrite decide_True; [done|]. unfold slice. by rewrite drop_0.
Qed.

(** Every datagram that passes the two guards of the extended parser is an
    extended header followed by arbitrary bytes. *)
Lemma ext_header_shape data :
  (12 ≤ length data)%nat → take 4 data = HEADER_MAGIC →
  ∃ v sr ch c rest,
    data = ext_header v sr ch c ++ rest ∧ 0 ≤ sr < 2 ^ 32 ∧ 0 ≤ ch < 2 ^ 16.
Proof.
  intros Hlen Hm.
  destruct data
    as [|m0 [|m1 [|m2 [|m3 [|v [|r0 [|r1 [|r2 [|r3 [|c0 [|c1 [|k rest]]]]]]]]]]]];
    try (simpl in Hlen; lia).
  injection Hm as -> -> -> ->.
  exists v, (int_from_bytes_le [r0; r1; r2; r3]),
         (int_from_bytes_le [c0; c1]), k, rest.
  split; [|split].
  - unfold ext_header.
    rewrite (pack_le_int_from_bytes [r0; r1; r2; r3] : pack_le 4 _ = _).
    rewrite (pack_le_int_from_bytes [c0; c1] : pack_le 2 _ = _).
    reflexivity.
  - apply (int_from_bytes_le_range [r0; r1; r2; r3]).
  - apply (int_from_bytes_le_range [c0; c1]).
Qed.

Lemma basic_header_shape data :
  (10 ≤ length data)%nat → take 4 data = HEADER_MAGIC →
  ∃ sr ch rest,
    data = basic_header sr ch ++ rest ∧ 0 ≤ sr < 2 ^ 32 ∧ 0 ≤ ch < 2 ^ 16.
Proof.
  intros Hlen Hm.
  destruct data
    as [|m0 [|m1 [|m2 [|m3 [|r0 [|r1 [|r2 [|r3 [|c0 [|c1 rest]]]]]]]]]];
    try (simpl in Hlen; lia).
  injection Hm as -> -> -> ->.
  exists (int_from_bytes_le [r0; r1; r2; r3]),
         (int_from_bytes_le [c0; c1]), rest.
  split; [|split].
  - unfold basic_header.
    rewrite (pack_le_int_from_bytes [r0; r1; r2; r3] : pack_le 4 _ = _).
    rewrite (pack_le_int_from_bytes [c0; c1] : pack_le 2 _ = _).
    reflexivity.
  - apply (int_from_bytes_le_range [r0; r1; r2; r3]).
  - apply (int_from_bytes_le_range [c0; c1]).
Qed.

(** C1 (as the code has it). Each receiver's [parse_header] accepts every
    datagram that starts with its own header layout, whatever follows it:
    the extended parser returns the version, sample rate, channel count and
    compression flag that were encoded little-endian at offsets 4, 5, 9 and
    11, the basic parser the sample rate and channel count at offsets 4 and
    8. Each returns [None] exactly when the datagram is shorter than its
    layout (12 resp. 10 bytes) or does not start with the magic; neither
    ever raises. A datagram longer than the layout is not rejected. *)
Theorem parse_header_min_length_layouts
    (v c : byte) (sr ch : Z) (rest data : bytes) :
  0 ≤ sr < 2 ^ 32 → 0 ≤ ch < 2 ^ 16 →
  Enhanced.parse_header (ext_header v sr ch c ++ rest)
    = Ok (Some (Enhanced.mkHeader (byte_val v) sr ch (byte_val c)
                 (if decide (byte_val c = 1) then "Opus" else "Raw")))
  ∧ Silent.parse_header (basic_header sr ch ++ rest)
    = Ok (Some (Silent.mkHeader sr ch))
  ∧ (Enhanced.parse_header data = Ok None
     ↔ (length data < 12)%nat ∨ take 4 data ≠ HEADER_MAGIC)
  ∧ (Silent.parse_header data = Ok None
     ↔ (length data < 10)%nat ∨ take 4 data ≠ HEADER_MAGIC).
Proof.
  intros Hsr Hch. split; [|split; [|split]].
  - by apply enhanced_parse_header_accepts.
  - by apply silent_parse_header_accepts.
  - split; [|apply enhanced_parse_header_rejects].
    intros Hnone.
    destruct (decide (length data < 12)%nat) as [|Hlen]; [by left|right].
    intros Hm.
    destruct (ext_header_shape data) as (v' & sr' & ch' & c' & rest' & -> & ? & ?);
      [lia | done |].
    by rewrite enhanced_parse_header_accepts in Hnone.
  - split; [|apply silent_parse_header_rejects].
    intros Hnone.
    destruct (decide (length data < 10)%nat) as [|Hlen]; [by left|right].
    intros Hm.
    destruct (basic_header_shape data) as (sr' & ch' & rest' & -> & ? & ?);
      [lia | done |].
    by rewrite silent_parse_header_accepts in Hnone.
Qed.

Lemma parse_header_min_length_layouts_witness :
  Enhanced.parse_header (ext_header x01 48000 2 x00 ++ [xff])
    = Ok (Some (Enhanced.mkHeader 1 48000 2 0 "Raw"))
  ∧ Silent.parse_header (basic_header 48000 2 ++ [xff])
    = Ok (Some (Silent.mkHeader 48000 2))
  ∧ Enhanced.parse_header (basic_header 48000 2) = Ok None.
Proof.
  destruct (parse_header_min_length_layouts x01 x00 48000 2 [xff]
              (basic_header 48000 2) ltac:(lia) ltac:(lia))
    as (H1 & H2 & H3 & _).
  split; [exact H1 | split; [exact H2 |]].
  apply H3. left. vm_compute. lia.
Defined.

(** C1 as stated fails. A 13-byte datagram (neither 10 nor 12 bytes long)
    that starts with an extended header is parsed as a header, and so is an
    11-byte datagram by the basic parser. Neither parser chooses a layout by
    length: the extended parser rejects a valid 10-byte header, and the
    basic parser reads a valid 12-byte header with the 10-byte offsets
    (rate 48000 and 2 channels come out as 12288001 and 512). *)
Lemma parse_header_accepts_longer_datagram :
  let d13 := [x53; x59; x4e; x43; x01; x80; xbb; x00; x00; x02; x00; x00; xff] in
  let d11 := [x53; x59; x4e; x43; x80; xbb; x00; x00; x02; x00; xff] in
  let d10 := [x53; x59; x4e; x43; x80; xbb; x00; x00; x02; x00] in
  let d12 := [x53; x59; x4e; x43; x01; x80; xbb; x00; x00; x02; x00; x00] in
  length d13 = 13%nat
  ∧ Enhanced.parse_header d13 = Ok (Some (Enhanced.mkHeader 1 48000 2 0 "Raw"))
  ∧ length d11 = 11%nat
  ∧ Silent.parse_header d11 = Ok (Some (Silent.mkHeader 48000 2))
  ∧ Enhanced.parse_header d10 = Ok None
  ∧ Silent.parse_header d12 = Ok (Some (Silent.mkHeader 12288001 512)).
Proof. vm_compute. done. Qed.

(** ** The audio-packet parser *)

Lemma length_audio_prefix ty ts sz : length (audio_prefix ty ts sz) = 11%nat.
Proof. unfold audio_prefix. by rewrite !length_app, !length_pack_le. Qed.

Lemma parse_audio_packet_encoded ty ts sz payload :
  0 ≤ ts < 2 ^ 64 → 0 ≤ sz < 2 ^ 16 →
  Enhanced.parse_audio_packet (audio_prefix ty ts sz ++ payload)
  = Ok (Some (Enhanced.mkAudioPacket (byte_val ty) ts sz
               (take (Z.to_nat sz) payload))).
Proof.
  intros Hts Hsz. unfold Enhanced.parse_audio_packet.
  rewrite decide_False
    by (rewrite length_app, length_audio_prefix; lia).
  replace (index _ 0) with (Ok (A:=Z) (byte_val ty)) by reflexivity.
  replace (slice _ 1 9) with (pack_le 8 ts).
  2:{ symmetry. unfold audio_prefix.
      apply (slice_app_mid [ty] (pack_le 8 ts) (pack_le 2 sz ++ payload));
        reflexivity. }
  replace (slice _ 9 11) with (pack_le 2 sz).
  2:{ symmetry. unfold audio_prefix.
      apply (slice_app_mid ([ty] ++ pack_le 8 ts) (pack_le 2 sz) payload);
        reflexivity. }
  rewrite !unpack_pack_le by done.
  cbn [mbind result_bind]. do 3 f_equal.
  unfold slice.
  rewrite (drop_app_length' (audio_prefix ty ts sz))
    by (by rewrite length_audio_prefix).
  f_equal. lia.
Qed.

(** Every datagram of at least 11 bytes is an audio prefix followed by
    payload bytes. *)
Lemma audio_packet_shape data :
  (11 ≤ length data)%nat →
  ∃ ty ts sz payload,
    data = audio_prefix ty ts sz ++ payload
    ∧ 0 ≤ ts < 2 ^ 64 ∧ 0 ≤ sz < 2 ^ 16.
Proof.
  intros Hlen.
  destruct data as [|ty data]; [simpl in Hlen; lia|].
  exists ty, (int_from_bytes_le (take 8 data)),
         (int_from_bytes_le (take 2 (drop 8 data))), (drop 10 data).
  assert (Hl8 : length (take 8 data) = 8%nat)
    by (rewrite length_take; simpl in Hlen; lia).
  assert (Hl2 : length (take 2 (drop 8 data)) = 2%nat)
    by (rewrite length_take, length_drop; simpl in Hlen; lia).
  split; [|split].
  - unfold audio_prefix.
    pose proof (pack_le_int_from_bytes (take 8 data)) as E8.
    pose proof (pack_le_int_from_bytes (take 2 (drop 8 data))) as E2.
    rewrite Hl8 in E8. rewrite Hl2 in E2. rewrite E8, E2.
    cbn [app]. f_equal.
    rewrite <- (take_drop 8 data) at 1. rewrite <- (assoc_L (++)). f_equal.
    rewrite <- (take_drop 2 (drop 8 data)) at 1. f_equal.
    by rewrite drop_drop.
  - pose proof (int_from_bytes_le_range (take 8 data)) as H.
    by rewrite Hl8 in H.
  - pose proof (int_from_bytes_le_range (take 2 (drop 8 data))) as H.
    by rewrite Hl2 in H.
Qed.

(** C4. On every datagram of at least 11 bytes [parse_audio_packet] returns
    a packet and does not raise. The two bytes at offsets 9 and 10 are the
    little-endian encoding of its [size]; its payload is a prefix of the
    bytes that follow the 11-byte prefix, of length min(size, remaining);
    and when the declared size exceeds the remaining bytes the payload is
    exactly the remaining bytes. *)
Theorem parse_audio_packet_clamps_payload (d : bytes) :
  (11 ≤ length d)%nat →
  ∃ p, Enhanced.parse_audio_packet d = Ok (Some p)
     ∧ pack_le 2 (Enhanced.size p) = slice d 9 11
     ∧ Enhanced.data p `prefix_of` drop 11 d
     ∧ Z.of_nat (length (Enhanced.data p))
       = Z.min (Enhanced.size p) (Z.of_nat (length d) - 11)
     ∧ (Z.of_nat (length d) - 11 < Enhanced.size p →
        Enhanced.data p = drop 11 d
        ∧ length (Enhanced.data p) = (length d - 11)%nat).
Proof.
  intros Hlen.
  destruct (audio_packet_shape d Hlen)
    as (ty & ts & sz & payload & -> & Hts & Hsz).
  eexists. split; [by apply parse_audio_packet_encoded|].
  cbn [Enhanced.size Enhanced.data].
  rewrite length_app, length_audio_prefix.
  rewrite (drop_app_length' (audio_prefix ty ts sz))
    by (by rewrite length_audio_prefix).
  split; [|split; [|split]].
  - symmetry. unfold audio_prefix.
    apply (slice_app_mid ([ty] ++ pack_le 8 ts) (pack_le 2 sz) payload);
      reflexivity.
  - apply prefix_take.
  - rewrite length_take. lia.
  - intros Hbig. rewrite take_ge by lia. split; [done | lia].
Qed.

Lemma parse_audio_packet_clamps_payload_witness :
  let d := [x00] ++ pack_le 8 1000 ++ pack_le 2 1024 ++ [x0a; x0b; x0c] in
  ∃ p, Enhanced.parse_audio_packet d = Ok (Some p)
     ∧ pack_le 2 (Enhanced.size p) = slice d 9 11
     ∧ Enhanced.data p `prefix_of` drop 11 d
     ∧ Z.of_nat (length (Enhanced.data p))
       = Z.min (Enhanced.size p) (Z.of_nat (length d) - 11)
     ∧ (Z.of_nat (length d) - 11 < Enhanced.size p →
        Enhanced.data p = drop 11 d
        ∧ length (Enhanced.data p) = (length d - 11)%nat).
Proof.
  apply (parse_audio_packet_clamps_payload
           ([x00] ++ pack_le 8 1000 ++ pack_le 2 1024 ++ [x0a; x0b; x0c])).
  vm_compute. lia.
Defined.

(** C10. On every datagram of at least 11 bytes [parse_audio_packet]
    succeeds, whatever its first byte is: the datagram is some type byte,
    timestamp and declared size followed by payload bytes, and the packet
    returned carries that byte's value as [type] and the declared size as
    [size] unchanged, beside a payload cut to at most [size] bytes. When
    fewer payload bytes are present than declared, [size] is strictly
    larger than the length of the returned payload. *)
Theorem parse_audio_packet_keeps_declared_size (d : bytes) :
  (11 ≤ length d)%nat →
  ∃ ty ts sz payload,
    d = audio_prefix ty ts sz ++ payload
    ∧ 0 ≤ sz < 2 ^ 16
    ∧ Enhanced.parse_audio_packet d
      = Ok (Some (Enhanced.mkAudioPacket (byte_val ty) ts sz
                   (take (Z.to_nat sz) payload)))
    ∧ (Z.of_nat (length payload) < sz →
       Z.of_nat (length (take (Z.to_nat sz) payload)) < sz).
Proof.
  intros Hlen.
  destruct (audio_packet_shape d Hlen)
    as (ty & ts & sz & payload & -> & Hts & Hsz).
  exists ty, ts, sz, payload.
  split; [done|]. split; [done|].
  split; [by apply parse_audio_packet_encoded|].
  intros Hshort. rewrite length_take. lia.
Qed.

Lemma parse_audio_packet_keeps_declared_size_witness :
  let d := audio_prefix x07 123 100 ++ [x01; x02] in
  (11 ≤ length d)%nat
  ∧ Enhanced.parse_audio_packet d
    = Ok (Some (Enhanced.mkAudioPacket 7 123 100 [x01; x02]))
  ∧ ∃ ty ts sz payload,
      d = audio_prefix ty ts sz ++ payload
      ∧ 0 ≤ sz < 2 ^ 16
      ∧ Enhanced.parse_audio_packet d
        = Ok (Some (Enhanced.mkAudioPacket (byte_val ty) ts sz
                     (take (Z.to_nat sz) payload)))
      ∧ (Z.of_nat (length payload) < sz →
         Z.of_nat (length (take (Z.to_nat sz) payload)) < sz).
Proof.
  split; [vm_compute; lia|]. split; [vm_compute; reflexivity|].
  apply (parse_audio_packet_keeps_declared_size
           (audio_prefix x07 123 100 ++ [x01; x02])).
  vm_compute. lia.
Defined.

(** ** The jitter buffer *)

Section JitterBufferFacts.
Import JitterBuffer.

Lemma frames_add jb x :
  frames (add jb x)
  = if decide (maxlen (buffer jb) < length (frames jb ++ [x]))%nat
    then drop 1 (frames jb ++ [x]) else frames jb ++ [x].
Proof. reflexivity. Qed.

Lemma maxlen_add jb x : maxlen (buffer (add jb x)) = maxlen (buffer jb).
Proof. reflexivity. Qed.

(** [get] below the watermark: nothing is returned, nothing changes. *)
Lemma get_below jb :
  (size jb < JITTER_BUFFER_MIN)%nat → get jb = Ok (None, jb).
Proof.
  intros H. unfold get. by rewrite decide_False by (unfold size in H; lia).
Qed.

(** [get] at or above the watermark: the leftmost frame is returned and
    removed. *)
Lemma get_above jb :
  (JITTER_BUFFER_MIN ≤ size jb)%nat →
  ∃ x rest,
    frames jb = x :: rest
    ∧ get jb = Ok (Some x, mk (mkDeque (maxlen (buffer jb)) rest)).
Proof.
  intros H. unfold get, size, deque_len, frames in *.
  rewrite decide_True by done.
  unfold deque_popleft.
  destruct (items (buffer jb)) as [|x rest] eqn:E.
  - unfold JITTER_BUFFER_MIN in H. simpl in H. lia.
  - by exists x, rest.
Qed.

Lemma inv_init n : inv n [] [] (init n).
Proof. split; simpl; [done | lia | done | done]. Qed.

Lemma inv_add n h out jb x :
  inv n h out jb → inv n (h ++ [x]) out (add jb x).
Proof.
  intros [Hm Hb Hs Ho]. split.
  - by rewrite maxlen_add.
  - rewrite frames_add, Hm. case_decide as Hfull.
    + rewrite length_drop, length_app. simpl. lia.
    + lia.
  - rewrite frames_add. case_decide.
    + etrans; [apply suffix_drop | by apply suffix_app].
    + by apply suffix_app.
  - rewrite frames_add.
    assert ((out ++ frames jb ++ [x]) `sublist_of` (h ++ [x])) as Hall.
    { rewrite (assoc_L (++)). by apply sublist_app. }
    case_decide; [|done].
    etrans; [|exact Hall].
    apply sublist_app; [done | apply sublist_drop].
Qed.

Lemma inv_get n h out jb :
  inv n h out jb →
  ∃ r jb', get jb = Ok (r, jb')
           ∧ inv n h (out ++ delivered [r]) jb'.
Proof.
  intros [Hm Hb Hs Ho].
  destruct (decide (size jb < JITTER_BUFFER_MIN)%nat) as [Hlt|Hge].
  - exists None, jb. split; [by apply get_below|].
    cbn. rewrite (right_id_L [] (++)). by split.
  - destruct (get_above jb) as (x & rest & Hfr & Hget); [lia|].
    exists (Some x), (mk (mkDeque (maxlen (buffer jb)) rest)).
    split; [done|]. rewrite Hfr in *.
    split; cbn.
    + done.
    + simpl in Hb. lia.
    + by eapply suffix_cons_l.
    + by rewrite <- (assoc_L (++)).
Qed.

(** A run never raises and re-establishes the invariant. *)
Lemma run_inv n ops : ∀ h out jb,
  inv n h out jb →
  ∃ rs jb', run ops jb = Ok (rs, jb')
            ∧ inv n (h ++ pushed ops) (out ++ delivered rs) jb'.
Proof.
  induction ops as [|[x|] ops IH]; intros h out jb Hinv.
  - exists [], jb. split; [done|]. cbn. by rewrite !(right_id_L [] (++)).
  - destruct (IH (h ++ [x]) out (add jb x)) as (rs & jb' & Hrun & Hinv');
      [by apply inv_add|].
    exists rs, jb'. split; [done|].
    by rewrite <- (assoc_L (++)) in Hinv'.
  - destruct (inv_get n h out jb Hinv) as (r & jb1 & Hget & Hinv1).
    destruct (IH h (out ++ delivered [r]) jb1 Hinv1)
      as (rs & jb' & Hrun & Hinv').
    exists (r :: rs), jb'. split.
    + cbn [run]. rewrite Hget. cbn. rewrite Hrun. done.
    + rewrite <- (assoc_L (++)) in Hinv'.
      replace (delivered (r :: rs)) with (delivered [r] ++ delivered rs)
        by (by destruct r).
      exact Hinv'.
Qed.

(** A suffix is determined by its length. *)
Lemma suffix_is_drop (l h : list bytes) :
  l `suffix_of` h → l = drop (length h - length l) h.
Proof.
  intros [k ->]. rewrite length_app.
  replace (length k + length l - length l)%nat with (length k) by lia.
  by rewrite drop_app_length.
Qed.
End JitterBufferFacts.

(** C3. Whatever sequence of [add] and [get] calls a client makes on a
    fresh buffer of capacity 10, no call raises and afterwards: the
    occupancy is at most 10; the frames still buffered are the most recently
    pushed ones (a suffix of the push sequence); the frames delivered,
    followed by the frames still buffered, appear in the push sequence in
    that order; a further [get] returns nothing and changes nothing when
    fewer than 3 frames are buffered, and returns and removes the oldest
    buffered frame when at least 3 are. *)
Theorem jitter_buffer_bounded_fifo (ops : list JitterBuffer.op) :
  ∃ rs jb,
    JitterBuffer.run ops (JitterBuffer.init JITTER_BUFFER_SIZE) = Ok (rs, jb)
    ∧ (JitterBuffer.size jb ≤ JITTER_BUFFER_SIZE)%nat
    ∧ JitterBuffer.frames jb `suffix_of` JitterBuffer.pushed ops
    ∧ (JitterBuffer.delivered rs ++ JitterBuffer.frames jb)
        `sublist_of` JitterBuffer.pushed ops
    ∧ ((JitterBuffer.size jb < JITTER_BUFFER_MIN)%nat →
       JitterBuffer.get jb = Ok (None, jb))
    ∧ ((JITTER_BUFFER_MIN ≤ JitterBuffer.size jb)%nat →
       ∃ x rest jb',
         JitterBuffer.frames jb = x :: rest
         ∧ JitterBuffer.get jb = Ok (Some x, jb')
         ∧ JitterBuffer.frames jb' = rest).
Proof.
  destruct (run_inv JITTER_BUFFER_SIZE ops [] [] _ (inv_init _))
    as (rs & jb & Hrun & [Hm Hb Hs Ho]).
  exists rs, jb. cbn [app] in *.
  repeat split; try done.
  - apply get_below.
  - intros Hge. destruct (get_above jb Hge) as (x & rest & Hfr & Hget).
    by eexists x, rest, _.
Qed.

Lemma jitter_buffer_bounded_fifo_witness :
  let f1 := [x01] in let f2 := [x02] in let f3 := [x03] in
  let ops := [JitterBuffer.Add f1; JitterBuffer.Get; JitterBuffer.Add f2;
              JitterBuffer.Add f3; JitterBuffer.Get; JitterBuffer.Get] in
  JitterBuffer.run ops (JitterBuffer.init JITTER_BUFFER_SIZE)
    = Ok ([None; Some f1; None], JitterBuffer.mk (mkDeque 10 [f2; f3]))
  ∧ ∃ rs jb,
      JitterBuffer.run ops (JitterBuffer.init JITTER_BUFFER_SIZE) = Ok (rs, jb)
      ∧ (JitterBuffer.size jb ≤ JITTER_BUFFER_SIZE)%nat
      ∧ JitterBuffer.frames jb `suffix_of` JitterBuffer.pushed ops
      ∧ (JitterBuffer.delivered rs ++ JitterBuffer.frames jb)
          `sublist_of` JitterBuffer.pushed ops
      ∧ ((JitterBuffer.size jb < JITTER_BUFFER_MIN)%nat →
         JitterBuffer.get jb = Ok (None, jb))
      ∧ ((JITTER_BUFFER_MIN ≤ JitterBuffer.size jb)%nat →
         ∃ x rest jb',
           JitterBuffer.frames jb = x :: rest
           ∧ JitterBuffer.get jb = Ok (Some x, jb')
           ∧ JitterBuffer.frames jb' = rest).
Proof.
  split; [vm_compute; reflexivity|].
  apply (jitter_buffer_bounded_fifo
           [JitterBuffer.Add [x01]; JitterBuffer.Get; JitterBuffer.Add [x02];
            JitterBuffer.Add [x03]; JitterBuffer.Get; JitterBuffer.Get]).
Defined.

(** C5. In a buffer of capacity [n > 0] reached from a fresh one by any
    sequence of calls, an [add] on a full buffer discards the oldest frame
    and appends the new one: the occupancy stays [n], and the buffer then
    holds the [n] most recently pushed frames in push order. *)
Theorem jitter_buffer_add_at_capacity
    (n : nat) (ops : list JitterBuffer.op)
    (rs : list (option bytes)) (jb : JitterBuffer.t) (x : bytes) :
  (0 < n)%nat →
  JitterBuffer.run ops (JitterBuffer.init n) = Ok (rs, jb) →
  JitterBuffer.size jb = n →
  JitterBuffer.frames (JitterBuffer.add jb x)
    = drop 1 (JitterBuffer.frames jb) ++ [x]
  ∧ JitterBuffer.size (JitterBuffer.add jb x) = n
  ∧ JitterBuffer.frames (JitterBuffer.add jb x)
    = drop (length (JitterBuffer.pushed ops ++ [x]) - n)
           (JitterBuffer.pushed ops ++ [x]).
Proof.
  intros Hn Hrun Hfull.
  destruct (run_inv n ops [] [] _ (inv_init _))
    as (rs' & jb' & Hrun' & Hinv).
  rewrite Hrun in Hrun'. injection Hrun' as <- <-.
  cbn [app] in Hinv.
  pose proof (inv_add _ _ _ _ x Hinv) as [Hm' Hb' Hs' _].
  destruct Hinv as [Hm Hb Hs _].
  unfold JitterBuffer.size, deque_len in *.
  fold (JitterBuffer.frames jb) in Hfull.
  fold (JitterBuffer.frames (JitterBuffer.add jb x)).
  assert (Hfr : JitterBuffer.frames (JitterBuffer.add jb x)
                = drop 1 (JitterBuffer.frames jb) ++ [x]).
  { rewrite frames_add, Hm, length_app. cbn [length].
    rewrite decide_True by lia.
    destruct (JitterBuffer.frames jb); [simpl in Hfull; lia | done]. }
  assert (Hlen : length (JitterBuffer.frames (JitterBuffer.add jb x)) = n).
  { rewrite Hfr, length_app, length_drop. cbn [length]. lia. }
  split; [done|]. split; [done|].
  pose proof (suffix_is_drop _ _ Hs') as Hlast.
  by rewrite Hlen in Hlast.
Qed.

Lemma jitter_buffer_add_at_capacity_witness :
  let f (b : byte) := JitterBuffer.Add [b] in
  let ops := [f x00; f x01; f x02; f x03; f x04;
              f x05; f x06; f x07; f x08; f x09] in
  let full := JitterBuffer.mk
                (mkDeque 10 [[x00]; [x01]; [x02]; [x03]; [x04];
                             [x05]; [x06]; [x07]; [x08]; [x09]]) in
  JitterBuffer.frames (JitterBuffer.add full [x0a])
    = [[x01]; [x02]; [x03]; [x04]; [x05]; [x06]; [x07]; [x08]; [x09]; [x0a]]
  ∧ JitterBuffer.size (JitterBuffer.add full [x0a]) = 10%nat
  ∧ JitterBuffer.frames (JitterBuffer.add full [x0a])
    = drop (length (JitterBuffer.pushed ops ++ [[x0a]]) - 10)
           (JitterBuffer.pushed ops ++ [[x0a]]).
Proof.
  intros f ops full.
  apply (jitter_buffer_add_at_capacity 10 ops [] full [x0a]).
  - lia.
  - vm_compute. reflexivity.
  - vm_compute. reflexivity.
Defined.

(** ** The state monad *)

Section Preserves.
Context {S : Type} (R : relation S) `{!PreOrder R}.

Lemma preserves_ret {A} (a : A) : preserves R (mret a : M S A).
Proof. intros st. reflexivity. Qed.

Lemma preserves_lift {A} (r : result A) : preserves R (lift r : M S A).
Proof. intros st. reflexivity. Qed.

Lemma preserves_gets {A} (f : S → A) : preserves R (gets f).
Proof. intros st. reflexivity. Qed.

Lemma preserves_modify (f : S → S) :
  (∀ st, R st (f st)) → preserves R (modify f).
Proof. intros Hf st. apply Hf. Qed.

Lemma preserves_bind {A B} (c : M S A) (k : A → M S B) :
  preserves R c → (∀ a, preserves R (k a)) → preserves R (c ≫= k).
Proof.
  intros Hc Hk st. unfold mbind, M_bind.
  specialize (Hc st). destruct (c st) as [[a|e] st1]; simpl in *; [|done].
  etrans; [exact Hc | apply Hk].
Qed.

Lemma preserves_try {A} (c : M S A) (h : exn → M S A) :
  preserves R c → (∀ e, preserves R (h e)) → preserves R (try_except c h).
Proof.
  intros Hc Hh st. unfold try_except.
  specialize (Hc st). destruct (c st) as [[a|e] st1]; simpl in *; [done|].
  etrans; [exact Hc | apply Hh].
Qed.
End Preserves.

Ltac preserves_steps :=
  repeat first
    [ apply preserves_ret | apply preserves_lift | apply preserves_gets
    | apply preserves_bind | apply preserves_try
    | progress cbv beta
    | match goal with
      | |- PreOrder _ => apply _
      | |- ∀ _, _ => intro
      | |- preserves _ (if ?b then _ else _) => destruct b
      | |- preserves _ (match ?x with _ => _ end) => destruct x
      | |- preserves _ (let _ := _ in _) => cbv zeta
      end ].

#[global] Instance same_counters_preorder : PreOrder same_counters.
Proof.
  split.
  - by intros st.
  - intros a b c (?&?&?&?&?) (?&?&?&?&?). unfold same_counters.
    repeat split; congruence.
Qed.

#[global] Instance quiet_preorder : PreOrder quiet.
Proof.
  split.
  - intros st. split; [done|]. split; [done|].
    exists []. by rewrite (right_id_L [] (++)).
  - intros a b c (Hc1 & Hl1 & ls1 & Ho1 & Hf1) (Hc2 & Hl2 & ls2 & Ho2 & Hf2).
    split; [by etrans|]. split; [congruence|].
    exists (ls1 ++ ls2). split.
    + by rewrite Ho2, Ho1, (assoc_L (++)).
    + by apply Forall_app.
Qed.

#[global] Instance same_session_preorder : PreOrder same_session.
Proof.
  split.
  - by intros st.
  - intros a b c (Hc1 & Hl1 & Ho1) (Hc2 & Hl2 & Ho2).
    split; [by etrans|]. split; congruence.
Qed.

(** ** The streaming loop of the enhanced receiver *)

Section LoopFacts.
Import Enhanced Receiver.
Variable config : Header.
Variable decoder : option Decoder.

Lemma decode_and_buffer_counters ev p :
  preserves same_counters (decode_and_buffer decoder ev p).
Proof.
  unfold decode_and_buffer. preserves_steps; by apply preserves_modify.
Qed.

Lemma play_counters ev : preserves same_counters (play ev).
Proof. unfold play. preserves_steps; by apply preserves_modify. Qed.

Lemma report_counters ev : preserves same_counters (report config ev).
Proof. unfold report. preserves_steps; by apply preserves_modify. Qed.

(** A repeated header and a datagram shorter than the audio prefix leave
    the state as it is. *)
Lemma loop_body_skip ev st :
  header_shaped 12 (ev_data ev) ∨ (length (ev_data ev) < 11)%nat →
  loop_body config decoder ev st = (Ok tt, st).
Proof.
  intros H. unfold loop_body.
  destruct (decide (length (ev_data ev) = 12%nat ∧ _)) as [|Hh]; [done|].
  destruct H as [H|H]; [done|].
  unfold parse_audio_packet. by rewrite decide_True.
Qed.

(** Any other datagram is counted, its latency recorded, and only then
    decoded, buffered and played. *)
Lemma loop_body_accept ev st p :
  ¬ header_shaped 12 (ev_data ev) →
  parse_audio_packet (ev_data ev) = Ok (Some p) →
  loop_body config decoder ev st
  = (buffered ← decode_and_buffer decoder ev p;
     if buffered : bool then play ev;; report config ev else mret tt)
      (record_latency (latency_us (ev_receive_time ev) p)
         (count_packet (length (ev_data ev)) st)).
Proof.
  intros Hh Hp. unfold loop_body.
  rewrite decide_False by done.
  rewrite Hp. reflexivity.
Qed.

(** The parser's outcome on any datagram: never an exception. *)
Lemma parse_audio_packet_cases d :
  ((length d < 11)%nat ∧ parse_audio_packet d = Ok None)
  ∨ ((11 ≤ length d)%nat ∧ ∃ p, parse_audio_packet d = Ok (Some p)).
Proof.
  destruct (decide (length d < 11)%nat) as [Hlt|Hge].
  - left. split; [done|]. unfold parse_audio_packet. by rewrite decide_True.
  - right. split; [lia|].
    destruct (audio_packet_shape d) as (ty & ts & sz & payload & -> & ? & ?);
      [lia|].
    eexists. by apply parse_audio_packet_encoded.
Qed.

Lemma counted_true d p :
  ¬ header_shaped 12 d → parse_audio_packet d = Ok (Some p) →
  counted d = true.
Proof.
  intros Hh Hp. apply bool_decide_eq_true. split; [done|].
  destruct (parse_audio_packet_cases d) as [[_ E]|[? _]]; [congruence|done].
Qed.

Lemma counted_false d :
  header_shaped 12 d ∨ (length d < 11)%nat → counted d = false.
Proof.
  intros H. apply bool_decide_eq_false. intros [? ?].
  destruct H; [done | lia].
Qed.
End LoopFacts.

Section CounterFacts.
Import Enhanced Receiver.
Variable config : Header.
Variable decoder : option Decoder.

(** What one iteration does to the accumulators, whether or not it ends
    in an exception. *)
Lemma loop_body_counters ev st :
  let st' := (loop_body config decoder ev st).2 in
  ((header_shaped 12 (ev_data ev) ∨ (length (ev_data ev) < 11)%nat)
   ∧ st' = st)
  ∨ (∃ p, ¬ header_shaped 12 (ev_data ev)
        ∧ parse_audio_packet (ev_data ev) = Ok (Some p)
        ∧ packet_count st' = packet_count st + 1
        ∧ bytes_received st'
          = bytes_received st + Z.of_nat (length (ev_data ev))
        ∧ total_latency_us st'
          = total_latency_us st + latency_us (ev_receive_time ev) p
        ∧ latency_count st' = latency_count st + 1
        ∧ start_time st' = start_time st).
Proof.
  intros st'.
  destruct (decide (header_shaped 12 (ev_data ev))) as [Hh|Hh].
  { left. split; [by left|]. subst st'. by rewrite loop_body_skip by by left. }
  destruct (parse_audio_packet_cases (ev_data ev))
    as [[Hlt _]|[_ [p Hp]]].
  { left. split; [by right|].
    subst st'. by rewrite loop_body_skip by by right. }
  right. exists p. split; [done|]. split; [done|].
  subst st'. rewrite (loop_body_accept _ _ _ _ p) by done.
  match goal with
  | |- context [(?c ?s).2] =>
      assert (same_counters s (c s).2) as (-> & -> & -> & -> & ->)
  end.
  { apply preserves_bind; [apply _ | apply decode_and_buffer_counters |].
    intros [|]; [|apply preserves_ret; apply _].
    apply preserves_bind;
      [apply _ | apply play_counters | intros; apply report_counters]. }
  done.
Qed.

Lemma run_cons ev evs st :
  run config decoder (ev :: evs) st
  = match loop_body config decoder ev st with
    | (Ok _, st1) => run config decoder evs st1
    | (Raise e, st1) => (Raise e, st1)
    end.
Proof. reflexivity. Qed.

Lemma run_counters_monotone evs : ∀ st,
  let st' := (run config decoder evs st).2 in
  packet_count st ≤ packet_count st'
  ∧ bytes_received st ≤ bytes_received st'
  ∧ latency_count st ≤ latency_count st'
  ∧ start_time st' = start_time st
  ∧ ((∀ ev p, ev ∈ evs →
        parse_audio_packet (ev_data ev) = Ok (Some p) →
        timestamp p ≤ ev_receive_time ev) →
     total_latency_us st ≤ total_latency_us st').
Proof.
  induction evs as [|ev evs IH]; intros st; [by cbn|].
  cbn zeta. rewrite run_cons.
  pose proof (loop_body_counters ev st) as Hstep. cbn zeta in Hstep.
  destruct (loop_body config decoder ev st) as [[[]|e] st1];
    cbn [snd] in *.
  - specialize (IH st1). cbn zeta in IH.
    destruct IH as (IH1 & IH2 & IH3 & IH4 & IH5).
    destruct Hstep as [[_ ->]|(p & _ & Hp & E1 & E2 & E3 & E4 & E5)].
    + repeat split; try done.
      intros Hts. apply IH5. intros ev' p' ?. apply Hts. by right.
    + split; [lia|]. split; [lia|]. split; [lia|]. split; [congruence|].
      intros Hts.
      assert (total_latency_us st1
              ≤ total_latency_us (run config decoder evs st1).2) as Hle.
      { apply IH5. intros ev' p' ?. apply Hts. by right. }
      specialize (Hts ev p ltac:(left) Hp).
      unfold latency_us in E3. lia.
  - destruct Hstep as [[_ ->]|(p & _ & Hp & E1 & E2 & E3 & E4 & E5)].
    + repeat split; done.
    + split; [lia|]. split; [lia|]. split; [lia|]. split; [done|].
      intros Hts. specialize (Hts ev p ltac:(left) Hp).
      unfold latency_us in E3. lia.
Qed.
(** Every iteration adds the datagram's signed latency sample to the
    cumulative latency, whether or not it ends in an exception. *)
Lemma loop_body_sample ev st :
  total_latency_us (loop_body config decoder ev st).2
  = total_latency_us st + sample ev.
Proof.
  unfold sample.
  destruct (loop_body_counters ev st)
    as [[Hskip ->]|(p & Hh & Hp & _ & _ & -> & _)].
  - rewrite counted_false by done. lia.
  - by rewrite (counted_true _ p), Hp by done.
Qed.

Lemma latency_total_cons ev evs :
  latency_total (ev :: evs) = sample ev + latency_total evs.
Proof. reflexivity. Qed.

(** After a run the cumulative latency is the sum of the signed samples of
    the datagrams the loop handled: all of them, or those up to the one
    whose iteration raised. *)
Lemma run_latency_total evs : ∀ st,
  let r := run config decoder evs st in
  ∃ n, (n ≤ length evs)%nat
    ∧ total_latency_us r.2 = total_latency_us st + latency_total (take n evs)
    ∧ (r.1 = Ok tt → n = length evs).
Proof.
  induction evs as [|ev evs IH]; intros st; cbn zeta.
  { exists 0%nat. cbn. split; [done|]. split; [lia | done]. }
  rewrite run_cons.
  pose proof (loop_body_sample ev st) as Hstep.
  destruct (loop_body config decoder ev st) as [[[]|e] st1];
    cbn [fst snd] in *.
  - destruct (IH st1) as (n & Hn & Hsum & Hok). cbn zeta in *.
    exists (S n). cbn [length take]. split; [lia|].
    rewrite latency_total_cons. split; [lia|].
    intros Hr. by rewrite (Hok Hr).
  - exists 1%nat. cbn [length take]. rewrite take_0, latency_total_cons.
    split; [lia|]. split; [|done]. cbn. lia.
Qed.
End CounterFacts.

(** C6 (as the code has it). Over any run of the streaming loop, from any
    state and whether or not the run ends in an exception, the packet count,
    the cumulative bytes and the latency count never decrease; all four
    accumulators are zero when the session is created. The cumulative
    latency sum is the sum of signed samples: after a run it is the sum
    before the run plus the samples (receive time minus origin timestamp,
    unfiltered) of the datagrams handled. It is non-decreasing as long as no
    frame carries an origin timestamp later than its receive time, and every
    frame that does carry one lowers it, by the difference. *)
Theorem counters_monotone_latency_sum_signed
    (config : Enhanced.Header) (decoder : option Receiver.Decoder)
    (evs : list Receiver.Event) (st : Receiver.State) (t0 : Q) :
  let st' := (Receiver.run config decoder evs st).2 in
  (Receiver.packet_count (Receiver.init_state t0) = 0
   ∧ Receiver.bytes_received (Receiver.init_state t0) = 0
   ∧ Receiver.total_latency_us (Receiver.init_state t0) = 0
   ∧ Receiver.latency_count (Receiver.init_state t0) = 0)
  ∧ Receiver.packet_count st ≤ Receiver.packet_count st'
  ∧ Receiver.bytes_received st ≤ Receiver.bytes_received st'
  ∧ Receiver.latency_count st ≤ Receiver.latency_count st'
  ∧ ((∀ ev p, ev ∈ evs →
        Enhanced.parse_audio_packet (Receiver.ev_data ev) = Ok (Some p) →
        Enhanced.timestamp p ≤ Receiver.ev_receive_time ev) →
     Receiver.total_latency_us st ≤ Receiver.total_latency_us st')
  ∧ (∃ n, (n ≤ length evs)%nat
       ∧ Receiver.total_latency_us st'
         = Receiver.total_latency_us st + latency_total (take n evs)
       ∧ ((Receiver.run config decoder evs st).1 = Ok tt → n = length evs))
  ∧ (∀ ev p,
       ¬ header_shaped 12 (Receiver.ev_data ev) →
       Enhanced.parse_audio_packet (Receiver.ev_data ev) = Ok (Some p) →
       let st1 := (Receiver.loop_body config decoder ev st).2 in
       sample ev = Receiver.ev_receive_time ev - Enhanced.timestamp p
       ∧ Receiver.total_latency_us st1
         = Receiver.total_latency_us st
           + (Receiver.ev_receive_time ev - Enhanced.timestamp p)
       ∧ (Receiver.ev_receive_time ev < Enhanced.timestamp p →
          Receiver.total_latency_us st1 < Receiver.total_latency_us st)).
Proof.
  intros st'. split; [done|].
  destruct (run_counters_monotone config decoder evs st)
    as (H1 & H2 & H3 & _ & H5).
  split; [done|]. split; [done|]. split; [done|]. split; [done|].
  split; [apply run_latency_total|].
  intros ev p Hh Hp. cbn zeta.
  assert (Hs : sample ev = Receiver.ev_receive_time ev - Enhanced.timestamp p).
  { unfold sample. by rewrite (counted_true _ p), Hp by done. }
  rewrite loop_body_sample, Hs. split; [done|]. split; [done | lia].
Qed.

(** A frame stamped 5000 µs before it is received, then one stamped
    2000 µs after it is received. *)
Lemma counters_monotone_latency_sum_signed_witness :
  let config := Enhanced.mkHeader 1 48000 2 0 "Raw" in
  let ev := Receiver.mkEvent (audio_prefix x00 1000 2 ++ [x0a; x0b])
              6000 (Ok []) (Ok tt) 1 in
  let late := Receiver.mkEvent (audio_prefix x00 9000 2 ++ [x0a; x0b])
                7000 (Ok []) (Ok tt) 1 in
  let st := Receiver.init_state 0 in
  let st1 := (Receiver.run config None [ev] st).2 in
  let st2 := (Receiver.run config None [ev; late] st).2 in
  Receiver.packet_count st1 = 1
  ∧ Receiver.bytes_received st1 = 13
  ∧ Receiver.latency_count st1 = 1
  ∧ Receiver.total_latency_us st ≤ Receiver.total_latency_us st1
  ∧ latency_total [ev; late] = 3000
  ∧ (∃ n, (n ≤ 2)%nat
       ∧ Receiver.total_latency_us st2 = 0 + latency_total (take n [ev; late])
       ∧ ((Receiver.run config None [ev; late] st).1 = Ok tt → n = 2%nat))
  ∧ Receiver.total_latency_us (Receiver.loop_body config None late st1).2
    < Receiver.total_latency_us st1.
Proof.
  intros config ev late st st1 st2.
  split; [vm_compute; reflexivity|].
  split; [vm_compute; reflexivity|].
  split; [vm_compute; reflexivity|].
  split.
  { destruct (counters_monotone_latency_sum_signed config None [ev] st 0)
      as (_ & _ & _ & _ & H & _).
    apply H. intros ev' p Hin Hp.
    apply list_elem_of_singleton in Hin. subst ev'.
    vm_compute in Hp. injection Hp as <-. vm_compute. discriminate. }
  split; [vm_compute; reflexivity|].
  split.
  { destruct (counters_monotone_latency_sum_signed config None [ev; late] st 0)
      as (_ & _ & _ & _ & _ & H & _).
    exact H. }
  destruct (counters_monotone_latency_sum_signed config None [] st1 0)
    as (_ & _ & _ & _ & _ & _ & H).
  destruct (H late (Enhanced.mkAudioPacket 0 9000 2 [x0a; x0b]))
    as (_ & _ & Hlt).
  - intros [Hlen _]. vm_compute in Hlen. discriminate.
  - vm_compute. reflexivity.
  - apply Hlt. vm_compute. reflexivity.
Defined.

(** C6 as stated fails for the latency sum: a frame stamped 5000 µs after
    the local receive time (the two clocks are not synchronised) lowers the
    cumulative latency from 0 to -5000. *)
Lemma latency_sum_decreases :
  let config := Enhanced.mkHeader 1 48000 2 0 "Raw" in
  let ev := Receiver.mkEvent
              (audio_prefix x00 1700000000005000 2 ++ [x0a; x0b])
              1700000000000000 (Ok []) (Ok tt) 1 in
  let st := Receiver.init_state 0 in
  Receiver.loop_body config None ev st
  = (Ok tt,
     Receiver.mkState 1 13 (-5000) 1 0 0
       (JitterBuffer.mk (mkDeque 10 [[x0a; x0b]])) [] [])
  ∧ Receiver.total_latency_us (Receiver.loop_body config None ev st).2
    < Receiver.total_latency_us st.
Proof. vm_compute. done. Qed.

(** C7. For every datagram the loop parses as an audio frame (carrying
    origin timestamp [T]), the iteration adds the sample
    [receive time - T] to the cumulative latency and one to the latency
    count, whatever happens afterwards in the iteration; a frame received
    5000 µs after its origin timestamp adds exactly 5000. *)
Theorem latency_sample_recorded
    (config : Enhanced.Header) (decoder : option Receiver.Decoder)
    (ev : Receiver.Event) (st : Receiver.State)
    (ty : byte) (T sz : Z) (payload : bytes) :
  0 ≤ T < 2 ^ 64 → 0 ≤ sz < 2 ^ 16 →
  Receiver.ev_data ev = audio_prefix ty T sz ++ payload →
  ¬ header_shaped 12 (Receiver.ev_data ev) →
  let st' := (Receiver.loop_body config decoder ev st).2 in
  Receiver.total_latency_us st'
    = Receiver.total_latency_us st + (Receiver.ev_receive_time ev - T)
  ∧ Receiver.latency_count st' = Receiver.latency_count st + 1
  ∧ (Receiver.ev_receive_time ev = T + 5000 →
     Receiver.total_latency_us st' = Receiver.total_latency_us st + 5000).
Proof.
  intros HT Hsz Hdata Hh st'.
  pose proof (loop_body_counters config decoder ev st) as Hstep.
  cbn zeta in Hstep. fold st' in Hstep.
  destruct Hstep as [[[Hbad|Hbad] _]|(p & _ & Hp & _ & _ & E3 & E4 & _)].
  - done.
  - rewrite Hdata, length_app, length_audio_prefix in Hbad. lia.
  - rewrite Hdata, parse_audio_packet_encoded in Hp by done.
    injection Hp as <-. unfold Receiver.latency_us in E3. cbn in E3.
    split; [done|]. split; [done|]. intros Hrt. lia.
Qed.

Lemma latency_sample_recorded_witness :
  let config := Enhanced.mkHeader 1 48000 2 0 "Raw" in
  let T := 1700000000000000 in
  let ev := Receiver.mkEvent (audio_prefix x00 T 2 ++ [x0a; x0b])
              (T + 5000) (Ok []) (Ok tt) 1 in
  let st' := (Receiver.loop_body config None ev (Receiver.init_state 0)).2 in
  Receiver.total_latency_us st' = 5000
  ∧ Receiver.latency_count st' = 1.
Proof.
  intros config T ev st'.
  destruct (latency_sample_recorded config None ev (Receiver.init_state 0)
              x00 T 2 [x0a; x0b]) as (_ & H2 & H3).
  - vm_compute. split; [discriminate | reflexivity].
  - lia.
  - reflexivity.
  - intros [Hlen _]. vm_compute in Hlen. discriminate.
  - split; [apply H3; reflexivity | exact H2].
Defined.

(** A short session. The header announces raw audio; four raw frames
    arrive within two seconds. Nothing is played until three frames are
    buffered; then each arrival releases the oldest buffered frame. *)
Example raw_session_plays_in_order :
  let frame (b : byte) (t : Z) :=
    Receiver.mkEvent (audio_prefix x00 t 2 ++ [b; b]) (t + 5000)
      (Ok []) (Ok tt) 1 in
  ∃ config,
    Enhanced.parse_header (ext_header x01 48000 2 x00) = Ok (Some config)
    ∧ Receiver.setup_decoder true (λ sr ch, Ok (Receiver.OpusDecoder sr ch))
        config = (None, [])
    ∧ Receiver.run config None
        [frame x01 10000; frame x02 20000; frame x03 30000; frame x04 40000]
        (Receiver.init_state 0)
      = (Ok tt,
         Receiver.mkState 4 52 20000 4 0 0
           (JitterBuffer.mk (mkDeque 10 [[x03; x03]; [x04; x04]]))
           [[x01; x01]; [x02; x02]] []).
Proof. eexists. vm_compute. done. Qed.

(** ** Compressed frames *)

(** A datagram whose type byte is 1 is never taken for a repeated header:
    the magic starts with another byte. *)
Lemma compressed_frame_not_header_shaped ts sz payload :
  ¬ header_shaped 12 (audio_prefix x01 ts sz ++ payload).
Proof. intros [_ Hm]. cbn in Hm. discriminate. Qed.

(** C8 (as the code has it). A datagram with type byte 1 whose decode
    raises, in a session that has a decoder: the iteration returns normally,
    so the loop goes on with the next datagram and the error never ends the
    session. The frame is dropped: the jitter buffer, the audio stream, the
    session start and the report clock are as before the datagram, no frame
    is played and no report is printed in this iteration. The rest of the
    state is not as before: the datagram was counted and its latency
    recorded before the decode was tried (packet count and latency count
    one higher, cumulative bytes higher by its length, latency sum by its
    sample), and one warning was printed. *)
Theorem decode_error_drops_frame
    (config : Enhanced.Header) (d : Receiver.Decoder)
    (ev : Receiver.Event) (evs : list Receiver.Event) (st : Receiver.State)
    (ts sz : Z) (payload : bytes) (e : exn) :
  0 ≤ ts < 2 ^ 64 → 0 ≤ sz < 2 ^ 16 →
  Receiver.ev_data ev = audio_prefix x01 ts sz ++ payload →
  Receiver.ev_decode ev = Raise e →
  let st1 :=
    Receiver.mkState
      (Receiver.packet_count st + 1)
      (Receiver.bytes_received st + Z.of_nat (length (Receiver.ev_data ev)))
      (Receiver.total_latency_us st + (Receiver.ev_receive_time ev - ts))
      (Receiver.latency_count st + 1)
      (Receiver.start_time st) (Receiver.last_report st)
      (Receiver.jitter_buffer st) (Receiver.stream st)
      (Receiver.stdout st ++ [Receiver.OpusDecodeError e]) in
  Receiver.loop_body config (Some d) ev st = (Ok tt, st1)
  ∧ Receiver.run config (Some d) (ev :: evs) st
    = Receiver.run config (Some d) evs st1.
Proof.
  intros Hts Hsz Hdata Hdec st1.
  assert (Hbody : Receiver.loop_body config (Some d) ev st = (Ok tt, st1)).
  { rewrite (loop_body_accept _ _ _ _
               (Enhanced.mkAudioPacket (byte_val x01) ts sz
                  (take (Z.to_nat sz) payload))).
    2:{ rewrite Hdata. apply compressed_frame_not_header_shaped. }
    2:{ rewrite Hdata. by apply parse_audio_packet_encoded. }
    unfold Receiver.decode_and_buffer.
    rewrite decide_True by (split; [reflexivity | by eexists]).
    unfold mbind, M_bind, try_except, lift. rewrite Hdec. reflexivity. }
  split; [done|]. by rewrite run_cons, Hbody.
Qed.

Lemma decode_error_drops_frame_witness :
  let config := Enhanced.mkHeader 1 48000 2 1 "Opus" in
  let d := Receiver.OpusDecoder 48000 2 in
  let bad := Receiver.mkEvent (audio_prefix x01 1000 3 ++ [xde; xad; xbf])
               6000 (Raise DecodeError) (Ok tt) 1 in
  let st := Receiver.init_state 0 in
  Receiver.loop_body config (Some d) bad st
  = (Ok tt,
     Receiver.mkState 1 14 5000 1 0 0
       (JitterBuffer.init JITTER_BUFFER_SIZE) []
       [Receiver.OpusDecodeError DecodeError]).
Proof.
  intros config d bad st.
  apply (decode_error_drops_frame config d bad [] st 1000 3 [xde; xad; xbf]
           DecodeError); [lia | lia | reflexivity | reflexivity].
Defined.

(** C8 as stated fails: a decode error does not leave the session state
    unchanged apart from the skipped frame. After the iteration of a
    14-byte compressed frame whose decode raises, in a fresh session, the
    jitter buffer and the audio stream are as before, but the packet count
    is 1, the cumulative bytes 14, the latency sum 5000 and the latency
    count 1, and a warning has been printed. *)
Lemma decode_error_changes_accumulators :
  let config := Enhanced.mkHeader 1 48000 2 1 "Opus" in
  let d := Receiver.OpusDecoder 48000 2 in
  let bad := Receiver.mkEvent (audio_prefix x01 1000 3 ++ [xde; xad; xbf])
               6000 (Raise DecodeError) (Ok tt) 1 in
  let st := Receiver.init_state 0 in
  let r := Receiver.loop_body config (Some d) bad st in
  r.1 = Ok tt
  ∧ Receiver.jitter_buffer r.2 = Receiver.jitter_buffer st
  ∧ Receiver.stream r.2 = Receiver.stream st
  ∧ (Receiver.packet_count st = 0 ∧ Receiver.packet_count r.2 = 1)
  ∧ (Receiver.bytes_received st = 0 ∧ Receiver.bytes_received r.2 = 14)
  ∧ (Receiver.total_latency_us st = 0 ∧ Receiver.total_latency_us r.2 = 5000)
  ∧ (Receiver.latency_count st = 0 ∧ Receiver.latency_count r.2 = 1)
  ∧ (Receiver.stdout st = []
     ∧ Receiver.stdout r.2 = [Receiver.OpusDecodeError DecodeError])
  ∧ r.2 ≠ st.
Proof. vm_compute. repeat split. discriminate. Qed.

(** Without a decoder, every datagram that parses as an audio frame has its
    payload appended to the jitter buffer, whatever its type byte says. *)
Lemma undecoded_payload_is_buffered ev p st :
  Receiver.decode_and_buffer None ev p st
  = (Ok true,
     Receiver.set_jitter_buffer
       (JitterBuffer.add (Receiver.jitter_buffer st) (Enhanced.data p)) st).
Proof.
  unfold Receiver.decode_and_buffer.
  rewrite decide_False; [done|]. by intros [_ [? ?]].
Qed.

(** C2 fails on the code. A 12-byte header announces compression; the Opus
    library is missing, so the session has no decoder and one warning is
    printed. The payload of a datagram with type byte 1 is then appended to
    the jitter buffer undecoded, and with the third such datagram the first
    payload is written to the audio stream. *)
Lemma compressed_payload_buffered_without_decoder :
  let header := ext_header x01 48000 2 x01 in
  let config := Enhanced.mkHeader 1 48000 2 1 "Opus" in
  let new_decoder := λ sr ch, Ok (Receiver.OpusDecoder sr ch) in
  let frame (b : byte) :=
    Receiver.mkEvent (audio_prefix x01 1000 3 ++ [b; xad; xbf])
      6000 (Ok []) (Ok tt) 1 in
  let st := Receiver.init_state 0 in
  Enhanced.parse_header header = Ok (Some config)
  ∧ Receiver.setup_decoder false new_decoder config
    = (None, [Receiver.OpusNotAvailable])
  ∧ Receiver.loop_body config None (frame x01) st
    = (Ok tt,
       Receiver.mkState 1 14 5000 1 0 0
         (JitterBuffer.mk (mkDeque 10 [[x01; xad; xbf]])) [] [])
  ∧ Receiver.run config None [frame x01; frame x02; frame x03] st
    = (Ok tt,
       Receiver.mkState 3 42 15000 3 0 0
         (JitterBuffer.mk (mkDeque 10 [[x02; xad; xbf]; [x03; xad; xbf]]))
         [[x01; xad; xbf]] []).
Proof. vm_compute. done. Qed.

(** ** Rounding to binary64 *)

Lemma pow2_pos k : (0 < 2 ^ k)%Q.
Proof. by apply Qpower_0_lt. Qed.

Lemma pow2_le a b : a ≤ b → (2 ^ a <= 2 ^ b)%Q.
Proof. intros. by apply Qpower_le_compat_l. Qed.

Lemma pow2_lt a b : a < b → (2 ^ a < 2 ^ b)%Q.
Proof. intros. by apply Qpower_lt_compat_l. Qed.

Lemma pow2_sub a b : (2 ^ (a - b) == 2 ^ a / 2 ^ b)%Q.
Proof. by apply Qpower_minus. Qed.

Lemma pow2_Z k : 0 ≤ k → (2 ^ k == inject_Z (2 ^ k))%Q.
Proof. intros. by rewrite Zpower_Qpower. Qed.

Lemma Qdiv_le_cross (p q n d : Q) :
  (0 < q)%Q → (0 < d)%Q → (p * d <= n * q)%Q → (p / q <= n / d)%Q.
Proof.
  intros Hq Hd H.
  apply Qle_shift_div_r; [done|].
  assert (E : (n / d * q == n * q / d)%Q) by (field; lra).
  rewrite E. by apply Qle_shift_div_l.
Qed.

Lemma Qdiv_lt_cross (p q n d : Q) :
  (0 < q)%Q → (0 < d)%Q → (n * q < p * d)%Q → (n / d < p / q)%Q.
Proof.
  intros Hq Hd H.
  apply Qlt_shift_div_l; [done|].
  assert (E : (n / d * q == n * q / d)%Q) by (field; lra).
  rewrite E. by apply Qlt_shift_div_r.
Qed.

Lemma ilog2_spec x :
  (0 < x)%Q → (2 ^ ilog2 x <= x)%Q ∧ (x < 2 ^ (ilog2 x + 1))%Q.
Proof.
  intros Hx. unfold ilog2.
  destruct x as [n d]. cbn [Qnum Qden].
  assert (Hn : 0 < n) by (unfold Qlt in Hx; cbn in Hx; lia).
  set (a := Z.log2 n). set (b := Z.log2 (Z.pos d)).
  assert (Ha : 0 ≤ a) by apply Z.log2_nonneg.
  assert (Hb : 0 ≤ b) by apply Z.log2_nonneg.
  destruct (Z.log2_spec n Hn) as [Ha1 Ha2]. fold a in Ha1, Ha2.
  destruct (Z.log2_spec (Z.pos d) ltac:(done)) as [Hb1 Hb2]. fold b in Hb1, Hb2.
  rewrite <- Z.add_1_r in Ha2, Hb2.
  assert (Hnd : (n # d == inject_Z n / inject_Z (Z.pos d))%Q)
    by apply Qmake_Qdiv.
  assert (HD : (0 < inject_Z (Z.pos d))%Q) by done.
  rewrite Zle_Qle in Ha1, Hb1. rewrite Zlt_Qlt in Ha2, Hb2.
  rewrite <- pow2_Z in Ha1, Ha2, Hb1, Hb2 by lia.
  pose proof (pow2_pos a). pose proof (pow2_pos b).
  pose proof (pow2_pos (a + 1)). pose proof (pow2_pos (b + 1)).
  assert (HA : (2 ^ (a - b - 1) <= n # d)%Q).
  { replace (a - b - 1) with (a - (b + 1)) by lia.
    rewrite pow2_sub, Hnd. apply Qdiv_le_cross; [done..|]. nra. }
  assert (HB : (n # d < 2 ^ (a - b + 1))%Q).
  { replace (a - b + 1) with (a + 1 - b) by lia.
    rewrite pow2_sub, Hnd. apply Qdiv_lt_cross; [done..|]. nra. }
  destruct (Qle_bool (2 ^ (a - b)) (n # d)) eqn:E.
  - apply Qle_bool_iff in E. done.
  - split; [done|]. replace (a - b - 1 + 1) with (a - b) by lia.
    apply Qnot_le_lt. intros Hle. apply Qle_bool_iff in Hle. congruence.
Qed.

Lemma ilog2_unique x k :
  (2 ^ k <= x)%Q → (x < 2 ^ (k + 1))%Q → ilog2 x = k.
Proof.
  intros H1 H2.
  assert (Hx : (0 < x)%Q) by (pose proof (pow2_pos k); lra).
  destruct (ilog2_spec x Hx) as [H3 H4].
  assert (ilog2 x < k + 1).
  { apply (Qpower_lt_compat_l_inv 2); [lra | done]. }
  assert (k < ilog2 x + 1).
  { apply (Qpower_lt_compat_l_inv 2); [lra | done]. }
  lia.
Qed.

Lemma ilog2_comp x y : (0 < x)%Q → (x == y)%Q → ilog2 x = ilog2 y.
Proof.
  intros Hx E. destruct (ilog2_spec x Hx). symmetry.
  apply ilog2_unique; by rewrite <- E.
Qed.

Lemma round_half_even_comp x y :
  (x == y)%Q → round_half_even x = round_half_even y.
Proof.
  intros E. unfold round_half_even.
  rewrite (Qfloor_comp _ _ E).
  assert (E' : (x - inject_Z (Qfloor y) == y - inject_Z (Qfloor y))%Q)
    by (by rewrite E).
  by rewrite (Qcompare_comp _ _ E' _ _ (Qeq_refl _)).
Qed.

Lemma fl_comp x y : (x == y)%Q → fl x = fl y.
Proof.
  intros E. unfold fl.
  assert (Hz : Qeq_bool x 0 = Qeq_bool y 0).
  { destruct (Qeq_bool y 0) eqn:Ey.
    - apply Qeq_bool_iff in Ey. apply Qeq_bool_iff. by rewrite E.
    - apply not_true_is_false. intros Ex. apply Qeq_bool_iff in Ex.
      rewrite E in Ex. apply Qeq_bool_iff in Ex. congruence. }
  rewrite Hz. destruct (Qeq_bool y 0) eqn:Ey; [done|].
  assert (Hy : ¬ (y == 0)%Q) by (intros H%Qeq_bool_iff; congruence).
  assert (Ha : (Qabs x == Qabs y)%Q) by (by rewrite E).
  assert (Hpos : (0 < Qabs x)%Q).
  { rewrite Ha. destruct (Qlt_le_dec 0 (Qabs y)) as [|Hle]; [done|].
    exfalso. apply Hy. pose proof (Qabs_nonneg y).
    apply Qabs_Qle_condition in Hle. lra. }
  rewrite (ilog2_comp _ _ Hpos Ha).
  assert (Hs : Qle_bool 0 x = Qle_bool 0 y).
  { destruct (Qle_bool 0 y) eqn:E0.
    - apply Qle_bool_iff in E0. apply Qle_bool_iff. by rewrite E.
    - apply not_true_is_false. intros Ex. apply Qle_bool_iff in Ex.
      rewrite E in Ex. apply Qle_bool_iff in Ex. congruence. }
  rewrite Hs.
  rewrite (round_half_even_comp (Qabs x / _)
             (Qabs y / 2 ^ Z.max (ilog2 (Qabs y) - 52) (-1074)))
    by (by rewrite Ha).
  done.
Qed.

Lemma round_half_even_floor x : Qfloor x ≤ round_half_even x.
Proof.
  unfold round_half_even.
  destruct (_ ?= _)%Q; [destruct (Z.even _)|..]; lia.
Qed.

(** Rounding does not cross a power of two of the normal range. *)
Lemma fl_lower k x : -1022 ≤ k → (2 ^ k <= x)%Q → (2 ^ k <= fl x)%Q.
Proof.
  intros Hk Hx. pose proof (pow2_pos k) as Hpk.
  unfold fl.
  destruct (Qeq_bool x 0) eqn:Ez.
  { apply Qeq_bool_iff in Ez. lra. }
  assert (Hs : Qle_bool 0 x = true) by (apply Qle_bool_iff; lra).
  rewrite Hs.
  assert (Ea : (Qabs x == x)%Q) by (apply Qabs_pos; lra).
  assert (Hpos : (0 < Qabs x)%Q) by lra.
  destruct (ilog2_spec _ Hpos) as [H1 H2].
  set (K := ilog2 (Qabs x)) in *.
  assert (HkK : k ≤ K).
  { assert (k < K + 1); [|lia].
    apply (Qpower_lt_compat_l_inv 2); [lra | done]. }
  rewrite Z.max_l by lia.
  set (m := round_half_even _).
  assert (Hm : 2 ^ 52 ≤ m).
  { etrans; [|apply round_half_even_floor].
    rewrite <- (Qfloor_Z (2 ^ 52)). apply Qfloor_resp_le.
    apply Qle_shift_div_l; [apply pow2_pos|].
    rewrite <- pow2_Z by lia.
    assert (E : (2 ^ 52 * 2 ^ (K - 52) == 2 ^ K)%Q).
    { rewrite <- Qpower_plus by done.
      by replace (52 + (K - 52)) with K by lia. }
    by rewrite E. }
  rewrite Zle_Qle in Hm. rewrite <- pow2_Z in Hm by lia.
  apply Qle_trans with (2 ^ K)%Q; [by apply pow2_le|].
  assert (E : (2 ^ K == 2 ^ 52 * 2 ^ (K - 52))%Q).
  { rewrite <- Qpower_plus by done.
    by replace (52 + (K - 52)) with K by lia. }
  rewrite E. apply Qmult_le_compat_r; [done|]. apply Qlt_le_weak, pow2_pos.
Qed.

Lemma fl_upper k x : -1022 ≤ k → (x <= - 2 ^ k)%Q → (fl x <= - 2 ^ k)%Q.
Proof.
  intros Hk Hx. pose proof (pow2_pos k) as Hpk.
  pose proof (fl_lower k (- x) Hk ltac:(lra)) as H.
  unfold fl in *.
  destruct (Qeq_bool x 0) eqn:Ez.
  { apply Qeq_bool_iff in Ez. lra. }
  destruct (Qeq_bool (- x) 0) eqn:Ez'.
  { apply Qeq_bool_iff in Ez'. lra. }
  assert (Hs : Qle_bool 0 x = false).
  { apply not_true_is_false. intros E%Qle_bool_iff. lra. }
  assert (Hs' : Qle_bool 0 (- x) = true) by (apply Qle_bool_iff; lra).
  rewrite Hs. rewrite Hs' in H.
  assert (Ea : (Qabs (- x) == Qabs x)%Q) by apply Qabs_opp.
  assert (Hpos : (0 < Qabs (- x))%Q).
  { rewrite Qabs_pos; lra. }
  rewrite (ilog2_comp _ _ Hpos Ea) in H.
  rewrite (round_half_even_comp _
             (Qabs x / 2 ^ Z.max (ilog2 (Qabs x) - 52) (-1074))) in H
    by (by rewrite Ea).
  lra.
Qed.

Lemma fl_zero x : (x == 0)%Q → fl x = 0%Q.
Proof. intros E. unfold fl. by rewrite (proj2 (Qeq_bool_iff _ _) E). Qed.

(** A quantity of magnitude 1 or more does not round to zero. *)
Lemma fl_nonzero x : (1 <= x)%Q ∨ (x <= -1)%Q → Qeq_bool (fl x) 0 = false.
Proof.
  intros H. apply not_true_is_false. intros E%Qeq_bool_iff.
  destruct H as [H|H].
  - pose proof (fl_lower 0 x ltac:(lia) H). change (2 ^ 0)%Q with 1%Q in *. lra.
  - pose proof (fl_upper 0 x ltac:(lia) H). change (2 ^ 0)%Q with 1%Q in *. lra.
Qed.

Lemma round_half_even_Z n : round_half_even (inject_Z n) = n.
Proof.
  unfold round_half_even. rewrite Qfloor_Z.
  assert (E : (inject_Z n - inject_Z n == 0)%Q) by ring.
  by rewrite (Qcompare_comp _ _ E _ _ (Qeq_refl _)).
Qed.

Lemma pow2_add a b : (2 ^ (a + b) == 2 ^ a * 2 ^ b)%Q.
Proof. by apply Qpower_plus. Qed.

(** A number with a significand of at most 53 bits and an exponent in
    range is a binary64 number: rounding returns it. *)
Lemma fl_exact j e :
  0 < j < 2 ^ 53 → -1074 ≤ e →
  (fl (inject_Z j * 2 ^ e) == inject_Z j * 2 ^ e)%Q.
Proof.
  intros Hj He. pose proof (pow2_pos e) as Hpe.
  set (x := (inject_Z j * 2 ^ e)%Q).
  assert (Hjq : (0 < inject_Z j)%Q) by (rewrite (Zlt_Qlt 0) in Hj; apply Hj).
  assert (Hx : (0 < x)%Q) by (unfold x; nra).
  unfold fl.
  destruct (Qeq_bool x 0) eqn:Ez; [apply Qeq_bool_iff in Ez; lra|].
  rewrite (proj2 (Qle_bool_iff 0 x)) by lra.
  assert (Ea : (Qabs x == x)%Q) by (apply Qabs_pos; lra).
  destruct (Z.log2_spec j ltac:(lia)) as [L1 L2].
  rewrite <- Z.add_1_r in L2.
  assert (HL : 0 ≤ Z.log2 j < 53).
  { split; [apply Z.log2_nonneg|]. apply Z.log2_lt_pow2; lia. }
  assert (HK : ilog2 (Qabs x) = Z.log2 j + e).
  { apply ilog2_unique; rewrite Ea; unfold x.
    - rewrite pow2_add, (pow2_Z (Z.log2 j)) by lia.
      apply Qmult_le_compat_r; [|lra]. by rewrite <- Zle_Qle.
    - replace (Z.log2 j + e + 1) with (Z.log2 j + 1 + e) by lia.
      rewrite pow2_add, (pow2_Z (Z.log2 j + 1)) by lia.
      apply Qmult_lt_compat_r; [done|]. by rewrite <- Zlt_Qlt. }
  rewrite HK.
  set (E := Z.max (Z.log2 j + e - 52) (-1074)).
  assert (HE : E ≤ e) by lia.
  assert (Hscaled : (Qabs x / 2 ^ E == inject_Z (j * 2 ^ (e - E)))%Q).
  { rewrite Ea. unfold x. rewrite inject_Z_mult, <- (pow2_Z (e - E)) by lia.
    rewrite pow2_sub. field. pose proof (pow2_pos E). lra. }
  rewrite (round_half_even_comp _ _ Hscaled), round_half_even_Z.
  rewrite inject_Z_mult, <- (pow2_Z (e - E)) by lia.
  unfold x. rewrite pow2_sub. field. pose proof (pow2_pos E). lra.
Qed.

(** Rounding keeps the sign. *)
Lemma fl_nonpos x : (x <= 0)%Q → (fl x <= 0)%Q.
Proof.
  intros Hx. unfold fl.
  destruct (Qeq_bool x 0) eqn:Ez; [lra|].
  assert (Hs : Qle_bool 0 x = false).
  { apply not_true_is_false. intros E%Qle_bool_iff.
    assert (x == 0)%Q as E0 by lra. apply Qeq_bool_iff in E0. congruence. }
  rewrite Hs.
  set (e := Z.max _ _). set (m := round_half_even _).
  assert (Hm : 0 ≤ m).
  { etrans; [|apply round_half_even_floor].
    rewrite <- (Qfloor_Z 0). apply Qfloor_resp_le.
    apply Qle_shift_div_l; [apply pow2_pos|].
    pose proof (Qabs_nonneg x). change (inject_Z 0) with 0%Q. lra. }
  rewrite Zle_Qle in Hm. change (inject_Z 0) with 0%Q in Hm.
  pose proof (pow2_pos e). nra.
Qed.

(** A binary64 number of magnitude 1 or more is a multiple of [2^-52]. *)
Lemma binary64_grid x :
  (1 <= x)%Q → (fl x == x)%Q → ∃ n, (x == inject_Z n * 2 ^ (-52))%Q.
Proof.
  intros Hx Hfl. unfold fl in Hfl.
  destruct (Qeq_bool x 0) eqn:Ez; [apply Qeq_bool_iff in Ez; lra|].
  rewrite (proj2 (Qle_bool_iff 0 x)) in Hfl by lra.
  assert (Ea : (Qabs x == x)%Q) by (apply Qabs_pos; lra).
  destruct (ilog2_spec (Qabs x) ltac:(lra)) as [_ H2].
  set (K := ilog2 (Qabs x)) in *.
  assert (HK : 0 ≤ K).
  { assert (0 < K + 1); [|lia].
    apply (Qpower_lt_compat_l_inv 2); [|done].
    change (2 ^ 0)%Q with 1%Q. lra. }
  rewrite Z.max_l in Hfl by lia.
  set (m := round_half_even _) in Hfl.
  exists (m * 2 ^ K). rewrite <- Hfl.
  rewrite inject_Z_mult, <- (pow2_Z K) by lia.
  replace (K - 52) with (K + -52) by lia. rewrite pow2_add. ring.
Qed.

(** For clock readings of 1 and more, the test [now - last >= 2.0] on the
    rounded difference is the test on the exact difference. *)
Lemma report_test_exact now last :
  (1 <= now)%Q → (1 <= last)%Q → (fl now == now)%Q → (fl last == last)%Q →
  Qle_bool 2 (fsub now last) = Qle_bool 2 (now - last).
Proof.
  intros Hn Hl En El. unfold fsub.
  destruct (Qle_bool 2 (now - last)) eqn:E.
  - apply Qle_bool_iff in E. apply Qle_bool_iff.
    apply (fl_lower 1); [lia | exact E].
  - apply not_true_is_false. intros E'%Qle_bool_iff.
    assert (Hd : (now - last < 2)%Q).
    { apply Qnot_le_lt. intros H%Qle_bool_iff. congruence. }
    destruct (Qlt_le_dec 0 (now - last)) as [Hpos|Hneg].
    2:{ pose proof (fl_nonpos _ Hneg). lra. }
    destruct (binary64_grid _ Hn En) as [n Hn'].
    destruct (binary64_grid _ Hl El) as [l Hl'].
    assert (Hgrid : (now - last == inject_Z (n - l) * 2 ^ (-52))%Q).
    { rewrite Hn', Hl'. unfold Z.sub.
      rewrite inject_Z_plus, inject_Z_opp. ring. }
    assert (Hj : 0 < n - l < 2 ^ 53).
    { rewrite Hgrid in Hpos, Hd.
      split.
      - rewrite Zlt_Qlt. change (inject_Z 0) with 0%Q.
        pose proof (pow2_pos (-52)). nra.
      - rewrite Zlt_Qlt, <- (pow2_Z 53) by lia.
        assert (E2 : (2 ^ 53 == 2 * / 2 ^ (-52))%Q) by (by vm_compute).
        rewrite E2. pose proof (pow2_pos (-52)) as Hp.
        apply Qlt_shift_div_l in Hd; [|done].
        unfold Qdiv in Hd. lra. }
    pose proof (fl_exact (n - l) (-52) Hj ltac:(lia)) as Hex.
    rewrite (fl_comp _ _ Hgrid), Hex, <- Hgrid in E'. lra.
Qed.

Lemma of_int_eq_bool_0 n : Qeq_bool (of_int n) 0 = true ↔ n = 0.
Proof.
  unfold of_int. split.
  - intros E. destruct (decide (n = 0)) as [|Hn]; [done|].
    rewrite fl_nonzero in E; [done|].
    destruct (decide (1 ≤ n)) as [H|H].
    + left. rewrite Zle_Qle in H. exact H.
    + right. assert (H' : n ≤ -1) by lia. rewrite Zle_Qle in H'. exact H'.
  - intros ->. reflexivity.
Qed.

(** [elapsed * 1000] is not zero when the exact difference of the two
    clock readings is at least [2^k]. *)
Lemma elapsed_ms_nonzero k now start :
  -1022 ≤ k → (2 ^ k <= now - start)%Q →
  Qeq_bool (fmul (fsub now start) 1000) 0 = false.
Proof.
  intros Hk Hx. pose proof (pow2_pos k) as Hpk.
  pose proof (fl_lower k _ Hk Hx) as H1. fold (fsub now start) in H1.
  assert (H2 : (2 ^ k <= fsub now start * 1000)%Q) by lra.
  pose proof (fl_lower k _ Hk H2) as H3.
  fold (fmul (fsub now start) 1000) in H3.
  apply not_true_is_false. intros E%Qeq_bool_iff. lra.
Qed.

Lemma elapsed_ms_zero now start :
  (now == start)%Q → Qeq_bool (fmul (fsub now start) 1000) 0 = true.
Proof.
  intros E. unfold fsub. rewrite (fl_zero (now - start)) by lra. reflexivity.
Qed.

(** The throughput expression raises on a zero divisor and otherwise
    returns the binary64 value of the formula. *)
Lemma throughput_kbps_cases bytes start now :
  throughput_kbps bytes (fsub now start)
  = if Qeq_bool (fmul (fsub now start) 1000) 0
    then Raise ZeroDivisionError
    else Ok (kbps_of bytes start now).
Proof. reflexivity. Qed.

Lemma kbps_of_comp bytes start now start' now' :
  (now - start == now' - start')%Q →
  kbps_of bytes start now = kbps_of bytes start' now'.
Proof. intros E. unfold kbps_of, fsub. by rewrite (fl_comp _ _ E). Qed.

(** [fl] against the binary64 arithmetic of Rocq's kernel, which is the
    hardware's: quotients that are not representable, ties, an integer
    beyond [2^53], subnormal results, and the operations of a report. *)
Module Binary64Examples.
Import PrimFloat.
Local Open Scope float_scope.

Example fl_quotients :
  binary64_is (1 / 3) (fl (1 # 3)) = true
  ∧ binary64_is (2 / 3) (fl (2 # 3)) = true
  ∧ binary64_is (- (1 / 10)) (fl (- (1 # 10))) = true
  ∧ binary64_is (123456789 / 1000) (fl (123456789 # 1000)) = true.
Proof. vm_compute. done. Qed.

Example fl_ties_to_even :
  binary64_is (9007199254740992 + 1) (of_int 9007199254740993) = true
  ∧ binary64_is 9007199254740996 (of_int 9007199254740995) = true.
Proof. vm_compute. done. Qed.

Example fl_subnormal :
  binary64_is 0 (fl (2 ^ (-1074) * (1 # 2))) = true
  ∧ binary64_is 0x1p-1074 (fl (2 ^ (-1074) * (3 # 4))) = true
  ∧ binary64_is 0x1p-1073 (fl (2 ^ (-1074) * (3 # 2))) = true
  ∧ binary64_is 0x1p-1073 (fl (2 ^ (-1074) * (5 # 2))) = true
  ∧ binary64_is (0x1p-1030 / 3) (fl (2 ^ (-1030) * (1 # 3))) = true.
Proof. vm_compute. done. Qed.

(** Quotients of two [int]s as CPython computes them ([n / d], printed
    with [float.hex]): small and large operands, and ties. *)
Example fl_int_true_division :
  forallb (λ '(n, d, f), binary64_is f (fdiv (inject_Z n) (inject_Z d)))
    [((-14149)%Z, 190533%Z, (- 0x1.302b5c529ee01p-4)%float);
     (527280%Z, 606447%Z, 0x1.bd298e822844dp-1%float);
     ((-362988)%Z, 209927%Z, (- 0x1.baa74dde8e05ap+0)%float);
     (860799%Z, 758661%Z, 0x1.227710dc2a4d7p+0%float);
     ((-139982)%Z, 794000%Z, (- 0x1.690fd7a36eb5fp-3)%float);
     (502849%Z, 795477%Z, 0x1.43a7390e6c72ep-1%float);
     ((-443791)%Z, 559081%Z, (- 0x1.966b32200f1b6p-1)%float);
     ((-485849)%Z, 667050%Z, (- 0x1.74eae81ed7f4bp-1)%float);
     ((-1032139850451023588255698474508652029575)%Z,
      5231816267%Z,
      (- 0x1.3eb9a8ebb0dabp+97)%float);
     ((-8462144638327265408393008121736654712732)%Z,
      9476337797%Z,
      (- 0x1.68ab94a9b2ac1p+99)%float);
     (5627355621173105601234415474065250306238%Z,
      2802554491%Z,
      0x1.957ff5f9c7d7bp+100%float);
     ((-938732756671224220022311116548631633904)%Z,
      2000945179%Z,
      (- 0x1.7af8d7cb37034p+98)%float);
     ((-2934781471142636148027374269688584446833)%Z,
      5971318955%Z,
      (- 0x1.8d03998e4a2adp+98)%float);
     ((-701620055699147640490211685048216364974)%Z,
      6074732613%Z,
      (- 0x1.7531c9585bdcap+96)%float);
     ((-857361233285563740637855446528261093952)%Z,
      983990099%Z,
      (- 0x1.5feb6db9fcb40p+99)%float);
     ((-9400450377156073305618893600785665532930)%Z,
      6466675908%Z,
      (- 0x1.2591473b00da2p+100)%float);
     (74734%Z,
      746944262504356277432247413671445538016025898793496315772148%Z,
      0x1.3a05787f547f1p-183%float);
     (47935%Z,
      332212613881591484941104864873094307451424023843309039528723%Z,
      0x1.c4dca58a74345p-183%float);
     (76156%Z,
      7367672010606342497897971297278644604148844117477925536587%Z,
      0x1.fae69f9a917a0p-177%float);
     (19748%Z,
      314366286639786485483766527757058938325412624576781027495997%Z,
      0x1.8a5157b2d1040p-184%float);
     (37256%Z,
      844157484499010443660568884658653632969592916575329728972511%Z,
      0x1.150883e94b812p-184%float);
     (57150%Z,
      483781551952587740613588787964102578203530542085091989074996%Z,
      0x1.72c3440e72699p-183%float);
     (5136037754893810527%Z, 9727228846289308138%Z, 0x1.0e56d64178eb4p-1%float);
     (14468095630931157714%Z, 5902004124792524155%Z, 0x1.39c70bcfa6558p+1%float);
     (1353397811766904274%Z, 17041235927318208280%Z, 0x1.454cd9d61f2f3p-4%float);
     (9299745870931725533%Z, 13500073299937758017%Z, 0x1.60b3163bbf300p-1%float);
     (1600961326706534987%Z, 10330788419258759764%Z, 0x1.3d60dce7d8845p-3%float);
     (12881658373985421002%Z, 2266448607104102164%Z, 0x1.6bc09dbcf9dedp+2%float);
     (98322248753251944%Z, 2%Z, 0x1.5d4f907674866p+55%float);
     (1758304371804888366449688576%Z, 2%Z, 0x1.6b9bdbbf5d7ccp+89%float);
     (35453729393555220480%Z, 2%Z, 0x1.ec04f30aa1af2p+63%float);
     (1921205734264604327936%Z, 2%Z, 0x1.a098579151550p+69%float);
     (18893694646306541690698072064%Z, 2%Z, 0x1.e863fbb8b8a86p+92%float);
     (433569916140197829935104%Z, 2%Z, 0x1.6f3f7d2f26922p+77%float)]
  = true.
Proof. vm_compute. reflexivity. Qed.

(** 13 bytes over 8 seconds, and 1,000,000 bytes over 8 seconds. *)
Example kbps_of_binary64 :
  binary64_is (104 / ((8 - 0) * 1000)) (kbps_of 13 0 8) = true
  ∧ (kbps_of 13 0 8 == 7493989779944505 # 576460752303423488)%Q
  ∧ binary64_is (8000000 / ((1700000008.5 - 1700000000.5) * 1000))
      (kbps_of 1000000 (3400000001 # 2) (3400000017 # 2)) = true
  ∧ binary64_is 1000 (kbps_of 1000000 (3400000001 # 2) (3400000017 # 2))
    = true.
Proof. vm_compute. done. Qed.

Example ratio_of_binary64 :
  binary64_is (104 / (8 * 1000) * 1000 / 3072000 * 100)
    (ratio_of (Enhanced.mkHeader 1 48000 2 1 "Opus") (kbps_of 13 0 8)) = true
  ∧ binary64_is (5000 / 3 / 1000) (average_latency_ms 5000 3) = true.
Proof. vm_compute. done. Qed.
End Binary64Examples.

(** ** Throughput *)

Section ReportFacts.
Import Enhanced Receiver.
Variable config : Header.
Variable decoder : option Decoder.

(** A state update that touches neither accumulators, clock nor output. *)
Lemma quiet_silent st st' :
  same_counters st st' → last_report st' = last_report st →
  stdout st' = stdout st → quiet st st'.
Proof.
  intros Hc Hl Ho. split; [done|]. split; [done|].
  exists []. by rewrite (right_id_L [] (++)).
Qed.

Lemma decode_and_buffer_quiet ev p :
  preserves quiet (decode_and_buffer decoder ev p).
Proof.
  unfold decode_and_buffer.
  preserves_steps; apply preserves_modify; intros st;
    first [ by apply quiet_silent | idtac ].
  split; [done|]. split; [done|].
  eexists [_]. split; [done|]. repeat constructor. by intros [].
Qed.

Lemma play_quiet ev : preserves quiet (play ev).
Proof.
  unfold play.
  preserves_steps; apply preserves_modify; intros st; by apply quiet_silent.
Qed.

(** What the periodic report does: nothing, or an exception before
    anything is printed, or one report line and a new report time. *)
Lemma report_cases ev st :
  (start_time st <= last_report st)%Q →
  let st' := (report config ev st).2 in
  same_counters st st'
  ∧ (start_time st' <= last_report st')%Q
  ∧ (stdout st' = stdout st
     ∨ ∃ kbps lat fill ratio,
         stdout st'
         = stdout st ++ [Report (packet_count st) kbps lat fill ratio]
         ∧ kbps = kbps_of (bytes_received st) (start_time st) (ev_now ev)
         ∧ (2 <= ev_now ev - start_time st)%Q).
Proof.
  intros Hclock. cbn zeta.
  split; [apply report_counters|].
  unfold report.
  unfold mbind, M_bind, mret, M_ret, gets, lift, print, set_last_report,
    modify.
  destruct (Qle_bool 2 (ev_now ev - last_report st)) eqn:Hdue;
    [|cbn [snd]; split; [done | by left]].
  apply Qle_bool_iff in Hdue.
  unfold id. rewrite throughput_kbps_cases.
  destruct (Qeq_bool (fmul (fsub (ev_now ev) (start_time st)) 1000) 0);
    [cbn [snd]; split; [done | by left]|].
  destruct (decide (compression config = 1)).
  - unfold true_div. destruct (Qeq_bool (of_int _) 0); cbn;
      [split; [done | by left]|].
    split; [lra|]. right. do 4 eexists. split; [done|]. split; [done|lra].
  - cbn. split; [lra|]. right. do 4 eexists.
    split; [done|]. split; [done|lra].
Qed.

(** One iteration, as far as throughput reports are concerned. *)
Lemma loop_body_report ev st :
  (start_time st <= last_report st)%Q →
  let st' := (loop_body config decoder ev st).2 in
  start_time st' = start_time st
  ∧ bytes_received st'
    = bytes_received st
      + (if counted (ev_data ev)
         then Z.of_nat (length (ev_data ev)) else 0)
  ∧ (start_time st' <= last_report st')%Q
  ∧ ∃ ls, stdout st' = stdout st ++ ls
      ∧ ∀ pk kbps lat fill ratio,
          Report pk kbps lat fill ratio ∈ ls →
          kbps = kbps_of (bytes_received st') (start_time st) (ev_now ev)
          ∧ (2 <= ev_now ev - start_time st)%Q.
Proof.
  intros Hclock st'.
  assert (Hnone : ∀ ls : list line, Forall (λ l, ¬ is_report l) ls →
            ∀ pk kbps lat fill ratio,
              Report pk kbps lat fill ratio ∉ ls).
  { intros ls Hls pk kbps lat fill ratio Hin.
    by apply (proj1 (Forall_forall _ _) Hls _ Hin). }
  destruct (loop_body_counters config decoder ev st)
    as [[Hskip Hst]|(p & Hh & Hp & _ & Hbytes & _ & _ & Hstart)];
    fold st' in Hst || fold st' in Hbytes, Hstart.
  { rewrite Hst, counted_false by done.
    split; [done|]. split; [lia|]. split; [done|].
    exists []. split; [by rewrite (right_id_L [] (++))|].
    intros ????? Hin. by apply elem_of_nil in Hin. }
  rewrite (counted_true _ p) by done.
  split; [done|]. split; [done|].
  subst st'. rewrite (loop_body_accept _ _ _ _ p) in * by done.
  set (st0 := record_latency _ _) in *.
  assert (Hclock0 : (start_time st0 <= last_report st0)%Q) by done.
  assert (Hout0 : stdout st0 = stdout st) by done.
  assert (Hstart0 : start_time st0 = start_time st) by done.
  clearbody st0. unfold mbind, M_bind, mret, M_ret in *.
  pose proof (decode_and_buffer_quiet ev p st0) as Hq1.
  destruct (decode_and_buffer decoder ev p st0) as [[[|]|e] st1];
    cbn [snd] in Hq1.
  2,3: destruct Hq1 as ((_ & _ & _ & _ & Hs1) & Hl1 & ls1 & Ho1 & Hf1);
    cbn [snd] in *;
    (split; [by rewrite Hs1, Hl1|]);
    exists ls1; (split; [congruence|]);
    intros ????? Hin; by apply Hnone in Hin.
  pose proof (play_quiet ev st1) as Hq2.
  destruct (play ev st1) as [[[]|e] st2]; cbn [snd] in Hq2.
  2:{ destruct (transitivity Hq1 Hq2)
        as ((_ & _ & _ & _ & Hs2) & Hl2 & ls2 & Ho2 & Hf2).
      cbn [snd] in *.
      split; [by rewrite Hs2, Hl2|].
      exists ls2. split; [congruence|].
      intros ????? Hin. by apply Hnone in Hin. }
  destruct (transitivity Hq1 Hq2)
    as ((Hpk2 & Hb2 & _ & _ & Hs2) & Hl2 & ls2 & Ho2 & Hf2).
  destruct (report_cases ev st2) as (Hc3 & Hclock3 & Hrep);
    [by rewrite Hs2, Hl2|].
  destruct Hc3 as (_ & Hb3 & _ & _ & Hs3).
  split; [done|].
  destruct Hrep as [Hsame|(kbps & lat & fill & ratio & Ho3 & Hk & Hel)].
  - exists ls2. split; [congruence|].
    intros ????? Hin. by apply Hnone in Hin.
  - exists (ls2 ++ [Report (packet_count st2) kbps lat fill ratio]).
    split; [by rewrite Ho3, Ho2, Hout0, (assoc_L (++))|].
    intros pk' kbps' lat' fill' ratio' Hin.
    apply elem_of_app in Hin as [Hin|Hin]; [by apply Hnone in Hin|].
    apply list_elem_of_singleton in Hin. injection Hin as -> -> -> -> ->.
    rewrite Hb3. rewrite <- Hstart0, <- Hs2. done.
Qed.

Lemma received_bytes_cons ev evs :
  received_bytes (ev :: evs)
  = (if counted (ev_data ev) then Z.of_nat (length (ev_data ev)) else 0)
    + received_bytes evs.
Proof. reflexivity. Qed.

(** Every report of a run is computed from all bytes counted since the
    run's first state and from the time elapsed since the session start. *)
Lemma run_reports evs : ∀ st,
  (start_time st <= last_report st)%Q →
  ∀ pk kbps lat fill ratio,
    Report pk kbps lat fill ratio ∈ stdout (run config decoder evs st).2 →
    Report pk kbps lat fill ratio ∈ stdout st
    ∨ ∃ pre ev post,
        evs = pre ++ ev :: post
        ∧ kbps = kbps_of (bytes_received st + received_bytes (pre ++ [ev]))
                   (start_time st) (ev_now ev)
        ∧ (2 <= ev_now ev - start_time st)%Q.
Proof.
  induction evs as [|ev evs IH]; intros st Hclock pk kbps lat fill ratio Hin;
    [by left|].
  rewrite run_cons in Hin.
  destruct (loop_body_report ev st Hclock)
    as (Hs & Hb & Hclock1 & ls & Ho & Hls).
  assert (Hhere : Report pk kbps lat fill ratio
                    ∈ stdout (loop_body config decoder ev st).2 →
            Report pk kbps lat fill ratio ∈ stdout st
            ∨ ∃ pre ev0 post,
                ev :: evs = pre ++ ev0 :: post
                ∧ kbps = kbps_of (bytes_received st
                                  + received_bytes (pre ++ [ev0]))
                           (start_time st) (ev_now ev0)
                ∧ (2 <= ev_now ev0 - start_time st)%Q).
  { rewrite Ho. intros [?|Hnew]%elem_of_app; [by left|right].
    exists [], ev, evs. split; [done|].
    destruct (Hls _ _ _ _ _ Hnew) as [-> ?]. split; [|done].
    cbn [app]. rewrite received_bytes_cons, Hb. cbn [received_bytes foldr].
    f_equal. lia. }
  destruct (loop_body config decoder ev st) as [[[]|e] st1];
    cbn [snd] in *; [|by apply Hhere].
  destruct (IH st1 Hclock1 _ _ _ _ _ Hin)
    as [Hold|(pre & ev0 & post & -> & -> & Hel)]; [by apply Hhere|].
  right. exists (ev :: pre), ev0, post. split; [done|].
  rewrite Hs in *. split; [|done].
  cbn [app]. rewrite received_bytes_cons, Hb. f_equal. lia.
Qed.
(** A report that is due is printed, unless the compression figure divides
    by zero. *)
Lemma report_due ev st :
  (start_time st <= last_report st)%Q →
  (2 <= ev_now ev - last_report st)%Q →
  compression config ≠ 1 ∨ sample_rate config * channels config ≠ 0 →
  let kbps := kbps_of (bytes_received st) (start_time st) (ev_now ev) in
  report config ev st
  = (Ok tt,
     mkState (packet_count st) (bytes_received st) (total_latency_us st)
       (latency_count st) (start_time st) (ev_now ev) (jitter_buffer st)
       (stream st)
       (stdout st
          ++ [Report (packet_count st) kbps
                (average_latency_ms (total_latency_us st) (latency_count st))
                (JitterBuffer.size (jitter_buffer st))
                (ratio_of config kbps)])).
Proof.
  intros Hclock Hdue Hcfg. cbn zeta.
  unfold report, average_latency_ms, ratio_of.
  unfold mbind, M_bind, mret, M_ret, gets, lift, print, set_last_report,
    modify, id.
  rewrite (proj2 (Qle_bool_iff _ _) Hdue).
  rewrite throughput_kbps_cases.
  rewrite (elapsed_ms_nonzero 1) by (done || (change (2 ^ 1)%Q with 2%Q; lra)).
  destruct (decide (compression config = 1)) as [Hc|Hc]; [|done].
  unfold true_div.
  destruct (Qeq_bool (of_int _) 0) eqn:Hz; [|done].
  apply of_int_eq_bool_0 in Hz. destruct Hcfg as [?|?]; [done | lia].
Qed.

Lemma decode_and_buffer_pushed ev p st f :
  frame_of decoder ev p = Some f →
  decode_and_buffer decoder ev p st
  = (Ok true,
     set_jitter_buffer (JitterBuffer.add (jitter_buffer st) f) st).
Proof.
  unfold frame_of, decode_and_buffer. case_decide.
  - unfold try_except, mbind, M_bind, lift.
    destruct (ev_decode ev); [|done]. by intros [= ->].
  - by intros [= ->].
Qed.

Lemma play_same_session ev : preserves same_session (play ev).
Proof.
  unfold play, jitter_get, stream_write.
  preserves_steps; by apply preserves_modify.
Qed.

Lemma play_ok ev st : ev_write ev = Ok tt → (play ev st).1 = Ok tt.
Proof.
  intros Hw. unfold play, jitter_get, stream_write.
  unfold mbind, M_bind, mret, M_ret, gets, lift, modify.
  destruct (decide (JitterBuffer.size (jitter_buffer st)
                    < JITTER_BUFFER_MIN)%nat) as [Hlt|Hge].
  - by rewrite (get_below _ Hlt).
  - destruct (get_above (jitter_buffer st)) as (x & rest & _ & ->); [lia|].
    cbn. destruct (decide (x ≠ [])); [by rewrite Hw | done].
Qed.

(** A counted datagram whose frame is buffered and whose playback does not
    fail gets its report when one is due: packet count and bytes include the
    datagram itself. *)
Lemma loop_body_reports ev st f :
  (start_time st <= last_report st)%Q →
  counted (ev_data ev) = true →
  pushed_frame decoder ev = Some f →
  ev_write ev = Ok tt →
  (2 <= ev_now ev - last_report st)%Q →
  compression config ≠ 1 ∨ sample_rate config * channels config ≠ 0 →
  let r := loop_body config decoder ev st in
  ∃ lat fill ratio,
    r.1 = Ok tt
    ∧ stdout r.2
      = stdout st
          ++ [Report (packet_count st + 1)
                (kbps_of (bytes_received st + Z.of_nat (length (ev_data ev)))
                   (start_time st) (ev_now ev))
                lat fill ratio]
    ∧ last_report r.2 = ev_now ev.
Proof.
  intros Hclock Hc Hf Hw Hdue Hcfg. cbn zeta.
  apply bool_decide_eq_true in Hc as [Hh Hlen].
  destruct (parse_audio_packet_cases (ev_data ev)) as [[? _]|[_ [p Hp]]];
    [lia|].
  unfold pushed_frame in Hf. rewrite decide_False, Hp in Hf by done.
  rewrite (loop_body_accept _ _ _ _ p) by done.
  set (st0 := record_latency _ _).
  unfold mbind, M_bind.
  rewrite (decode_and_buffer_pushed _ _ _ f) by done.
  cbv beta iota.
  set (st1 := set_jitter_buffer _ st0).
  pose proof (play_ok ev st1 Hw) as Hok.
  pose proof (play_same_session ev st1) as ((Hpk & Hb & _ & _ & Hs) & Hl & Ho).
  destruct (play ev st1) as [r2 st2]. cbn [fst snd] in *. subst r2.
  rewrite report_due; [| by rewrite Hs, Hl | by rewrite Hl | done].
  cbn [fst snd stdout last_report].
  do 3 eexists. split; [done|]. split; [|done].
  by rewrite Ho, Hpk, Hb, Hs.
Qed.
End ReportFacts.

Section SilentFacts.
Import Silent SilentReceiver.
Variable config : Header.

Lemma silent_run_cons ev evs st :
  run config (ev :: evs) st
  = match loop_body config ev st with
    | (Ok _, st1) => run config evs st1
    | (Raise e, st1) => (Raise e, st1)
    end.
Proof. reflexivity. Qed.

Lemma received_bytes_silent_cons ev evs :
  received_bytes_silent (ev :: evs)
  = (if counted_silent (ev_data ev)
     then Z.of_nat (length (ev_data ev)) else 0)
    + received_bytes_silent evs.
Proof. reflexivity. Qed.

Lemma silent_loop_body_report ev st :
  (start_time st <= last_report st)%Q →
  let st' := (loop_body config ev st).2 in
  start_time st' = start_time st
  ∧ bytes_received st'
    = bytes_received st
      + (if counted_silent (ev_data ev)
         then Z.of_nat (length (ev_data ev)) else 0)
  ∧ (start_time st' <= last_report st')%Q
  ∧ ∃ ls, stdout st' = stdout st ++ ls
      ∧ ∀ pk b kbps dur,
          Report pk b kbps dur ∈ ls →
          kbps = kbps_of (bytes_received st') (start_time st) (ev_now ev)
          ∧ (2 <= ev_now ev - start_time st)%Q.
Proof.
  intros Hclock. cbn zeta.
  assert (Hnil : ∀ st1 : State, stdout st1 = stdout st →
            ∃ ls, stdout st1 = stdout st ++ ls
              ∧ ∀ pk b kbps dur,
                  Report pk b kbps dur ∈ ls →
                  kbps = kbps_of (bytes_received st1) (start_time st)
                           (ev_now ev)
                  ∧ (2 <= ev_now ev - start_time st)%Q).
  { intros st1 Ho. exists []. split; [by rewrite (right_id_L [] (++))|].
    intros ???? Hin. by apply elem_of_nil in Hin. }
  unfold loop_body, counted_silent.
  destruct (decide (length (ev_data ev) = 10%nat ∧ _)) as [Hh|Hh].
  { rewrite bool_decide_eq_false_2 by (by intros H; apply H).
    cbn. split; [done|]. split; [lia|]. split; [done|]. by apply Hnil. }
  rewrite bool_decide_eq_true_2 by done.
  unfold report.
  unfold mbind, M_bind, mret, M_ret, gets, lift, print, set_last_report,
    modify, id.
  change (last_report (count_packet _ st)) with (last_report st).
  assert (Hquiet : ∀ r : result unit,
            let st1 := (r, count_packet (length (ev_data ev)) st).2 in
            start_time st1 = start_time st
            ∧ bytes_received st1
              = bytes_received st + Z.of_nat (length (ev_data ev))
            ∧ (start_time st1 <= last_report st1)%Q
            ∧ ∃ ls, stdout st1 = stdout st ++ ls
                ∧ ∀ pk b kbps dur,
                    Report pk b kbps dur ∈ ls →
                    kbps = kbps_of (bytes_received st1) (start_time st)
                             (ev_now ev)
                    ∧ (2 <= ev_now ev - start_time st)%Q).
  { intros r. cbn zeta. cbn [snd].
    split; [done|]. split; [done|]. split; [done|]. by apply Hnil. }
  destruct (Qle_bool 2 (ev_now ev - last_report st)) eqn:Hdue;
    [|apply (Hquiet (Ok tt))].
  apply Qle_bool_iff in Hdue.
  cbv beta iota.
  change (start_time (count_packet _ st)) with (start_time st).
  rewrite throughput_kbps_cases. unfold true_div.
  destruct (Qeq_bool (fmul _ 1000) 0);
    [apply (Hquiet (Raise ZeroDivisionError))|].
  destruct (Qeq_bool (inject_Z (sample_rate config)) 0);
    [apply (Hquiet (Raise ZeroDivisionError))|].
  destruct (Qeq_bool (of_int (channels config)) 0);
    [apply (Hquiet (Raise ZeroDivisionError))|].
  cbn. split; [done|]. split; [done|]. split; [lra|].
  eexists [_]. split; [done|].
  intros pk b kbps dur Hin.
  apply list_elem_of_singleton in Hin. injection Hin as -> -> -> ->.
  split; [done | lra].
Qed.

Lemma silent_run_reports evs : ∀ st,
  (start_time st <= last_report st)%Q →
  ∀ pk b kbps dur,
    Report pk b kbps dur ∈ stdout (run config evs st).2 →
    Report pk b kbps dur ∈ stdout st
    ∨ ∃ pre ev post,
        evs = pre ++ ev :: post
        ∧ kbps = kbps_of (bytes_received st
                          + received_bytes_silent (pre ++ [ev]))
                   (start_time st) (ev_now ev)
        ∧ (2 <= ev_now ev - start_time st)%Q.
Proof.
  induction evs as [|ev evs IH]; intros st Hclock pk b kbps dur Hin;
    [by left|].
  rewrite silent_run_cons in Hin.
  destruct (silent_loop_body_report ev st Hclock)
    as (Hs & Hb & Hclock1 & ls & Ho & Hls).
  assert (Hhere : Report pk b kbps dur
                    ∈ stdout (loop_body config ev st).2 →
            Report pk b kbps dur ∈ stdout st
            ∨ ∃ pre ev0 post,
                ev :: evs = pre ++ ev0 :: post
                ∧ kbps = kbps_of (bytes_received st
                                  + received_bytes_silent (pre ++ [ev0]))
                           (start_time st) (ev_now ev0)
                ∧ (2 <= ev_now ev0 - start_time st)%Q).
  { rewrite Ho. intros [?|Hnew]%elem_of_app; [by left|right].
    exists [], ev, evs. split; [done|].
    destruct (Hls _ _ _ _ Hnew) as [-> ?]. split; [|done].
    cbn [app]. rewrite received_bytes_silent_cons, Hb.
    cbn [received_bytes_silent foldr]. f_equal. lia. }
  destruct (loop_body config ev st) as [[[]|e] st1];
    cbn [snd] in *; [|by apply Hhere].
  destruct (IH st1 Hclock1 _ _ _ _ Hin)
    as [Hold|(pre & ev0 & post & -> & -> & Hel)]; [by apply Hhere|].
  right. exists (ev :: pre), ev0, post. split; [done|].
  rewrite Hs in *. split; [|done].
  cbn [app]. rewrite received_bytes_silent_cons, Hb. f_equal. lia.
Qed.
(** A report that is due is printed, in a session whose header announced
    neither a zero sample rate nor a zero channel count. *)
Lemma silent_loop_body_reports ev st :
  (start_time st <= last_report st)%Q →
  ¬ header_shaped 10 (ev_data ev) →
  (2 <= ev_now ev - last_report st)%Q →
  sample_rate config ≠ 0 → channels config ≠ 0 →
  let pk := packet_count st + 1 in
  let b := bytes_received st + Z.of_nat (length (ev_data ev)) in
  loop_body config ev st
  = (Ok tt,
     mkState pk b (start_time st) (ev_now ev)
       (stdout st
          ++ [Report pk b (kbps_of b (start_time st) (ev_now ev))
                (duration_of config b)])).
Proof.
  intros Hclock Hh Hdue Hsr Hch. cbn zeta.
  unfold loop_body. rewrite decide_False by done.
  unfold report, duration_of.
  unfold mbind, M_bind, mret, M_ret, gets, lift, print, set_last_report,
    modify, id.
  change (last_report (count_packet _ st)) with (last_report st).
  rewrite (proj2 (Qle_bool_iff _ _) Hdue).
  change (start_time (count_packet _ st)) with (start_time st).
  rewrite throughput_kbps_cases.
  rewrite (elapsed_ms_nonzero 1) by (done || (change (2 ^ 1)%Q with 2%Q; lra)).
  unfold true_div.
  destruct (Qeq_bool (inject_Z (sample_rate config)) 0) eqn:Hz1.
  { apply Qeq_bool_iff in Hz1. unfold Qeq in Hz1. cbn in Hz1. lia. }
  destruct (Qeq_bool (of_int (channels config)) 0) eqn:Hz2.
  { by apply of_int_eq_bool_0 in Hz2. }
  reflexivity.
Qed.
End SilentFacts.

(** C9. Every throughput figure either receiver reports is computed over
    the whole session. If a run that starts at session creation (time [t0])
    prints a report, the report was printed while handling some datagram
    [ev] of the run, at least two seconds after [t0], and its kbps value is
    [(bytes * 8) / (elapsed * 1000)], evaluated in binary64, where [bytes]
    is the total size of all datagrams counted from the first one up to
    [ev] and [elapsed] is [ev]'s clock reading minus [t0]. Conversely, in
    either receiver a counted datagram that arrives two seconds or more
    after the last report gets a report with that value, its own bytes
    included (in the enhanced receiver: if its frame was buffered, playback
    did not fail and the compression figure does not divide by zero; in the
    silent receiver: if sample rate and channel count are not zero). With
    1,000,000 bytes and 8 seconds of elapsed time the value is exactly
    1000. *)
Theorem throughput_over_whole_session :
  (∀ config decoder evs t0 pk kbps lat fill ratio,
     Receiver.Report pk kbps lat fill ratio
       ∈ Receiver.stdout
           (Receiver.run config decoder evs (Receiver.init_state t0)).2 →
     ∃ pre ev post,
       evs = pre ++ ev :: post
       ∧ kbps = kbps_of (received_bytes (pre ++ [ev])) t0 (Receiver.ev_now ev)
       ∧ (2 <= Receiver.ev_now ev - t0)%Q
       ∧ (received_bytes (pre ++ [ev]) = 1000000 →
          (Receiver.ev_now ev - t0 == 8)%Q → (kbps == 1000)%Q))
  ∧ (∀ config evs t0 pk b kbps dur,
       SilentReceiver.Report pk b kbps dur
         ∈ SilentReceiver.stdout
             (SilentReceiver.run config evs (SilentReceiver.init_state t0)).2 →
       ∃ pre ev post,
         evs = pre ++ ev :: post
         ∧ kbps = kbps_of (received_bytes_silent (pre ++ [ev])) t0
                    (SilentReceiver.ev_now ev)
         ∧ (2 <= SilentReceiver.ev_now ev - t0)%Q
         ∧ (received_bytes_silent (pre ++ [ev]) = 1000000 →
            (SilentReceiver.ev_now ev - t0 == 8)%Q → (kbps == 1000)%Q))
  ∧ (∀ config decoder ev st f,
       (Receiver.start_time st <= Receiver.last_report st)%Q →
       counted (Receiver.ev_data ev) = true →
       pushed_frame decoder ev = Some f →
       Receiver.ev_write ev = Ok tt →
       (2 <= Receiver.ev_now ev - Receiver.last_report st)%Q →
       Enhanced.compression config ≠ 1
       ∨ Enhanced.sample_rate config * Enhanced.channels config ≠ 0 →
       let r := Receiver.loop_body config decoder ev st in
       ∃ lat fill ratio,
         r.1 = Ok tt
         ∧ Receiver.stdout r.2
           = Receiver.stdout st
               ++ [Receiver.Report (Receiver.packet_count st + 1)
                     (kbps_of (Receiver.bytes_received st
                               + Z.of_nat (length (Receiver.ev_data ev)))
                        (Receiver.start_time st) (Receiver.ev_now ev))
                     lat fill ratio]
         ∧ Receiver.last_report r.2 = Receiver.ev_now ev)
  ∧ (∀ config ev st,
       (SilentReceiver.start_time st <= SilentReceiver.last_report st)%Q →
       ¬ header_shaped 10 (SilentReceiver.ev_data ev) →
       (2 <= SilentReceiver.ev_now ev - SilentReceiver.last_report st)%Q →
       Silent.sample_rate config ≠ 0 → Silent.channels config ≠ 0 →
       let pk := SilentReceiver.packet_count st + 1 in
       let b := SilentReceiver.bytes_received st
                + Z.of_nat (length (SilentReceiver.ev_data ev)) in
       SilentReceiver.loop_body config ev st
       = (Ok tt,
          SilentReceiver.mkState pk b (SilentReceiver.start_time st)
            (SilentReceiver.ev_now ev)
            (SilentReceiver.stdout st
               ++ [SilentReceiver.Report pk b
                     (kbps_of b (SilentReceiver.start_time st)
                        (SilentReceiver.ev_now ev))
                     (duration_of config b)])))
  ∧ (∀ t0 now, (now - t0 == 8)%Q → (kbps_of 1000000 t0 now == 1000)%Q).
Proof.
  assert (Hex : ∀ t0 now,
            (now - t0 == 8)%Q → (kbps_of 1000000 t0 now == 1000)%Q).
  { intros t0 now E.
    rewrite (kbps_of_comp 1000000 t0 now 0 8) by (rewrite E; reflexivity).
    vm_compute. reflexivity. }
  split; [|split; [|split; [|split]]].
  - intros config decoder evs t0 pk kbps lat fill ratio Hin.
    destruct (run_reports config decoder evs (Receiver.init_state t0)
                ltac:(apply Qle_refl) _ _ _ _ _ Hin)
      as [Hnil|(pre & ev & post & Hevs & Hk & Hel)].
    + by apply elem_of_nil in Hnil.
    + exists pre, ev, post. cbn in Hk.
      split; [done|]. split; [done|]. split; [done|].
      intros Hb E. rewrite Hk, Hb. by apply Hex.
  - intros config evs t0 pk b kbps dur Hin.
    destruct (silent_run_reports config evs (SilentReceiver.init_state t0)
                ltac:(apply Qle_refl) _ _ _ _ Hin)
      as [Hnil|(pre & ev & post & Hevs & Hk & Hel)].
    + by apply elem_of_nil in Hnil.
    + exists pre, ev, post. cbn in Hk.
      split; [done|]. split; [done|]. split; [done|].
      intros Hb E. rewrite Hk, Hb. by apply Hex.
  - intros config decoder ev st f. apply loop_body_reports.
  - intros config ev st. apply silent_loop_body_reports.
  - exact Hex.
Qed.

(** A session of 125 datagrams of 8000 bytes: 124 arrive one second after
    the session started at 1700000000.5, the last one eight seconds after
    it. Either receiver prints one report, with exactly 1000 kbps. *)
Lemma throughput_over_whole_session_witness :
  let t0 := (3400000001 # 2)%Q in
  let t1 := (3400000003 # 2)%Q in
  let t8 := (3400000017 # 2)%Q in
  let config := Enhanced.mkHeader 1 48000 2 0 "Raw" in
  let sconfig := Silent.mkHeader 48000 2 in
  let frame now :=
    Receiver.mkEvent
      (audio_prefix x00 1000 7989 ++ replicate (Z.to_nat 7989) x00)
      6000 (Ok []) (Ok tt) now in
  let sframe now :=
    SilentReceiver.mkEvent (replicate (Z.to_nat 8000) x00) now in
  let evs := replicate 124 (frame t1) ++ [frame t8] in
  let sevs := replicate 124 (sframe t1) ++ [sframe t8] in
  let kbps := kbps_of 1000000 t0 t8 in
  Receiver.stdout (Receiver.run config None evs (Receiver.init_state t0)).2
    = [Receiver.Report 125 kbps (average_latency_ms 625000 125) 2 0]
  ∧ SilentReceiver.stdout
      (SilentReceiver.run sconfig sevs (SilentReceiver.init_state t0)).2
    = [SilentReceiver.Report 125 1000000 kbps (duration_of sconfig 1000000)]
  ∧ (kbps == 1000)%Q
  ∧ (∃ pre ev post,
       evs = pre ++ ev :: post
       ∧ kbps = kbps_of (received_bytes (pre ++ [ev])) t0 (Receiver.ev_now ev)
       ∧ (2 <= Receiver.ev_now ev - t0)%Q
       ∧ (received_bytes (pre ++ [ev]) = 1000000 →
          (Receiver.ev_now ev - t0 == 8)%Q → (kbps == 1000)%Q))
  ∧ (∃ pre ev post,
       sevs = pre ++ ev :: post
       ∧ kbps = kbps_of (received_bytes_silent (pre ++ [ev])) t0
                  (SilentReceiver.ev_now ev)
       ∧ (2 <= SilentReceiver.ev_now ev - t0)%Q
       ∧ (received_bytes_silent (pre ++ [ev]) = 1000000 →
          (SilentReceiver.ev_now ev - t0 == 8)%Q → (kbps == 1000)%Q))
  ∧ SilentReceiver.loop_body sconfig (sframe t8) (SilentReceiver.init_state t0)
    = (Ok tt,
       SilentReceiver.mkState 1 8000 t0 t8
         [SilentReceiver.Report 1 8000 (kbps_of 8000 t0 t8)
            (duration_of sconfig 8000)])
  ∧ (∃ lat fill ratio,
       Receiver.stdout
         (Receiver.loop_body config None (frame t8) (Receiver.init_state t0)).2
       = [Receiver.Report 1 (kbps_of 8000 t0 t8) lat fill ratio]).
Proof.
  intros t0 t1 t8 config sconfig frame sframe evs sevs kbps.
  destruct throughput_over_whole_session as (H1 & H2 & H3 & H4 & H5).
  assert (Ho : Receiver.stdout
                 (Receiver.run config None evs (Receiver.init_state t0)).2
               = [Receiver.Report 125 kbps (average_latency_ms 625000 125) 2 0])
    by (vm_compute; reflexivity).
  assert (Hso : SilentReceiver.stdout
                  (SilentReceiver.run sconfig sevs
                     (SilentReceiver.init_state t0)).2
                = [SilentReceiver.Report 125 1000000 kbps
                     (duration_of sconfig 1000000)])
    by (vm_compute; reflexivity).
  split; [exact Ho|]. split; [exact Hso|].
  split; [apply H5; reflexivity|].
  split.
  { apply (H1 config None evs t0 125 kbps (average_latency_ms 625000 125)
              2%nat 0%Q).
    rewrite Ho. left. }
  split.
  { apply (H2 sconfig sevs t0 125 1000000 kbps (duration_of sconfig 1000000)).
    rewrite Hso. left. }
  split.
  { apply (H4 sconfig (sframe t8) (SilentReceiver.init_state t0)).
    - apply Qle_refl.
    - intros [Hlen _]. vm_compute in Hlen. discriminate.
    - vm_compute. discriminate.
    - done.
    - done. }
  destruct (H3 config None (frame t8) (Receiver.init_state t0)
              (replicate (Z.to_nat 7989) x00))
    as (lat & fill & ratio & _ & Hout & _).
  - apply Qle_refl.
  - vm_compute. reflexivity.
  - vm_compute. reflexivity.
  - reflexivity.
  - vm_compute. discriminate.
  - left. vm_compute. discriminate.
  - exists lat, fill, ratio. exact Hout.
Defined.

(** * Further properties of the parsers *)

Lemma byte_val_inj b1 b2 : byte_val b1 = byte_val b2 → b1 = b2.
Proof.
  intros H. rewrite <- (byte_of_Z_val b1), <- (byte_of_Z_val b2). by rewrite H.
Qed.

Lemma length_ext_header v sr ch c : length (ext_header v sr ch c) = 12%nat.
Proof. unfold ext_header. by rewrite !length_app, !length_pack_le. Qed.

Lemma length_basic_header sr ch : length (basic_header sr ch) = 10%nat.
Proof. unfold basic_header. by rewrite !length_app, !length_pack_le. Qed.

(** A datagram the extended parser accepts, taken apart. *)
Lemma enhanced_parse_header_Some data h :
  Enhanced.parse_header data = Ok (Some h) →
  ∃ v sr ch c rest,
    data = ext_header v sr ch c ++ rest
    ∧ 0 ≤ sr < 2 ^ 32 ∧ 0 ≤ ch < 2 ^ 16
    ∧ h = Enhanced.mkHeader (byte_val v) sr ch (byte_val c)
            (if decide (byte_val c = 1) then "Opus" else "Raw").
Proof.
  intros Hp.
  destruct (decide (length data < 12)%nat) as [Hlt|Hge].
  { rewrite enhanced_parse_header_rejects in Hp by by left. done. }
  destruct (decide (take 4 data = HEADER_MAGIC)) as [Hm|Hm].
  2:{ rewrite enhanced_parse_header_rejects in Hp by by right. done. }
  destruct (ext_header_shape data) as (v & sr & ch & c & rest & -> & Hsr & Hch);
    [lia | done |].
  rewrite enhanced_parse_header_accepts in Hp by done.
  injection Hp as <-. by exists v, sr, ch, c, rest.
Qed.

Lemma silent_parse_header_Some data h :
  Silent.parse_header data = Ok (Some h) →
  ∃ sr ch rest,
    data = basic_header sr ch ++ rest
    ∧ 0 ≤ sr < 2 ^ 32 ∧ 0 ≤ ch < 2 ^ 16
    ∧ h = Silent.mkHeader sr ch.
Proof.
  intros Hp.
  destruct (decide (length data < 10)%nat) as [Hlt|Hge].
  { rewrite silent_parse_header_rejects in Hp by by left. done. }
  destruct (decide (take 4 data = HEADER_MAGIC)) as [Hm|Hm].
  2:{ rewrite silent_parse_header_rejects in Hp by by right. done. }
  destruct (basic_header_shape data) as (sr & ch & rest & -> & Hsr & Hch);
    [lia | done |].
  rewrite silent_parse_header_accepts in Hp by done.
  injection Hp as <-. by exists sr, ch, rest.
Qed.

Lemma parse_audio_packet_Some d p :
  Enhanced.parse_audio_packet d = Ok (Some p) →
  ∃ ty ts sz payload,
    d = audio_prefix ty ts sz ++ payload
    ∧ 0 ≤ ts < 2 ^ 64 ∧ 0 ≤ sz < 2 ^ 16
    ∧ p = Enhanced.mkAudioPacket (byte_val ty) ts sz
            (take (Z.to_nat sz) payload).
Proof.
  intros Hp.
  destruct (parse_audio_packet_cases d) as [[_ E]|[Hlen _]]; [congruence|].
  destruct (audio_packet_shape d Hlen)
    as (ty & ts & sz & payload & -> & Hts & Hsz).
  rewrite parse_audio_packet_encoded in Hp by done.
  injection Hp as <-. by exists ty, ts, sz, payload.
Qed.

(** X1. Whatever bytes arrive, a header returned by either [parse_header]
    has a sample rate below 2^32 and a channel count below 2^16 (both may
    be zero), and for the extended parser a version and a compression flag
    below 256; [compression_name] is "Opus" exactly for flag 1 and "Raw"
    for every other flag. *)
Theorem parse_header_field_ranges (data : bytes) :
  (∀ h, Enhanced.parse_header data = Ok (Some h) →
     0 ≤ Enhanced.version h < 256
     ∧ 0 ≤ Enhanced.sample_rate h < 2 ^ 32
     ∧ 0 ≤ Enhanced.channels h < 2 ^ 16
     ∧ 0 ≤ Enhanced.compression h < 256
     ∧ (Enhanced.compression h = 1 → Enhanced.compression_name h = "Opus")
     ∧ (Enhanced.compression h ≠ 1 → Enhanced.compression_name h = "Raw"))
  ∧ (∀ h, Silent.parse_header data = Ok (Some h) →
       0 ≤ Silent.sample_rate h < 2 ^ 32
       ∧ 0 ≤ Silent.channels h < 2 ^ 16).
Proof.
  split.
  - intros h Hp.
    destruct (enhanced_parse_header_Some data h Hp)
      as (v & sr & ch & c & rest & _ & Hsr & Hch & ->).
    cbn [Enhanced.version Enhanced.sample_rate Enhanced.channels
         Enhanced.compression Enhanced.compression_name].
    pose proof (byte_val_range v). pose proof (byte_val_range c).
    repeat split; try lia.
    + intros H1. by rewrite decide_True.
    + intros H1. by rewrite decide_False.
  - intros h Hp.
    destruct (silent_parse_header_Some data h Hp)
      as (sr & ch & rest & _ & Hsr & Hch & ->).
    cbn. lia.
Qed.

Lemma parse_header_field_ranges_witness :
  let d := ext_header x01 0 0 x07 in
  Enhanced.parse_header d = Ok (Some (Enhanced.mkHeader 1 0 0 7 "Raw"))
  ∧ Enhanced.compression_name (Enhanced.mkHeader 1 0 0 7 "Raw") = "Raw"
  ∧ Silent.parse_header (basic_header 0 0) = Ok (Some (Silent.mkHeader 0 0))
  ∧ 0 ≤ Silent.channels (Silent.mkHeader 0 0) < 2 ^ 16.
Proof.
  destruct (parse_header_field_ranges (ext_header x01 0 0 x07)) as [H1 _].
  destruct (parse_header_field_ranges (basic_header 0 0)) as [_ H2].
  split; [vm_compute; reflexivity|]. split.
  - apply (H1 (Enhanced.mkHeader 1 0 0 7 "Raw"));
      [vm_compute; reflexivity | vm_compute; discriminate].
  - split; [vm_compute; reflexivity|].
    apply (H2 (Silent.mkHeader 0 0)). vm_compute. reflexivity.
Defined.

(** X2. A packet returned by [parse_audio_packet] has a type below 256, a
    timestamp below 2^64 and a size below 2^16, and its payload never has
    more than 65535 bytes nor more bytes than [size]. *)
Theorem parse_audio_packet_field_ranges (d : bytes) (p : Enhanced.AudioPacket) :
  Enhanced.parse_audio_packet d = Ok (Some p) →
  0 ≤ Enhanced.type p < 256
  ∧ 0 ≤ Enhanced.timestamp p < 2 ^ 64
  ∧ 0 ≤ Enhanced.size p < 2 ^ 16
  ∧ Z.of_nat (length (Enhanced.data p)) ≤ Enhanced.size p
  ∧ Z.of_nat (length (Enhanced.data p)) ≤ 65535.
Proof.
  intros Hp.
  destruct (parse_audio_packet_Some d p Hp)
    as (ty & ts & sz & payload & _ & Hts & Hsz & ->).
  cbn [Enhanced.type Enhanced.timestamp Enhanced.size Enhanced.data].
  pose proof (byte_val_range ty). rewrite length_take. lia.
Qed.

Lemma parse_audio_packet_field_ranges_witness :
  let d := audio_prefix xff 18446744073709551615 65535 ++ [x01] in
  let p := Enhanced.mkAudioPacket 255 18446744073709551615 65535 [x01] in
  0 ≤ Enhanced.type p < 256
  ∧ 0 ≤ Enhanced.timestamp p < 2 ^ 64
  ∧ 0 ≤ Enhanced.size p < 2 ^ 16
  ∧ Z.of_nat (length (Enhanced.data p)) ≤ Enhanced.size p
  ∧ Z.of_nat (length (Enhanced.data p)) ≤ 65535.
Proof.
  intros d p. apply (parse_audio_packet_field_ranges d p).
  vm_compute. reflexivity.
Defined.

(** X3. The parsers lose nothing of the bytes they read: two datagrams on
    which the extended [parse_header] returns the same header agree on their
    first 12 bytes, two on which the basic one does on their first 10, and
    two on which [parse_audio_packet] returns the same packet agree on their
    11-byte prefix. *)
Theorem parsers_injective_on_layout (d1 d2 : bytes) :
  (∀ h, Enhanced.parse_header d1 = Ok (Some h) →
        Enhanced.parse_header d2 = Ok (Some h) → take 12 d1 = take 12 d2)
  ∧ (∀ h, Silent.parse_header d1 = Ok (Some h) →
          Silent.parse_header d2 = Ok (Some h) → take 10 d1 = take 10 d2)
  ∧ (∀ p, Enhanced.parse_audio_packet d1 = Ok (Some p) →
          Enhanced.parse_audio_packet d2 = Ok (Some p) →
          take 11 d1 = take 11 d2).
Proof.
  split; [|split].
  - intros h H1 H2.
    destruct (enhanced_parse_header_Some _ _ H1)
      as (v & sr & ch & c & rest & -> & _ & _ & ->).
    destruct (enhanced_parse_header_Some _ _ H2)
      as (v' & sr' & ch' & c' & rest' & -> & _ & _ & Heq).
    injection Heq as Hv -> -> Hc _.
    apply byte_val_inj in Hv as ->. apply byte_val_inj in Hc as ->.
    by rewrite !take_app_length' by (by rewrite length_ext_header).
  - intros h H1 H2.
    destruct (silent_parse_header_Some _ _ H1)
      as (sr & ch & rest & -> & _ & _ & ->).
    destruct (silent_parse_header_Some _ _ H2)
      as (sr' & ch' & rest' & -> & _ & _ & Heq).
    injection Heq as -> ->.
    by rewrite !take_app_length' by (by rewrite length_basic_header).
  - intros p H1 H2.
    destruct (parse_audio_packet_Some _ _ H1)
      as (ty & ts & sz & payload & -> & _ & _ & ->).
    destruct (parse_audio_packet_Some _ _ H2)
      as (ty' & ts' & sz' & payload' & -> & _ & _ & Heq).
    injection Heq as Hty -> -> _.
    apply byte_val_inj in Hty as ->.
    by rewrite !take_app_length' by (by rewrite length_audio_prefix).
Qed.

Lemma parsers_injective_on_layout_witness :
  take 12 (ext_header x01 48000 2 x00 ++ [xaa])
  = take 12 (ext_header x01 48000 2 x00 ++ [xbb; xcc]).
Proof.
  destruct (parsers_injective_on_layout
              (ext_header x01 48000 2 x00 ++ [xaa])
              (ext_header x01 48000 2 x00 ++ [xbb; xcc])) as [H _].
  apply (H (Enhanced.mkHeader 1 48000 2 0 "Raw")); vm_compute; reflexivity.
Defined.

(** * Further properties of the jitter buffer *)

Section SmallBuffer.
Import JitterBuffer.

Lemma run_small n ops : ∀ h jb,
  (n < JITTER_BUFFER_MIN)%nat →
  maxlen (buffer jb) = n →
  frames jb = drop (length h - n) h →
  ∃ rs jb', run ops jb = Ok (rs, jb')
            ∧ delivered rs = []
            ∧ length rs = get_calls ops
            ∧ frames jb' = drop (length (h ++ pushed ops) - n) (h ++ pushed ops).
Proof.
  intros h jb Hn. revert h jb.
  induction ops as [|[x|] ops IH]; intros h jb Hm Hfr.
  - exists [], jb. cbn. by rewrite (right_id_L [] (++)).
  - destruct (IH (h ++ [x]) (add jb x)) as (rs & jb' & Hrun & Hd & Hl & Hfr').
    + by rewrite maxlen_add.
    + rewrite frames_add, Hm, Hfr, !length_app, length_drop. cbn [length].
      destruct (decide (length h < n)%nat) as [Hlt|Hge].
      * replace (length h - n)%nat with 0%nat by lia.
        replace (length h + 1 - n)%nat with 0%nat by lia.
        rewrite !drop_0. by rewrite decide_False by lia.
      * rewrite decide_True by lia.
        rewrite <- drop_app_le by lia. rewrite drop_drop. f_equal. lia.
    + exists rs, jb'. split; [done|]. split; [done|]. split; [done|].
      by rewrite <- (assoc_L (++)) in Hfr'.
  - assert (Hsz : (size jb < JITTER_BUFFER_MIN)%nat).
    { unfold size, deque_len. fold (frames jb).
      rewrite Hfr, length_drop. unfold JITTER_BUFFER_MIN in *. lia. }
    destruct (IH h jb Hm Hfr) as (rs & jb' & Hrun & Hd & Hl & Hfr').
    exists (None :: rs), jb'. split; [|split; [done|split; [|done]]].
    + cbn [run]. rewrite (get_below jb Hsz). cbn. by rewrite Hrun.
    + cbn. by rewrite Hl.
Qed.
End SmallBuffer.

(** X4. A jitter buffer created with a capacity below the watermark of 3
    never delivers a frame: whatever calls are made, every [get] returns
    nothing, and the buffer holds exactly the last [n] frames pushed. *)
Theorem jitter_buffer_below_watermark_never_delivers
    (n : nat) (ops : list JitterBuffer.op) :
  (n < JITTER_BUFFER_MIN)%nat →
  ∃ rs jb,
    JitterBuffer.run ops (JitterBuffer.init n) = Ok (rs, jb)
    ∧ rs = replicate (get_calls ops) None
    ∧ JitterBuffer.frames jb
      = drop (length (JitterBuffer.pushed ops) - n) (JitterBuffer.pushed ops).
Proof.
  intros Hn.
  destruct (run_small n ops [] (JitterBuffer.init n) Hn)
    as (rs & jb & Hrun & Hd & Hl & Hfr); [done | done |].
  exists rs, jb. split; [done|]. split; [|done].
  rewrite <- Hl. clear -Hd.
  induction rs as [|[x|] rs IH]; [done | done |].
  cbn. f_equal. by apply IH.
Qed.

Lemma jitter_buffer_below_watermark_never_delivers_witness :
  let ops := [JitterBuffer.Add [x01]; JitterBuffer.Add [x02];
              JitterBuffer.Add [x03]; JitterBuffer.Get; JitterBuffer.Get] in
  ∃ rs jb,
    JitterBuffer.run ops (JitterBuffer.init 2) = Ok (rs, jb)
    ∧ rs = replicate (get_calls ops) None
    ∧ JitterBuffer.frames jb
      = drop (length (JitterBuffer.pushed ops) - 2) (JitterBuffer.pushed ops).
Proof.
  intros ops.
  apply (jitter_buffer_below_watermark_never_delivers 2 ops).
  unfold JITTER_BUFFER_MIN. lia.
Defined.

(** * Waiting for the header *)

Lemma enhanced_parse_header_cases d :
  (not_ext_header d ∧ Enhanced.parse_header d = Ok None)
  ∨ (¬ not_ext_header d ∧ ∃ h, Enhanced.parse_header d = Ok (Some h)).
Proof.
  destruct (decide (not_ext_header d)) as [Hno|Hyes].
  - left. split; [done|]. by apply enhanced_parse_header_rejects.
  - right. split; [done|].
    destruct (ext_header_shape d) as (v & sr & ch & c & rest & -> & ? & ?).
    + unfold not_ext_header in Hyes. lia.
    + destruct (decide (take 4 d = HEADER_MAGIC)); [done|].
      exfalso. apply Hyes. by right.
    + eexists. by apply enhanced_parse_header_accepts.
Qed.

Lemma silent_parse_header_cases d :
  (not_basic_header d ∧ Silent.parse_header d = Ok None)
  ∨ (¬ not_basic_header d ∧ ∃ h, Silent.parse_header d = Ok (Some h)).
Proof.
  destruct (decide (not_basic_header d)) as [Hno|Hyes].
  - left. split; [done|]. by apply silent_parse_header_rejects.
  - right. split; [done|].
    destruct (basic_header_shape d) as (sr & ch & rest & -> & ? & ?).
    + unfold not_basic_header in Hyes. lia.
    + destruct (decide (take 4 d = HEADER_MAGIC)); [done|].
      exfalso. apply Hyes. by right.
    + eexists. by apply silent_parse_header_accepts.
Qed.

(** The multiples of 100 passed when a counter goes from [count] to [k]. *)
Lemma hundreds_step (count k : Z) :
  0 ≤ count → count + 1 ≤ k →
  (λ i, 100 * i) <$> seqZ (count `div` 100 + 1) (k `div` 100 - count `div` 100)
  = (if decide ((count + 1) `mod` 100 = 0) then [count + 1] else [])
      ++ ((λ i, 100 * i) <$>
            seqZ ((count + 1) `div` 100 + 1)
                 (k `div` 100 - (count + 1) `div` 100)).
Proof.
  intros Hc Hk.
  assert (Hmono : (count + 1) `div` 100 ≤ k `div` 100)
    by (apply Z.div_le_mono; lia).
  case_decide as Hmod.
  - assert ((count + 1) `div` 100 = count `div` 100 + 1) as Hq
      by (Z.div_mod_to_equations; lia).
    rewrite seqZ_cons by lia. cbn [fmap list_fmap app]. f_equal.
    + Z.div_mod_to_equations; lia.
    + do 2 f_equal; lia.
  - assert ((count + 1) `div` 100 = count `div` 100) as ->
      by (Z.div_mod_to_equations; lia).
    done.
Qed.

Section StartupFacts.
Import Enhanced Startup.

Lemma wait_spec ds : ∀ count, 0 ≤ count →
  match wait ds count with
  | (Configured c k rest, out) =>
      ∃ pre d,
        ds = pre ++ d :: rest
        ∧ Forall not_ext_header pre
        ∧ parse_header d = Ok (Some c)
        ∧ k = count + Z.of_nat (length pre)
        ∧ out = (StillWaiting <$>
                   ((λ i, 100 * i) <$>
                      seqZ (count `div` 100 + 1)
                           (k `div` 100 - count `div` 100)))
                ++ [ConfigReceived c (if decide (0 < k) then Some k else None)]
  | (Blocked k, out) =>
      Forall not_ext_header ds
      ∧ k = count + Z.of_nat (length ds)
      ∧ out = StillWaiting <$>
                ((λ i, 100 * i) <$>
                   seqZ (count `div` 100 + 1) (k `div` 100 - count `div` 100))
  | (Crashed e, _) => False
  end.
Proof.
  induction ds as [|d ds IH]; intros count Hc.
  - cbn. split; [done|]. split; [lia|]. by rewrite Z.sub_diag.
  - cbn [wait].
    destruct (enhanced_parse_header_cases d) as [[Hno ->]|[Hyes [h Hh]]];
      [|rewrite Hh].
    + specialize (IH (count + 1) ltac:(lia)).
      destruct (wait ds (count + 1)) as [[c k rest|k|e] out]; [| |done].
      * destruct IH as (pre & d' & -> & Hpre & Hp & -> & ->).
        exists (d :: pre), d'. split; [done|]. split; [by constructor|].
        split; [done|]. split; [cbn [length]; lia|].
        rewrite (hundreds_step count) by lia.
        rewrite fmap_app, <- (assoc_L (++)). f_equal.
        by case_decide.
      * destruct IH as (Hall & -> & ->).
        split; [by constructor|]. split; [cbn [length]; lia|].
        rewrite (hundreds_step count) by lia.
        rewrite fmap_app. f_equal. by case_decide.
    + exists [], d. split; [done|]. split; [constructor|]. split; [done|].
      split; [cbn; lia|]. by rewrite Z.sub_diag.
Qed.
End StartupFacts.

(** X5. The enhanced receiver's start-up loop never raises. It configures
    the session from the first datagram that is at least 12 bytes long and
    starts with the magic, whatever came before: every earlier datagram is
    counted as skipped and otherwise ignored, one progress line is printed
    for each full hundred of them, and the datagrams after the header are
    left for the streaming loop. If no datagram qualifies the loop stays
    blocked. *)
Theorem startup_takes_first_header (ds : list bytes) :
  match Startup.wait ds 0 with
  | (Startup.Configured c k rest, out) =>
      ∃ pre d,
        ds = pre ++ d :: rest
        ∧ Forall not_ext_header pre
        ∧ ¬ not_ext_header d
        ∧ Enhanced.parse_header d = Ok (Some c)
        ∧ k = Z.of_nat (length pre)
        ∧ out = (Startup.StillWaiting <$>
                   ((λ i, 100 * i) <$> seqZ 1 (k `div` 100)))
                ++ [Startup.ConfigReceived c
                      (if decide (0 < k) then Some k else None)]
  | (Startup.Blocked k, out) =>
      Forall not_ext_header ds
      ∧ k = Z.of_nat (length ds)
      ∧ out = Startup.StillWaiting <$>
                ((λ i, 100 * i) <$> seqZ 1 (k `div` 100))
  | (Startup.Crashed e, _) => False
  end.
Proof.
  pose proof (wait_spec ds 0 ltac:(lia)) as H.
  destruct (Startup.wait ds 0) as [[c k rest|k|e] out]; [| |done].
  - destruct H as (pre & d & -> & Hpre & Hp & -> & ->).
    exists pre, d. split; [done|]. split; [done|].
    split.
    { destruct (enhanced_parse_header_cases d) as [[_ E]|[? _]];
        [congruence | done]. }
    split; [done|]. split; [lia|].
    rewrite Z.add_0_l. change (0 `div` 100) with 0.
    by rewrite Z.add_0_l, Z.sub_0_r.
  - destruct H as (Hall & -> & ->).
    split; [done|]. split; [lia|].
    rewrite Z.add_0_l. change (0 `div` 100) with 0.
    by rewrite Z.add_0_l, Z.sub_0_r.
Qed.

Section SilentStartupFacts.
Import Silent SilentStartup.

(** After the first skipped datagram the loop prints progress lines only. *)
Lemma silent_wait_spec ds : ∀ count, 1 ≤ count →
  match wait ds count with
  | (Configured c k rest, out) =>
      ∃ pre d,
        ds = pre ++ d :: rest
        ∧ Forall not_basic_header pre
        ∧ parse_header d = Ok (Some c)
        ∧ k = count + Z.of_nat (length pre)
        ∧ out = (StillWaiting <$>
                   ((λ i, 100 * i) <$>
                      seqZ (count `div` 100 + 1)
                           (k `div` 100 - count `div` 100)))
                ++ [ConfigReceived c (Some k)]
  | (Blocked k, out) =>
      Forall not_basic_header ds
      ∧ k = count + Z.of_nat (length ds)
      ∧ out = StillWaiting <$>
                ((λ i, 100 * i) <$>
                   seqZ (count `div` 100 + 1) (k `div` 100 - count `div` 100))
  | (Crashed e, _) => False
  end.
Proof.
  induction ds as [|d ds IH]; intros count Hc.
  - cbn. split; [done|]. split; [lia|]. by rewrite Z.sub_diag.
  - cbn [wait].
    destruct (silent_parse_header_cases d) as [[Hno ->]|[Hyes [h Hh]]];
      [|rewrite Hh].
    + specialize (IH (count + 1) ltac:(lia)).
      rewrite (decide_False (P := count + 1 = 1)) by lia.
      destruct (wait ds (count + 1)) as [[c k rest|k|e] out]; [| |done].
      * destruct IH as (pre & d' & -> & Hpre & Hp & -> & ->).
        exists (d :: pre), d'. split; [done|]. split; [by constructor|].
        split; [done|]. split; [cbn [length]; lia|].
        rewrite (hundreds_step count) by lia.
        rewrite fmap_app, <- (assoc_L (++)).
        replace (count + Z.of_nat (length (d :: pre)))
          with (count + 1 + Z.of_nat (length pre)) by (cbn [length]; lia).
        f_equal. by case_decide.
      * destruct IH as (Hall & -> & ->).
        split; [by constructor|]. split; [cbn [length]; lia|].
        rewrite (hundreds_step count) by lia.
        rewrite fmap_app. f_equal. by case_decide.
    + exists [], d. split; [done|]. split; [constructor|]. split; [done|].
      split; [cbn; lia|]. rewrite decide_True by lia.
      by rewrite Z.sub_diag.
Qed.
End SilentStartupFacts.

(** X6. The silent receiver's start-up loop never raises and configures the
    session from the first datagram that is at least 10 bytes long and
    starts with the magic. Every earlier datagram is counted as skipped; the
    first of them is announced with its size, and one progress line is
    printed for each full hundred. If no datagram qualifies the loop stays
    blocked. *)
Theorem silent_startup_takes_first_header (ds : list bytes) :
  let announced (pre : list bytes) :=
    match pre with
    | [] => []
    | d0 :: _ => [SilentStartup.ReceivingAudio (length d0)]
    end in
  match SilentStartup.wait ds 0 with
  | (SilentStartup.Configured c k rest, out) =>
      ∃ pre d,
        ds = pre ++ d :: rest
        ∧ Forall not_basic_header pre
        ∧ ¬ not_basic_header d
        ∧ Silent.parse_header d = Ok (Some c)
        ∧ k = Z.of_nat (length pre)
        ∧ out = announced pre
                ++ (SilentStartup.StillWaiting <$>
                      ((λ i, 100 * i) <$> seqZ 1 (k `div` 100)))
                ++ [SilentStartup.ConfigReceived c
                      (if decide (0 < k) then Some k else None)]
  | (SilentStartup.Blocked k, out) =>
      Forall not_basic_header ds
      ∧ k = Z.of_nat (length ds)
      ∧ out = announced ds
              ++ (SilentStartup.StillWaiting <$>
                    ((λ i, 100 * i) <$> seqZ 1 (k `div` 100)))
  | (SilentStartup.Crashed e, _) => False
  end.
Proof.
  intros announced.
  destruct ds as [|d ds]; [by cbn|].
  cbn [SilentStartup.wait].
  destruct (silent_parse_header_cases d) as [[Hno ->]|[Hyes [h Hh]]];
    [|rewrite Hh].
  - pose proof (silent_wait_spec ds 1 ltac:(lia)) as H.
    change (0 + 1) with 1.
    rewrite (decide_True (P := 1 = 1)) by done.
    destruct (SilentStartup.wait ds 1) as [[c k rest|k|e] out]; [| |done].
    + destruct H as (pre & d' & -> & Hpre & Hp & -> & ->).
      exists (d :: pre), d'. split; [done|]. split; [by constructor|].
      split.
      { destruct (silent_parse_header_cases d') as [[_ E]|[? _]];
          [congruence | done]. }
      split; [done|]. split; [cbn [length]; lia|].
      change (1 `div` 100) with 0. rewrite Z.add_0_l, Z.sub_0_r.
      replace (Z.of_nat (length (d :: pre)))
        with (1 + Z.of_nat (length pre)) by (cbn [length]; lia).
      rewrite decide_True by lia. done.
    + destruct H as (Hall & -> & ->).
      split; [by constructor|]. split; [cbn [length]; lia|].
      change (1 `div` 100) with 0. rewrite Z.add_0_l, Z.sub_0_r.
      replace (Z.of_nat (length (d :: ds)))
        with (1 + Z.of_nat (length ds)) by (cbn [length]; lia).
      done.
  - exists [], d. split; [done|]. split; [constructor|]. split; [done|].
    split; [done|]. split; [done|]. by cbn.
Qed.

Example startup_skips_then_configures :
  let audio := audio_prefix x00 1000 2 ++ [x0a; x0b] in
  let h12 := ext_header x01 48000 2 x00 in
  let h10 := basic_header 48000 2 in
  Startup.wait [audio; h10; h12; audio] 0
  = (Startup.Configured (Enhanced.mkHeader 1 48000 2 0 "Raw") 2 [audio],
     [Startup.ConfigReceived (Enhanced.mkHeader 1 48000 2 0 "Raw") (Some 2)])
  ∧ SilentStartup.wait [audio; h10; h12; audio] 0
    = (SilentStartup.Configured (Silent.mkHeader 48000 2) 1 [h12; audio],
       [SilentStartup.ReceivingAudio 13;
        SilentStartup.ConfigReceived (Silent.mkHeader 48000 2) (Some 1)]).
Proof. vm_compute. done. Qed.

(** * The audio path of the enhanced loop *)

#[global] Instance same_audio_preorder : PreOrder same_audio.
Proof.
  split.
  - by intros st.
  - intros a b c [? ?] [? ?]. split; congruence.
Qed.

Section AudioFacts.
Import Enhanced Receiver.
Variable config : Header.
Variable decoder : option Decoder.

Lemma report_audio ev : preserves same_audio (report config ev).
Proof. unfold report. preserves_steps; by apply preserves_modify. Qed.

(** The report can only fail on the compression ratio. *)
Lemma report_raises ev st e :
  (start_time st <= last_report st)%Q →
  (report config ev st).1 = Raise e →
  e = ZeroDivisionError
  ∧ compression config = 1
  ∧ sample_rate config * channels config = 0.
Proof.
  intros Hclock.
  unfold report.
  unfold mbind, M_bind, mret, M_ret, gets, lift, print, set_last_report,
    modify, id.
  destruct (Qle_bool 2 (ev_now ev - last_report st)) eqn:Hdue; [|done].
  apply Qle_bool_iff in Hdue.
  rewrite throughput_kbps_cases.
  rewrite (elapsed_ms_nonzero 1) by (done || (change (2 ^ 1)%Q with 2%Q; lra)).
  destruct (decide (compression config = 1)); [|done].
  unfold true_div.
  destruct (Qeq_bool (of_int _) 0) eqn:Hu; [|done].
  cbn. intros [= <-]. split; [done|]. split; [done|].
  apply of_int_eq_bool_0 in Hu. lia.
Qed.

Lemma decode_and_buffer_audio ev p st :
  let r := decode_and_buffer decoder ev p st in
  stream r.2 = stream st
  ∧ match frame_of decoder ev p with
    | Some f =>
        r.1 = Ok true
        ∧ jitter_buffer r.2 = JitterBuffer.add (jitter_buffer st) f
    | None =>
        r.1 = Ok false ∧ jitter_buffer r.2 = jitter_buffer st
    end.
Proof.
  unfold decode_and_buffer, frame_of.
  case_decide; [|done].
  unfold try_except, mbind, M_bind, lift.
  by destruct (ev_decode ev).
Qed.

Lemma play_audio ev st :
  let r := play ev st in
  let jb := jitter_buffer st in
  ((JitterBuffer.size jb < JITTER_BUFFER_MIN)%nat
   ∧ r.1 = Ok tt ∧ jitter_buffer r.2 = jb ∧ stream r.2 = stream st)
  ∨ (∃ x rest,
       (JITTER_BUFFER_MIN ≤ JitterBuffer.size jb)%nat
       ∧ JitterBuffer.frames jb = x :: rest
       ∧ jitter_buffer r.2
         = JitterBuffer.mk (mkDeque (maxlen (JitterBuffer.buffer jb)) rest)
       ∧ ((x = [] ∧ r.1 = Ok tt ∧ stream r.2 = stream st)
          ∨ (x ≠ [] ∧ ev_write ev = Ok tt
             ∧ r.1 = Ok tt ∧ stream r.2 = stream st ++ [x])
          ∨ (x ≠ [] ∧ ∃ e, ev_write ev = Raise e
             ∧ r.1 = Raise e ∧ stream r.2 = stream st))).
Proof.
  cbn zeta. unfold play, jitter_get, stream_write.
  unfold mbind, M_bind, mret, M_ret, gets, lift, modify.
  destruct (decide (JitterBuffer.size (jitter_buffer st) < JITTER_BUFFER_MIN)%nat)
    as [Hlt|Hge].
  - left. split; [done|]. rewrite (get_below _ Hlt). by cbn.
  - right. destruct (get_above (jitter_buffer st)) as (x & rest & Hfr & ->);
      [lia|].
    exists x, rest. split; [lia|]. split; [done|]. cbn.
    destruct (decide (x ≠ [])) as [Hx|Hx].
    + destruct (ev_write ev) as [[]|e]; cbn.
      * split; [done|]. right. by left.
      * split; [done|]. right. right. split; [done|]. by exists e.
    + split; [done|]. left. split; [|done].
      by destruct (decide (x = [])).
Qed.

Lemma pushed_frame_skip ev :
  header_shaped 12 (ev_data ev) ∨ (length (ev_data ev) < 11)%nat →
  pushed_frame decoder ev = None.
Proof.
  intros [H|H]; unfold pushed_frame; case_decide; try done.
  unfold parse_audio_packet. by rewrite decide_True.
Qed.

Lemma pushed_frame_accept ev p :
  ¬ header_shaped 12 (ev_data ev) →
  parse_audio_packet (ev_data ev) = Ok (Some p) →
  pushed_frame decoder ev = frame_of decoder ev p.
Proof.
  intros Hh Hp. unfold pushed_frame. by rewrite decide_False, Hp.
Qed.

(** Appending to a buffer that holds at most two frames evicts nothing. *)
Lemma frames_add_small jb f :
  maxlen (JitterBuffer.buffer jb) = JITTER_BUFFER_SIZE →
  (length (JitterBuffer.frames jb) ≤ 2)%nat →
  JitterBuffer.frames (JitterBuffer.add jb f) = JitterBuffer.frames jb ++ [f].
Proof.
  intros Hm Hl. rewrite frames_add, Hm, length_app. cbn [length].
  rewrite decide_False; [done|]. unfold JITTER_BUFFER_SIZE. lia.
Qed.

Lemma lagging_same pushed st st' :
  same_audio st st' → lagging pushed st → lagging pushed st'.
Proof. intros [Hj Hs] H. unfold lagging. by rewrite Hj, Hs. Qed.

(** One iteration, as far as the audio path and exceptions are concerned. *)
Lemma loop_body_lagging ev st pushed :
  (start_time st <= last_report st)%Q →
  lagging pushed st →
  let r := loop_body config decoder ev st in
  let pushed' := pushed ++ option_list (pushed_frame decoder ev) in
  match r.1 with
  | Ok _ => lagging pushed' r.2
  | Raise e =>
      (JitterBuffer.size (jitter_buffer r.2) ≤ 2)%nat
      ∧ stream r.2 `prefix_of` filter (λ x, x ≠ []) pushed'
      ∧ (ev_write ev = Raise e
         ∨ (e = ZeroDivisionError
            ∧ compression config = 1
            ∧ sample_rate config * channels config = 0))
  end.
Proof.
  intros Hclock Hlag. cbn zeta.
  destruct (decide (header_shaped 12 (ev_data ev)
                    ∨ (length (ev_data ev) < 11)%nat)) as [Hskip|Hacc].
  { rewrite loop_body_skip, pushed_frame_skip by done. cbn.
    by rewrite (right_id_L [] (++)). }
  destruct (parse_audio_packet_cases (ev_data ev)) as [[? _]|[_ [p Hp]]];
    [exfalso; apply Hacc; by right|].
  assert (Hh : ¬ header_shaped 12 (ev_data ev)) by (intros ?; apply Hacc; by left).
  rewrite (loop_body_accept _ _ _ _ p), (pushed_frame_accept _ p) by done.
  set (st0 := record_latency _ _).
  assert (Hclock0 : (start_time st0 <= last_report st0)%Q) by done.
  assert (Hlag0 : lagging pushed st0) by done.
  clearbody st0. clear Hclock Hlag st.
  unfold mbind, M_bind, mret, M_ret.
  pose proof (decode_and_buffer_audio ev p st0) as [Hs1 Hf1].
  pose proof (decode_and_buffer_quiet decoder ev p st0) as ((_&_&_&_&Ht1)&Hl1&_).
  destruct (decode_and_buffer decoder ev p st0) as [r1 st1]. cbn [fst snd] in *.
  destruct (frame_of decoder ev p) as [f|]; destruct Hf1 as [-> Hj1].
  2:{ cbn. rewrite (right_id_L [] (++)). by apply (lagging_same _ st0). }
  change (option_list (Some f)) with [f].
  destruct Hlag0 as (Hmax & played & Hpushed & Hstream & Hlen).
  assert (Hsmall : (length (JitterBuffer.frames (jitter_buffer st0)) ≤ 2)%nat)
    by lia.
  assert (Hfr1 : JitterBuffer.frames (jitter_buffer st1)
                 = JitterBuffer.frames (jitter_buffer st0) ++ [f])
    by (rewrite Hj1; by apply frames_add_small).
  assert (Hmax1 : maxlen (JitterBuffer.buffer (jitter_buffer st1))
                  = JITTER_BUFFER_SIZE) by (by rewrite Hj1).
  pose proof (play_audio ev st1) as Hplay.
  pose proof (play_quiet ev st1) as ((_&_&_&_&Ht2)&Hl2&_).
  destruct (play ev st1) as [r2 st2]. cbn [fst snd] in *.
  assert (Hclock2 : (start_time st2 <= last_report st2)%Q)
    by (by rewrite Ht2, Hl2, Ht1, Hl1).
  assert (Hafter : ∀ pushed2, lagging pushed2 st2 →
            match (report config ev st2).1 with
            | Ok _ => lagging pushed2 (report config ev st2).2
            | Raise e =>
                (JitterBuffer.size (jitter_buffer (report config ev st2).2) ≤ 2)%nat
                ∧ stream (report config ev st2).2
                    `prefix_of` filter (λ x, x ≠ []) pushed2
                ∧ (ev_write ev = Raise e
                   ∨ (e = ZeroDivisionError
                      ∧ compression config = 1
                      ∧ sample_rate config * channels config = 0))
            end).
  { intros pushed2 Hlag2.
    pose proof (report_audio ev st2) as Hsame.
    pose proof (report_raises ev st2) as Hraise.
    destruct (report config ev st2) as [[[]|e] st3]; cbn [fst snd] in *.
    - by apply (lagging_same _ st2).
    - apply (lagging_same _ _ _ Hsame) in Hlag2
        as (_ & played2 & -> & -> & Hlen2).
      split; [unfold JitterBuffer.size, deque_len;
              fold (JitterBuffer.frames (jitter_buffer st3)); lia|].
      split; [rewrite filter_app; by apply prefix_app_r|].
      right. by apply Hraise. }
  destruct Hplay as [(Hlt & -> & Hj2 & Hs2)
                    |(x & rest & Hge & Hx & Hj2 & Hcases)].
  - (* below the watermark: nothing is taken out *)
    apply Hafter. split; [by rewrite Hj2|].
    unfold JitterBuffer.size, deque_len in Hlt.
    fold (JitterBuffer.frames (jitter_buffer st1)) in Hlt.
    rewrite Hfr1, length_app in Hlt. cbn [length] in Hlt.
    unfold JITTER_BUFFER_MIN in Hlt.
    exists played. rewrite Hj2, Hfr1, Hs2, Hs1.
    split; [by rewrite Hpushed, <- (assoc_L (++))|]. split; [done|].
    rewrite !length_app. cbn [length]. lia.
  - (* the oldest frame is taken out *)
    unfold JitterBuffer.size, deque_len in Hge.
    fold (JitterBuffer.frames (jitter_buffer st1)) in Hge.
    rewrite Hfr1, length_app in Hge. cbn [length] in Hge.
    unfold JITTER_BUFFER_MIN in Hge.
    assert (Hrest : length rest = 2%nat).
    { apply (f_equal length) in Hx.
      rewrite Hfr1, length_app in Hx. cbn [length] in Hx. lia. }
    assert (Hnew : pushed ++ [f] = (played ++ [x]) ++ rest).
    { rewrite Hpushed, <- !(assoc_L (++)). f_equal. cbn [app].
      by rewrite <- Hx, Hfr1. }
    assert (Hlag2 : ∀ str, str = filter (λ y, y ≠ []) (played ++ [x]) →
              stream st2 = str → lagging (pushed ++ [f]) st2).
    { intros str -> Hstr. split; [by rewrite Hj2|].
      exists (played ++ [x]). rewrite Hj2. cbn [JitterBuffer.frames
        JitterBuffer.buffer items].
      split; [done|]. split; [done|].
      rewrite Hrest, length_app. cbn [length]. lia. }
    destruct Hcases as [(-> & -> & Hs2)
                       |[(Hne & Hw & -> & Hs2)|(Hne & e & Hw & -> & Hs2)]].
    + apply Hafter, (Hlag2 _ eq_refl).
      rewrite Hs2, Hs1, Hstream, filter_app.
      rewrite (filter_cons_False _ []) by (by intros H; apply H).
      by rewrite filter_nil, (right_id_L [] (++)).
    + apply Hafter, (Hlag2 _ eq_refl).
      rewrite Hs2, Hs1, Hstream, filter_app.
      by rewrite (filter_cons_True _ x) by done.
    + cbn [fst snd]. split.
      { rewrite Hj2. unfold JitterBuffer.size, deque_len. cbn. lia. }
      split; [|by left].
      rewrite Hs2, Hs1, Hstream, Hnew, <- (assoc_L (++)), filter_app.
      by apply prefix_app_r.
Qed.

Lemma lagging_init t0 : lagging [] (init_state t0).
Proof. split; [done|]. by exists []. Qed.

Lemma lagging_bound pushed st :
  lagging pushed st →
  (JitterBuffer.size (jitter_buffer st) ≤ 2)%nat
  ∧ stream st `prefix_of` filter (λ x, x ≠ []) pushed.
Proof.
  intros (_ & played & -> & -> & Hlen). split.
  - unfold JitterBuffer.size, deque_len.
    fold (JitterBuffer.frames (jitter_buffer st)). lia.
  - rewrite filter_app. by apply prefix_app_r.
Qed.

(** A whole run, as far as the audio path and exceptions are concerned. *)
Lemma run_lagging evs : ∀ st pushed,
  (start_time st <= last_report st)%Q →
  lagging pushed st →
  let r := run config decoder evs st in
  let pushed' := pushed ++ omap (pushed_frame decoder) evs in
  match r.1 with
  | Ok _ => lagging pushed' r.2
  | Raise e =>
      (JitterBuffer.size (jitter_buffer r.2) ≤ 2)%nat
      ∧ stream r.2 `prefix_of` filter (λ x, x ≠ []) pushed'
      ∧ ((∃ ev, ev ∈ evs ∧ ev_write ev = Raise e)
         ∨ (e = ZeroDivisionError
            ∧ compression config = 1
            ∧ sample_rate config * channels config = 0))
  end.
Proof.
  induction evs as [|ev evs IH]; intros st pushed Hclock Hlag; cbn zeta.
  { cbn. by rewrite (right_id_L [] (++)). }
  rewrite run_cons.
  assert (Hpushed : pushed ++ omap (pushed_frame decoder) (ev :: evs)
                    = (pushed ++ option_list (pushed_frame decoder ev))
                        ++ omap (pushed_frame decoder) evs).
  { rewrite <- (assoc_L (++)). f_equal. cbn.
    by destruct (pushed_frame decoder ev). }
  rewrite Hpushed.
  pose proof (loop_body_lagging ev st pushed Hclock Hlag) as Hstep.
  destruct (loop_body_report config decoder ev st Hclock)
    as (_ & _ & Hclock1 & _).
  cbn zeta in Hstep.
  destruct (loop_body config decoder ev st) as [[[]|e] st1];
    cbn [fst snd] in *.
  - specialize (IH st1 _ Hclock1 Hstep). cbn zeta in IH.
    destruct (run config decoder evs st1) as [[[]|e] st2];
      cbn [fst snd] in *; [done|].
    destruct IH as (Hsz & Hpre & Hwhy).
    split; [done|]. split; [done|].
    destruct Hwhy as [(ev' & Hin & Hw)|Hz]; [left|by right].
    exists ev'. split; [by right | done].
  - destruct Hstep as (Hsz & Hpre & Hwhy).
    split; [done|]. split.
    + etrans; [exact Hpre|].
      rewrite (filter_app _ (pushed ++ _)). by apply prefix_app_r.
    + destruct Hwhy as [Hw|Hz]; [left|by right].
      exists ev. split; [by left | done].
Qed.
End AudioFacts.

(** X7. In the streaming loop the jitter buffer never holds more than two
    frames between iterations, so it never reaches its capacity of 10 and
    never evicts; and whatever happens, the audio stream has received a
    prefix of the non-empty frames that went into the buffer, in arrival
    order: no frame is duplicated, reordered or skipped in the middle. *)
Theorem streaming_buffer_small_stream_ordered
    (config : Enhanced.Header) (decoder : option Receiver.Decoder)
    (evs : list Receiver.Event) (t0 : Q) :
  let st := (Receiver.run config decoder evs (Receiver.init_state t0)).2 in
  (JitterBuffer.size (Receiver.jitter_buffer st) ≤ 2)%nat
  ∧ Receiver.stream st
      `prefix_of` filter (λ x, x ≠ []) (omap (pushed_frame decoder) evs).
Proof.
  cbn zeta.
  pose proof (run_lagging config decoder evs (Receiver.init_state t0) []
                ltac:(apply Qle_refl) (lagging_init t0)) as H.
  cbn zeta in H. cbn [app] in H.
  destruct (Receiver.run config decoder evs (Receiver.init_state t0))
    as [[[]|e] st]; cbn [fst snd] in *.
  - by apply lagging_bound.
  - by destruct H as (? & ? & _).
Qed.

(** X8. When a run of the streaming loop ends without an exception,
    playback lags the arrivals by exactly two frames: the last two frames
    pushed (or fewer, if fewer arrived) are still buffered, and every
    earlier frame has been written to the audio stream in arrival order,
    except empty frames, which are taken out of the buffer but not
    written. *)
Theorem playback_lags_two_frames
    (config : Enhanced.Header) (decoder : option Receiver.Decoder)
    (evs : list Receiver.Event) (t0 : Q) (st : Receiver.State) :
  Receiver.run config decoder evs (Receiver.init_state t0) = (Ok tt, st) →
  let pushed := omap (pushed_frame decoder) evs in
  JitterBuffer.frames (Receiver.jitter_buffer st)
    = drop (length pushed - 2) pushed
  ∧ Receiver.stream st = filter (λ x, x ≠ []) (take (length pushed - 2) pushed).
Proof.
  intros Hrun. cbn zeta.
  pose proof (run_lagging config decoder evs (Receiver.init_state t0) []
                ltac:(apply Qle_refl) (lagging_init t0)) as H.
  cbn zeta in H. cbn [app] in H. rewrite Hrun in H. cbn [fst snd] in H.
  destruct H as (_ & played & Hp & Hs & Hlen).
  assert (Hpl : length played
                = (length (omap (pushed_frame decoder) evs) - 2)%nat).
  { apply (f_equal length) in Hp. rewrite length_app in Hp. lia. }
  rewrite Hp at 2 4. rewrite <- Hpl.
  by rewrite drop_app_length, take_app_length.
Qed.

Lemma playback_lags_two_frames_witness :
  let config := Enhanced.mkHeader 1 48000 2 0 "Raw" in
  let frame (b : byte) :=
    Receiver.mkEvent (audio_prefix x00 1000 1 ++ [b]) 6000 (Ok []) (Ok tt) 1 in
  let empty :=
    Receiver.mkEvent (audio_prefix x00 1000 0) 6000 (Ok []) (Ok tt) 1 in
  let evs := [frame x01; empty; frame x02; frame x03; frame x04] in
  ∃ st,
    Receiver.run config None evs (Receiver.init_state 0) = (Ok tt, st)
    ∧ JitterBuffer.frames (Receiver.jitter_buffer st) = [[x03]; [x04]]
    ∧ Receiver.stream st = [[x01]; [x02]].
Proof.
  intros config frame empty evs.
  eexists. split; [vm_compute; reflexivity|].
  apply (playback_lags_two_frames config None evs 0). vm_compute. reflexivity.
Defined.

(** X9. No datagram can make the streaming loop fail. A run that starts at
    session creation ends in an exception only if [stream.write] raised it,
    or if it is the division by zero in the compression ratio of a session
    whose header announced compression together with a sample rate or a
    channel count of zero. Parse errors, decode errors and the throughput
    division never end the loop. *)
Theorem streaming_loop_failures
    (config : Enhanced.Header) (decoder : option Receiver.Decoder)
    (evs : list Receiver.Event) (t0 : Q) (e : exn) :
  (Receiver.run config decoder evs (Receiver.init_state t0)).1 = Raise e →
  (∃ ev, ev ∈ evs ∧ Receiver.ev_write ev = Raise e)
  ∨ (e = ZeroDivisionError
     ∧ Enhanced.compression config = 1
     ∧ Enhanced.sample_rate config * Enhanced.channels config = 0).
Proof.
  intros Hrun.
  pose proof (run_lagging config decoder evs (Receiver.init_state t0) []
                ltac:(apply Qle_refl) (lagging_init t0)) as H.
  cbn zeta in H. rewrite Hrun in H. by destruct H as (_ & _ & ?).
Qed.

Lemma streaming_loop_failures_witness :
  let config := Enhanced.mkHeader 1 0 2 1 "Opus" in
  let ev := Receiver.mkEvent (audio_prefix x00 1000 1 ++ [x01])
              6000 (Ok []) (Ok tt) 2 in
  (Receiver.run config None [ev] (Receiver.init_state 0)).1
    = Raise ZeroDivisionError
  ∧ ((∃ ev', ev' ∈ [ev] ∧ Receiver.ev_write ev' = Raise ZeroDivisionError)
     ∨ (ZeroDivisionError = ZeroDivisionError
        ∧ Enhanced.compression config = 1
        ∧ Enhanced.sample_rate config * Enhanced.channels config = 0)).
Proof.
  intros config ev. split; [vm_compute; reflexivity|].
  apply (streaming_loop_failures config None [ev] 0 ZeroDivisionError).
  vm_compute. reflexivity.
Defined.

(** * Failures of the silent loop *)

Section SilentFailures.
Import Silent SilentReceiver.
Variable config : Header.

Lemma inject_Z_eq_bool_0 z : Qeq_bool (inject_Z z) 0 = true ↔ z = 0.
Proof.
  rewrite Qeq_bool_iff. unfold Qeq. cbn. lia.
Qed.

Lemma silent_loop_body_raises ev st e :
  (start_time st <= last_report st)%Q →
  (loop_body config ev st).1 = Raise e →
  e = ZeroDivisionError ∧ (sample_rate config = 0 ∨ channels config = 0).
Proof.
  intros Hclock.
  unfold loop_body. case_decide; [done|].
  unfold report.
  unfold mbind, M_bind, mret, M_ret, gets, lift, print, set_last_report,
    modify, id.
  change (last_report (count_packet _ st)) with (last_report st).
  destruct (Qle_bool 2 (ev_now ev - last_report st)) eqn:Hdue; [|done].
  apply Qle_bool_iff in Hdue.
  cbv beta iota.
  change (start_time (count_packet _ st)) with (start_time st).
  rewrite throughput_kbps_cases.
  rewrite (elapsed_ms_nonzero 1) by (done || (change (2 ^ 1)%Q with 2%Q; lra)).
  unfold true_div.
  destruct (Qeq_bool (inject_Z (sample_rate config)) 0) eqn:Hsr.
  { apply inject_Z_eq_bool_0 in Hsr. cbn. intros [= He].
    split; [done | by left]. }
  destruct (Qeq_bool (of_int (channels config)) 0) eqn:Hch; [|done].
  apply of_int_eq_bool_0 in Hch. cbn. intros [= He].
  split; [done | by right].
Qed.

Lemma silent_run_raises evs : ∀ st e,
  (start_time st <= last_report st)%Q →
  (run config evs st).1 = Raise e →
  e = ZeroDivisionError ∧ (sample_rate config = 0 ∨ channels config = 0).
Proof.
  induction evs as [|ev evs IH]; intros st e Hclock; [done|].
  rewrite silent_run_cons.
  pose proof (silent_loop_body_raises ev st) as Hstep.
  destruct (silent_loop_body_report config ev st Hclock)
    as (_ & _ & Hclock1 & _).
  destruct (loop_body config ev st) as [[[]|e1] st1]; cbn [fst snd] in *.
  - by apply IH.
  - intros He. by apply Hstep.
Qed.

(** With a zero in the header, the first report that is due fails, after
    the datagram has been counted and before anything is printed. *)
Lemma silent_loop_body_zero ev st :
  sample_rate config = 0 ∨ channels config = 0 →
  ¬ header_shaped 10 (ev_data ev) →
  (2 <= ev_now ev - last_report st)%Q →
  (start_time st <= last_report st)%Q →
  loop_body config ev st
  = (Raise ZeroDivisionError, count_packet (length (ev_data ev)) st).
Proof.
  intros Hzero Hh Hdue Hclock.
  unfold loop_body. rewrite decide_False by done.
  unfold report.
  unfold mbind, M_bind, mret, M_ret, gets, lift, print, set_last_report,
    modify, id.
  change (last_report (count_packet _ st)) with (last_report st).
  rewrite (proj2 (Qle_bool_iff _ _) Hdue).
  change (start_time (count_packet _ st)) with (start_time st).
  rewrite throughput_kbps_cases.
  rewrite (elapsed_ms_nonzero 1) by (done || (change (2 ^ 1)%Q with 2%Q; lra)).
  unfold true_div.
  destruct (Qeq_bool (inject_Z (sample_rate config)) 0) eqn:Hsr; [done|].
  destruct Hzero as [Hzero|Hzero].
  { apply inject_Z_eq_bool_0 in Hzero. congruence. }
  apply of_int_eq_bool_0 in Hzero. by rewrite Hzero.
Qed.

(** A datagram that arrives less than two seconds after the last report is
    counted, and that is all. *)
Lemma silent_loop_body_not_due ev st :
  ¬ header_shaped 10 (ev_data ev) →
  (ev_now ev - last_report st < 2)%Q →
  loop_body config ev st = (Ok tt, count_packet (length (ev_data ev)) st).
Proof.
  intros Hh Hdue.
  unfold loop_body. rewrite decide_False by done.
  unfold report.
  unfold mbind, M_bind, mret, M_ret, gets, lift, modify.
  change (last_report (count_packet _ st)) with (last_report st).
  destruct (Qle_bool 2 (ev_now ev - last_report st)) eqn:E; [|done].
  apply Qle_bool_iff in E. lra.
Qed.

Lemma counted_packets_silent_app evs1 evs2 :
  counted_packets_silent (evs1 ++ evs2)
  = counted_packets_silent evs1 + counted_packets_silent evs2.
Proof.
  unfold counted_packets_silent.
  induction evs1 as [|ev evs1 IH]; cbn; [done|]. rewrite IH. lia.
Qed.

Lemma received_bytes_silent_app evs1 evs2 :
  received_bytes_silent (evs1 ++ evs2)
  = received_bytes_silent evs1 + received_bytes_silent evs2.
Proof.
  unfold received_bytes_silent.
  induction evs1 as [|ev evs1 IH]; cbn; [done|]. rewrite IH. lia.
Qed.

(** A run over repeated headers and over datagrams for which no report is
    due only counts. *)
Lemma silent_run_not_due pre : ∀ evs st,
  Forall (λ ev, header_shaped 10 (ev_data ev)
                ∨ (ev_now ev - last_report st < 2)%Q) pre →
  run config (pre ++ evs) st
  = run config evs
      (mkState (packet_count st + counted_packets_silent pre)
         (bytes_received st + received_bytes_silent pre)
         (start_time st) (last_report st) (stdout st)).
Proof.
  induction pre as [|ev pre IH]; intros evs st Hpre.
  { cbn. rewrite !Z.add_0_r. by destruct st. }
  apply Forall_cons in Hpre as [Hev Hpre].
  cbn [app]. rewrite silent_run_cons.
  change (counted_packets_silent (ev :: pre))
    with ((if counted_silent (ev_data ev) then 1 else 0)
          + counted_packets_silent pre).
  change (received_bytes_silent (ev :: pre))
    with ((if counted_silent (ev_data ev)
           then Z.of_nat (length (ev_data ev)) else 0)
          + received_bytes_silent pre).
  unfold counted_silent.
  destruct (decide (header_shaped 10 (ev_data ev))) as [Hh|Hh].
  - rewrite bool_decide_eq_false_2 by (by intros H; apply H).
    unfold loop_body. rewrite decide_True by done. cbn.
    rewrite IH by done. by rewrite !Z.add_0_l.
  - rewrite bool_decide_eq_true_2 by done.
    destruct Hev as [?|Hdue]; [done|].
    rewrite silent_loop_body_not_due by done.
    rewrite IH by done. cbn. by rewrite !Z.add_assoc.
Qed.
End SilentFailures.

(** X10. The silent receiver's monitoring loop, run from session creation,
    can only end in a division by zero, and only in a session whose header
    announced a sample rate or a channel count of zero; no datagram,
    whatever its bytes, makes it fail. *)
Theorem silent_loop_failures
    (config : Silent.Header) (evs : list SilentReceiver.Event)
    (t0 : Q) (e : exn) :
  (SilentReceiver.run config evs (SilentReceiver.init_state t0)).1 = Raise e →
  e = ZeroDivisionError
  ∧ (Silent.sample_rate config = 0 ∨ Silent.channels config = 0).
Proof.
  apply silent_run_raises. apply Qle_refl.
Qed.

Lemma silent_loop_failures_witness :
  let config := Silent.mkHeader 48000 0 in
  let ev := SilentReceiver.mkEvent (audio_prefix x00 1000 1 ++ [x01]) 2 in
  (SilentReceiver.run config [ev] (SilentReceiver.init_state 0)).1
    = Raise ZeroDivisionError
  ∧ ZeroDivisionError = ZeroDivisionError
  ∧ (Silent.sample_rate config = 0 ∨ Silent.channels config = 0).
Proof.
  intros config ev. split; [vm_compute; reflexivity|].
  apply (silent_loop_failures config [ev] 0 ZeroDivisionError).
  vm_compute. reflexivity.
Defined.

(** X11. A header with sample rate 0 or channel count 0 is accepted by the
    silent receiver and ends its session at the first report that is due:
    the datagrams that arrive less than two seconds after the session
    started are counted (repeated headers are skipped); the first datagram
    that is not a repeated header and arrives two seconds or more after the
    start is counted as well, then a division raises ZeroDivisionError
    before any report line is printed and the loop ends, whatever
    datagrams would follow. *)
Theorem silent_zero_header_ends_session
    (sr ch : Z) (rest : bytes) (t0 : Q)
    (pre : list SilentReceiver.Event) (ev : SilentReceiver.Event)
    (post : list SilentReceiver.Event) :
  0 ≤ sr < 2 ^ 32 → 0 ≤ ch < 2 ^ 16 → sr = 0 ∨ ch = 0 →
  Forall (λ e, header_shaped 10 (SilentReceiver.ev_data e)
               ∨ (SilentReceiver.ev_now e - t0 < 2)%Q) pre →
  ¬ header_shaped 10 (SilentReceiver.ev_data ev) →
  (2 <= SilentReceiver.ev_now ev - t0)%Q →
  ∃ config,
    Silent.parse_header (basic_header sr ch ++ rest) = Ok (Some config)
    ∧ SilentReceiver.run config (pre ++ ev :: post)
        (SilentReceiver.init_state t0)
      = (Raise ZeroDivisionError,
         SilentReceiver.mkState
           (counted_packets_silent (pre ++ [ev]))
           (received_bytes_silent (pre ++ [ev])) t0 t0 []).
Proof.
  intros Hsr Hch Hzero Hpre Hh Hdue.
  exists (Silent.mkHeader sr ch).
  split; [by apply silent_parse_header_accepts|].
  rewrite silent_run_not_due by done.
  rewrite silent_run_cons, silent_loop_body_zero; try done; [|apply Qle_refl].
  rewrite counted_packets_silent_app, received_bytes_silent_app.
  change (counted_packets_silent [ev])
    with ((if counted_silent (SilentReceiver.ev_data ev) then 1 else 0) + 0).
  change (received_bytes_silent [ev])
    with ((if counted_silent (SilentReceiver.ev_data ev)
           then Z.of_nat (length (SilentReceiver.ev_data ev)) else 0) + 0).
  unfold counted_silent. rewrite bool_decide_eq_true_2 by done.
  unfold SilentReceiver.count_packet. cbn. by rewrite !Z.add_0_r.
Qed.

(** A 12-byte datagram one second after the start, a repeated header, and a
    12-byte datagram two seconds after the start; a fourth datagram is
    never looked at. *)
Lemma silent_zero_header_ends_session_witness :
  let sev now :=
    SilentReceiver.mkEvent (audio_prefix x00 1000 1 ++ [x01]) now in
  let hdr := SilentReceiver.mkEvent (basic_header 0 2) 1 in
  ∃ config,
    Silent.parse_header (basic_header 0 2 ++ []) = Ok (Some config)
    ∧ SilentReceiver.run config ([sev 1%Q; hdr] ++ sev 2%Q :: [sev 5%Q])
        (SilentReceiver.init_state 0)
      = (Raise ZeroDivisionError, SilentReceiver.mkState 2 24 0 0 []).
Proof.
  intros sev hdr.
  apply (silent_zero_header_ends_session 0 2 [] 0 [sev 1%Q; hdr] (sev 2%Q)
           [sev 5%Q]).
  - lia.
  - lia.
  - by left.
  - apply Forall_cons. split; [right; by vm_compute|].
    apply Forall_cons. split; [left; by vm_compute | constructor].
  - intros [Hlen _]. vm_compute in Hlen. discriminate.
  - vm_compute. discriminate.
Defined.

(** * The contents of the periodic report *)

Section ReportContents.
Import Enhanced Receiver.
Variable config : Header.
Variable decoder : option Decoder.

Lemma report_fields ev st :
  (start_time st <= last_report st)%Q →
  let r := report config ev st in
  (stdout r.2 = stdout st ∧ last_report r.2 = last_report st)
  ∨ (∃ kbps,
       stdout r.2
       = stdout st
           ++ [Report (packet_count st) kbps
                 (average_latency_ms (total_latency_us st) (latency_count st))
                 (JitterBuffer.size (jitter_buffer st))
                 (ratio_of config kbps)]
       ∧ r.1 = Ok tt
       ∧ last_report r.2 = ev_now ev
       ∧ (2 <= ev_now ev - last_report st)%Q).
Proof.
  intros Hclock. cbn zeta.
  unfold report, average_latency_ms, ratio_of.
  unfold mbind, M_bind, mret, M_ret, gets, lift, print, set_last_report,
    modify, id.
  destruct (Qle_bool 2 (ev_now ev - last_report st)) eqn:Hdue; [|by left].
  apply Qle_bool_iff in Hdue.
  rewrite throughput_kbps_cases.
  destruct (Qeq_bool (fmul _ 1000) 0); [by left|].
  destruct (decide (compression config = 1)).
  - unfold true_div. destruct (Qeq_bool (of_int _) 0); cbn; [by left|].
    right. eexists. split; [reflexivity|]. done.
  - cbn. right. eexists. split; [reflexivity|]. done.
Qed.

Lemma not_report_elem (ls : list line) :
  Forall (λ l, ¬ is_report l) ls → reports ls = 0%nat.
Proof.
  induction 1 as [|l ls Hl _ IH]; [done|].
  unfold reports in *. cbn. by destruct l.
Qed.

Lemma reports_app ls1 ls2 : reports (ls1 ++ ls2) = (reports ls1 + reports ls2)%nat.
Proof. unfold reports. by rewrite omap_app, length_app. Qed.

(** What one iteration prints, and what it does to the report clock. *)
Lemma loop_body_shape ev st :
  (start_time st <= last_report st)%Q →
  let r := loop_body config decoder ev st in
  ∃ warn,
    Forall (λ l, ¬ is_report l) warn
    ∧ ((stdout r.2 = stdout st ++ warn ∧ last_report r.2 = last_report st)
       ∨ (∃ kbps,
            stdout r.2
            = stdout st ++ warn
                ++ [Report (packet_count r.2) kbps
                      (average_latency_ms (total_latency_us r.2)
                         (latency_count r.2))
                      (JitterBuffer.size (jitter_buffer r.2))
                      (ratio_of config kbps)]
            ∧ r.1 = Ok tt
            ∧ counted (ev_data ev) = true
            ∧ last_report r.2 = ev_now ev
            ∧ (2 <= ev_now ev - last_report st)%Q)).
Proof.
  intros Hclock. cbn zeta.
  destruct (decide (header_shaped 12 (ev_data ev)
                    ∨ (length (ev_data ev) < 11)%nat)) as [Hskip|Hacc].
  { rewrite loop_body_skip by done. exists []. split; [constructor|].
    left. by rewrite (right_id_L [] (++)). }
  destruct (parse_audio_packet_cases (ev_data ev)) as [[? _]|[_ [p Hp]]];
    [exfalso; apply Hacc; by right|].
  assert (Hh : ¬ header_shaped 12 (ev_data ev)) by (intros ?; apply Hacc; by left).
  rewrite (loop_body_accept _ _ _ _ p) by done.
  set (st0 := record_latency _ _).
  assert (Hclock0 : (start_time st0 <= last_report st0)%Q) by done.
  change (stdout st) with (stdout st0).
  change (last_report st) with (last_report st0).
  clearbody st0. clear Hclock st.
  unfold mbind, M_bind, mret, M_ret.
  pose proof (decode_and_buffer_quiet decoder ev p st0)
    as ((_&_&_&_&Ht1) & Hl1 & ls1 & Ho1 & Hf1).
  destruct (decode_and_buffer decoder ev p st0) as [[[|]|e] st1];
    cbn [fst snd] in *.
  2,3: exists ls1; split; [done|]; by left.
  pose proof (play_quiet ev st1) as ((_&_&_&_&Ht2) & Hl2 & ls2 & Ho2 & Hf2).
  destruct (play ev st1) as [[[]|e] st2]; cbn [fst snd] in *.
  2:{ exists (ls1 ++ ls2). split; [by apply Forall_app|]. left.
      split; [by rewrite Ho2, Ho1, (assoc_L (++)) | congruence]. }
  pose proof (report_fields ev st2 ltac:(by rewrite Ht2, Hl2, Ht1, Hl1)) as Hrep.
  pose proof (report_counters config ev st2) as (Hc1 & _ & Hc3 & Hc4 & _).
  pose proof (report_audio config ev st2) as [Ha _].
  cbn zeta in Hrep.
  exists (ls1 ++ ls2). split; [by apply Forall_app|].
  destruct Hrep as [[Ho3 Hl3]|(kbps & Ho3 & Hr & Hl3 & Hdue)].
  - left. split; [by rewrite Ho3, Ho2, Ho1, (assoc_L (++)) | congruence].
  - right. exists kbps. rewrite Hc1, Hc3, Hc4, Ha.
    split; [by rewrite Ho3, Ho2, Ho1, !(assoc_L (++))|].
    split; [done|]. split; [by apply (counted_true _ p)|].
    split; [done|]. by rewrite <- Hl1, <- Hl2.
Qed.

Lemma counted_packets_snoc h ev :
  counted_packets (h ++ [ev])
  = counted_packets h + (if counted (ev_data ev) then 1 else 0).
Proof.
  unfold counted_packets. induction h as [|x h IH]; cbn; [lia|].
  rewrite IH. lia.
Qed.

Lemma latency_total_snoc h ev :
  latency_total (h ++ [ev]) = latency_total h + sample ev.
Proof.
  unfold latency_total. induction h as [|x h IH]; cbn; [lia|].
  rewrite IH. lia.
Qed.

Lemma counted_packets_nonneg h : 0 ≤ counted_packets h.
Proof.
  unfold counted_packets. induction h as [|x h IH]; cbn; [lia|].
  destruct (counted (ev_data x)); lia.
Qed.

Lemma pushed_frame_snoc h ev :
  omap (pushed_frame decoder) (h ++ [ev])
  = omap (pushed_frame decoder) h ++ option_list (pushed_frame decoder ev).
Proof.
  rewrite omap_app. by f_equal.
Qed.

(** The report clock and the rate of reports, whatever the outcome. *)
Lemma loop_body_rate ev st :
  (start_time st <= last_report st)%Q →
  (inject_Z (2 * Z.of_nat (reports (stdout st)))
   <= last_report st - start_time st)%Q →
  let r := loop_body config decoder ev st in
  (start_time r.2 <= last_report r.2)%Q
  ∧ (inject_Z (2 * Z.of_nat (reports (stdout r.2)))
     <= last_report r.2 - start_time r.2)%Q
  ∧ start_time r.2 = start_time st
  ∧ (last_report r.2 = last_report st ∨ last_report r.2 = ev_now ev).
Proof.
  intros Hclock Hrate. cbn zeta.
  destruct (loop_body_report config decoder ev st Hclock)
    as (Hs & _ & Hclock1 & _).
  destruct (loop_body_shape ev st Hclock) as (warn & Hwarn & Hshape).
  split; [done|]. rewrite Hs.
  destruct Hshape as [[Ho Hl]|(kbps & Ho & _ & _ & Hl & Hdue)].
  - split; [|by auto].
    by rewrite Ho, reports_app, (not_report_elem warn), Nat.add_0_r, Hl.
  - split; [|by auto].
    rewrite Ho, !reports_app, (not_report_elem warn) by done.
    change (reports [_]) with 1%nat. rewrite Hl.
    replace (2 * Z.of_nat (reports (stdout st) + (0 + 1)))
      with (2 * Z.of_nat (reports (stdout st)) + 2) by lia.
    rewrite inject_Z_plus. change (inject_Z 2) with 2%Q. lra.
Qed.

(** One iteration that returns re-establishes the session invariant. *)
Lemma session_step h ev st :
  session_inv decoder h st →
  (loop_body config decoder ev st).1 = Ok tt →
  session_inv decoder (h ++ [ev]) (loop_body config decoder ev st).2.
Proof.
  intros [Hclock Hpk Hlc Hlt Haudio Hrate] Hok.
  destruct (loop_body_rate ev st Hclock Hrate) as (Hclock1 & Hrate1 & _ & _).
  pose proof (loop_body_lagging config decoder ev st _ Hclock Haudio) as Hlag.
  cbn zeta in Hlag. rewrite Hok in Hlag.
  pose proof (loop_body_counters config decoder ev st) as Hcount.
  cbn zeta in Hcount.
  split; try done.
  - rewrite counted_packets_snoc.
    destruct Hcount as [[Hskip ->]|(p & Hh & Hp & -> & _)].
    + rewrite counted_false by done. lia.
    + rewrite (counted_true _ p) by done. lia.
  - rewrite counted_packets_snoc.
    destruct Hcount as [[Hskip ->]|(p & Hh & Hp & _ & _ & _ & -> & _)].
    + rewrite counted_false by done. lia.
    + rewrite (counted_true _ p) by done. lia.
  - rewrite latency_total_snoc. unfold sample.
    destruct Hcount as [[Hskip ->]|(p & Hh & Hp & _ & _ & -> & _)].
    + rewrite counted_false by done. lia.
    + rewrite (counted_true _ p), Hp by done. lia.
  - by rewrite pushed_frame_snoc.
Qed.

(** A whole run: where each report comes from. *)
Lemma run_session evs : ∀ h st,
  session_inv decoder h st →
  let r := run config decoder evs st in
  ((inject_Z (2 * Z.of_nat (reports (stdout r.2)))
    <= last_report r.2 - start_time st)%Q
   ∧ (last_report r.2 = last_report st
      ∨ ∃ ev, ev ∈ evs ∧ last_report r.2 = ev_now ev))
  ∧ ∀ pk kbps lat fill ratio,
      Report pk kbps lat fill ratio ∈ stdout r.2 →
      Report pk kbps lat fill ratio ∈ stdout st
      ∨ ∃ pre ev post,
          evs = pre ++ ev :: post
          ∧ pk = counted_packets (h ++ pre ++ [ev])
          ∧ 0 < pk
          ∧ lat = fdiv (fdiv (inject_Z (latency_total (h ++ pre ++ [ev])))
                             (inject_Z pk)) 1000
          ∧ (fill ≤ 2)%nat
          ∧ ratio = ratio_of config kbps.
Proof.
  induction evs as [|ev evs IH]; intros h st Hinv; cbn zeta.
  { cbn. split; [|by left]. split; [apply Hinv | by left]. }
  rewrite run_cons.
  pose proof (session_step h ev st Hinv) as Hstep.
  destruct Hinv as [Hclock Hpk Hlc Hlt Haudio Hrate].
  destruct (loop_body_rate ev st Hclock Hrate)
    as (Hclock1 & Hrate1 & Hs1 & Hlast1).
  destruct (loop_body_shape ev st Hclock) as (warn & Hwarn & Hshape).
  assert (Hhere : ∀ pk kbps lat fill ratio,
            Report pk kbps lat fill ratio
              ∈ stdout (loop_body config decoder ev st).2 →
            Report pk kbps lat fill ratio ∈ stdout st
            ∨ ∃ pre ev0 post,
                ev :: evs = pre ++ ev0 :: post
                ∧ pk = counted_packets (h ++ pre ++ [ev0])
                ∧ 0 < pk
                ∧ lat = fdiv (fdiv (inject_Z
                                      (latency_total (h ++ pre ++ [ev0])))
                                   (inject_Z pk)) 1000
                ∧ (fill ≤ 2)%nat
                ∧ ratio = ratio_of config kbps).
  { intros pk kbps lat fill ratio Hin.
    assert (Hnot : Report pk kbps lat fill ratio ∉ warn).
    { intros Hw. by apply (proj1 (Forall_forall _ _) Hwarn _ Hw). }
    destruct Hshape as [[Ho _]|(kbps' & Ho & Hok & Hc & _ & _)].
    { rewrite Ho in Hin. apply elem_of_app in Hin as [?|?]; [by left|done]. }
    rewrite Ho, (assoc_L (++)) in Hin.
    apply elem_of_app in Hin as [Hin|Hin].
    { apply elem_of_app in Hin as [?|?]; [by left|done]. }
    right. apply list_elem_of_singleton in Hin.
    injection Hin as -> -> -> -> ->.
    destruct (Hstep Hok) as [_ Hpk' Hlc' Hlt' Haudio' _].
    exists [], ev, evs. split; [done|]. cbn [app].
    pose proof (counted_packets_nonneg h) as Hnn.
    assert (Hpos : 0 < counted_packets (h ++ [ev])).
    { rewrite counted_packets_snoc, Hc. lia. }
    split; [done|]. split; [by rewrite Hpk'|].
    split.
    { unfold average_latency_ms. rewrite Hlc', Hlt', Hpk'.
      by rewrite decide_True by done. }
    split; [|done].
    by destruct (lagging_bound _ _ Haudio') as [? _]. }
  destruct (loop_body config decoder ev st) as [[[]|e] st1];
    cbn [fst snd] in *.
  - specialize (IH (h ++ [ev]) st1 (Hstep eq_refl)). cbn zeta in IH.
    destruct IH as ((IHrate & IHlast) & IHrep).
    split.
    + split; [by rewrite <- Hs1|].
      destruct IHlast as [-> | (ev' & Hin & ->)].
      * destruct Hlast1 as [-> | ->]; [by left|].
        right. exists ev. split; [by left | done].
      * right. exists ev'. split; [by right | done].
    + intros pk kbps lat fill ratio Hin.
      destruct (IHrep _ _ _ _ _ Hin)
        as [Hold|(pre & ev0 & post & -> & Hpk0 & Hpos & Hlat & Hfill & Hratio)];
        [by apply Hhere|].
      right. exists (ev :: pre), ev0, post. split; [done|].
      rewrite <- (assoc_L (++)) in Hpk0, Hlat. done.
  - split; [|done].
    split; [by rewrite <- Hs1|].
    destruct Hlast1 as [-> | ->]; [by left|].
    right. exists ev. split; [by left | done].
Qed.
End ReportContents.

Lemma session_inv_init decoder t0 :
  session_inv decoder [] (Receiver.init_state t0).
Proof.
  split; try done.
  - apply Qle_refl.
  - apply lagging_init.
  - assert (0 <= t0 - t0)%Q as H by lra. exact H.
Qed.

(** X12. Every periodic report of the enhanced receiver describes the
    whole session up to the datagram that triggered it: its packet count is
    the number of datagrams counted so far (at least one), its average
    latency is [(sum / count) / 1000] for the sum of all their latency
    samples, evaluated in binary64 (the fallback value 0 is never
    reported), its buffer fill is at most 2, and its compression figure is
    [(kbps * 1000) / (sample_rate * channels * 32) * 100] for its own
    throughput figure, evaluated in binary64, or is 0 when the header did
    not announce compression. Datagrams whose decode failed are part of the
    count and of the mean. *)
Theorem report_describes_whole_session
    (config : Enhanced.Header) (decoder : option Receiver.Decoder)
    (evs : list Receiver.Event) (t0 : Q)
    (pk : Z) (kbps lat : Q) (fill : nat) (ratio : Q) :
  Receiver.Report pk kbps lat fill ratio
    ∈ Receiver.stdout
        (Receiver.run config decoder evs (Receiver.init_state t0)).2 →
  ∃ pre ev post,
    evs = pre ++ ev :: post
    ∧ pk = counted_packets (pre ++ [ev])
    ∧ 0 < pk
    ∧ lat = fdiv (fdiv (inject_Z (latency_total (pre ++ [ev]))) (inject_Z pk))
              1000
    ∧ (fill ≤ 2)%nat
    ∧ ratio = ratio_of config kbps.
Proof.
  intros Hin.
  destruct (run_session config decoder evs [] _ (session_inv_init decoder t0))
    as [_ Hrep].
  destruct (Hrep _ _ _ _ _ Hin) as [Hnil|H]; [by apply elem_of_nil in Hnil|].
  exact H.
Qed.

(** Three frames of a session whose header announced compression while no
    decoder is available; the third arrives eight seconds after the start.
    The latency samples are 5000, 5000 and 6000 µs. *)
Lemma report_describes_whole_session_witness :
  let config := Enhanced.mkHeader 1 48000 2 1 "Opus" in
  let frame rt now :=
    Receiver.mkEvent (audio_prefix x00 1000 2 ++ [x0a; x0b])
      rt (Ok []) (Ok tt) now in
  let evs := [frame 6000 1%Q; frame 6000 1%Q; frame 7000 8%Q] in
  let kbps := kbps_of 39 0 8 in
  let lat := fdiv (fdiv 16000 3) 1000 in
  Receiver.stdout (Receiver.run config None evs (Receiver.init_state 0)).2
    = [Receiver.Report 3 kbps lat 2 (ratio_of config kbps)]
  ∧ ∃ pre ev post,
      evs = pre ++ ev :: post
      ∧ 3 = counted_packets (pre ++ [ev])
      ∧ 0 < 3
      ∧ lat = fdiv (fdiv (inject_Z (latency_total (pre ++ [ev]))) (inject_Z 3))
                1000
      ∧ (2 ≤ 2)%nat
      ∧ ratio_of config kbps = ratio_of config kbps.
Proof.
  intros config frame evs kbps lat.
  assert (Ho : Receiver.stdout
                 (Receiver.run config None evs (Receiver.init_state 0)).2
               = [Receiver.Report 3 kbps lat 2 (ratio_of config kbps)])
    by (vm_compute; reflexivity).
  split; [exact Ho|].
  apply (report_describes_whole_session config None evs 0
           3 kbps lat 2 (ratio_of config kbps)).
  rewrite Ho. left.
Defined.

(** X13. Reports are rate-limited: after any run from session creation,
    twice the number of reports printed is at most the time between the
    session start and the last report, and the clock reading remembered as
    the last report time is the session start or the reading taken while
    handling one of the datagrams. *)
Theorem reports_rate_limited
    (config : Enhanced.Header) (decoder : option Receiver.Decoder)
    (evs : list Receiver.Event) (t0 : Q) :
  let st := (Receiver.run config decoder evs (Receiver.init_state t0)).2 in
  (inject_Z (2 * Z.of_nat (reports (Receiver.stdout st)))
   <= Receiver.last_report st - t0)%Q
  ∧ (Receiver.last_report st = t0
     ∨ ∃ ev, ev ∈ evs ∧ Receiver.last_report st = Receiver.ev_now ev).
Proof.
  cbn zeta.
  by destruct (run_session config decoder evs [] _
                 (session_inv_init decoder t0)) as [? _].
Qed.

(** * Datagrams the streaming loops ignore *)

Section Ignored.
Import Enhanced Receiver.
Variable config : Header.

Lemma loop_body_ignores_decode ev dec' st :
  loop_body config None
    (mkEvent (ev_data ev) (ev_receive_time ev) dec' (ev_write ev) (ev_now ev)) st
  = loop_body config None ev st.
Proof.
  destruct (decide (header_shaped 12 (ev_data ev)
                    ∨ (length (ev_data ev) < 11)%nat)) as [Hskip|Hacc].
  { by rewrite !loop_body_skip by done. }
  destruct (parse_audio_packet_cases (ev_data ev)) as [[? _]|[_ [p Hp]]];
    [exfalso; apply Hacc; by right|].
  assert (Hh : ¬ header_shaped 12 (ev_data ev)) by (intros ?; apply Hacc; by left).
  rewrite !(loop_body_accept _ _ _ _ p) by done.
  unfold mbind, M_bind. rewrite !undecoded_payload_is_buffered. reflexivity.
Qed.
End Ignored.

(** X14. A header that arrives while the enhanced receiver is streaming
    is ignored, whatever it announces: removing every 12-byte datagram that
    starts with the magic from the input leaves the outcome and the final
    state of a run unchanged (such datagrams are not counted, not buffered
    and never start a new session). *)
Theorem streaming_ignores_repeated_headers
    (config : Enhanced.Header) (decoder : option Receiver.Decoder)
    (evs : list Receiver.Event) (st : Receiver.State) :
  Receiver.run config decoder
    (filter (λ ev, ¬ header_shaped 12 (Receiver.ev_data ev)) evs) st
  = Receiver.run config decoder evs st.
Proof.
  revert st. induction evs as [|ev evs IH]; intros st; [done|].
  destruct (decide (header_shaped 12 (Receiver.ev_data ev))) as [Hh|Hh].
  - rewrite filter_cons_False by (by intros H; apply H).
    rewrite run_cons, loop_body_skip by by left. apply IH.
  - rewrite filter_cons_True by done.
    rewrite !run_cons.
    destruct (Receiver.loop_body config decoder ev st) as [[[]|e] st1];
      [apply IH | done].
Qed.

(** X15. In a session without a decoder the decoder is never called: the
    outcome and the final state of a run do not depend on what the decoder
    would have returned or raised for any datagram. *)
Theorem no_decoder_never_decodes
    (config : Enhanced.Header) (evs : list Receiver.Event)
    (dec' : Receiver.Event → result bytes) (st : Receiver.State) :
  Receiver.run config None
    ((λ ev, Receiver.mkEvent (Receiver.ev_data ev)
              (Receiver.ev_receive_time ev) (dec' ev)
              (Receiver.ev_write ev) (Receiver.ev_now ev)) <$> evs) st
  = Receiver.run config None evs st.
Proof.
  revert st. induction evs as [|ev evs IH]; intros st; [done|].
  cbn [fmap list_fmap]. rewrite !run_cons, loop_body_ignores_decode.
  destruct (Receiver.loop_body config None ev st) as [[[]|e] st1];
    [apply IH | done].
Qed.

(** * The contents of the silent receiver's report *)

Section SilentContents.
Import Silent SilentReceiver.
Variable config : Header.

Lemma counted_packets_silent_cons ev evs :
  counted_packets_silent (ev :: evs)
  = (if counted_silent (ev_data ev) then 1 else 0) + counted_packets_silent evs.
Proof. reflexivity. Qed.

(** One iteration: the accumulators, and the fields of a report if one is
    printed. *)
Lemma silent_loop_body_fields ev st :
  (start_time st <= last_report st)%Q →
  let st' := (loop_body config ev st).2 in
  packet_count st'
    = packet_count st + (if counted_silent (ev_data ev) then 1 else 0)
  ∧ ∃ ls, stdout st' = stdout st ++ ls
      ∧ ∀ pk b kbps dur,
          Report pk b kbps dur ∈ ls →
          pk = packet_count st'
          ∧ b = bytes_received st'
          ∧ dur = duration_of config (bytes_received st')
          ∧ sample_rate config ≠ 0 ∧ channels config ≠ 0.
Proof.
  intros Hclock. cbn zeta.
  unfold loop_body, counted_silent.
  destruct (decide (length (ev_data ev) = 10%nat ∧ _)) as [Hh|Hh].
  { rewrite bool_decide_eq_false_2 by (by intros H; apply H).
    cbn. split; [lia|]. exists []. split; [by rewrite (right_id_L [] (++))|].
    intros ???? Hin. by apply elem_of_nil in Hin. }
  rewrite bool_decide_eq_true_2 by done.
  unfold report, duration_of.
  unfold mbind, M_bind, mret, M_ret, gets, lift, print, set_last_report,
    modify, id.
  assert (Hquiet : ∀ r : result unit,
            let st1 := (r, count_packet (length (ev_data ev)) st).2 in
            packet_count st1 = packet_count st + 1
            ∧ ∃ ls, stdout st1 = stdout st ++ ls
                ∧ ∀ pk b kbps dur,
                    Report pk b kbps dur ∈ ls →
                    pk = packet_count st1
                    ∧ b = bytes_received st1
                    ∧ dur = fdiv (fdiv (inject_Z (bytes_received st1 `div` 4))
                                       (inject_Z (sample_rate config)))
                                 (of_int (channels config))
                    ∧ sample_rate config ≠ 0 ∧ channels config ≠ 0).
  { intros r. cbn zeta. cbn [snd]. split; [done|].
    exists []. split; [by rewrite (right_id_L [] (++))|].
    intros ???? Hin. by apply elem_of_nil in Hin. }
  destruct (Qle_bool 2 _); [|apply (Hquiet (Ok tt))].
  cbv beta iota.
  change (start_time (count_packet _ st)) with (start_time st).
  rewrite throughput_kbps_cases. unfold true_div.
  destruct (Qeq_bool (fmul _ 1000) 0);
    [apply (Hquiet (Raise ZeroDivisionError))|].
  destruct (Qeq_bool (inject_Z (sample_rate config)) 0) eqn:Hsr;
    [apply (Hquiet (Raise ZeroDivisionError))|].
  destruct (Qeq_bool (of_int (channels config)) 0) eqn:Hch;
    [apply (Hquiet (Raise ZeroDivisionError))|].
  cbn. split; [done|].
  eexists [_]. split; [done|].
  intros pk b kbps dur Hin.
  apply list_elem_of_singleton in Hin. injection Hin as -> -> -> ->.
  split; [done|]. split; [done|]. split; [done|]. split.
  - intros H0. apply inject_Z_eq_bool_0 in H0. congruence.
  - intros H0. apply of_int_eq_bool_0 in H0. congruence.
Qed.

Lemma silent_run_fields evs : ∀ st,
  (start_time st <= last_report st)%Q →
  ∀ pk b kbps dur,
    Report pk b kbps dur ∈ stdout (run config evs st).2 →
    Report pk b kbps dur ∈ stdout st
    ∨ ∃ pre ev post,
        evs = pre ++ ev :: post
        ∧ pk = packet_count st + counted_packets_silent (pre ++ [ev])
        ∧ b = bytes_received st + received_bytes_silent (pre ++ [ev])
        ∧ dur = duration_of config b
        ∧ sample_rate config ≠ 0 ∧ channels config ≠ 0.
Proof.
  induction evs as [|ev evs IH]; intros st Hclock pk b kbps dur Hin;
    [by left|].
  rewrite silent_run_cons in Hin.
  destruct (silent_loop_body_report config ev st Hclock)
    as (_ & Hb & Hclock1 & _).
  destruct (silent_loop_body_fields ev st Hclock) as (Hpk & ls & Ho & Hls).
  assert (Hhere : Report pk b kbps dur ∈ stdout (loop_body config ev st).2 →
            Report pk b kbps dur ∈ stdout st
            ∨ ∃ pre ev0 post,
                ev :: evs = pre ++ ev0 :: post
                ∧ pk = packet_count st + counted_packets_silent (pre ++ [ev0])
                ∧ b = bytes_received st
                      + received_bytes_silent (pre ++ [ev0])
                ∧ dur = duration_of config b
                ∧ sample_rate config ≠ 0 ∧ channels config ≠ 0).
  { rewrite Ho. intros [?|Hnew]%elem_of_app; [by left|right].
    exists [], ev, evs. split; [done|].
    destruct (Hls _ _ _ _ Hnew) as (-> & -> & -> & ? & ?).
    cbn [app]. rewrite counted_packets_silent_cons, received_bytes_silent_cons.
    cbn [counted_packets_silent received_bytes_silent foldr].
    rewrite Hpk, Hb, !Z.add_0_r. done. }
  destruct (loop_body config ev st) as [[[]|e] st1];
    cbn [fst snd] in *; [|by apply Hhere].
  destruct (IH st1 Hclock1 _ _ _ _ Hin)
    as [Hold|(pre & ev0 & post & -> & -> & -> & -> & ? & ?)];
    [by apply Hhere|].
  right. exists (ev :: pre), ev0, post. split; [done|].
  cbn [app]. rewrite counted_packets_silent_cons, received_bytes_silent_cons.
  rewrite Hpk, Hb, !Z.add_assoc. done.
Qed.
End SilentContents.

(** X16. Every report of the silent receiver describes the whole session
    up to the datagram that triggered it: it counts every datagram that is
    not a 10-byte repeated header, whatever its content, reports the total
    of their lengths, and derives the audio duration from that total as
    [(bytes // 4) / sample_rate / channels], evaluated in binary64. A report
    is only ever printed in a session whose sample rate and channel count
    are not zero. *)
Theorem silent_report_describes_whole_session
    (config : Silent.Header) (evs : list SilentReceiver.Event) (t0 : Q)
    (pk b : Z) (kbps dur : Q) :
  SilentReceiver.Report pk b kbps dur
    ∈ SilentReceiver.stdout
        (SilentReceiver.run config evs (SilentReceiver.init_state t0)).2 →
  ∃ pre ev post,
    evs = pre ++ ev :: post
    ∧ pk = counted_packets_silent (pre ++ [ev])
    ∧ b = received_bytes_silent (pre ++ [ev])
    ∧ dur = fdiv (fdiv (inject_Z (b `div` 4))
                       (inject_Z (Silent.sample_rate config)))
                 (of_int (Silent.channels config))
    ∧ Silent.sample_rate config ≠ 0 ∧ Silent.channels config ≠ 0.
Proof.
  intros Hin.
  destruct (silent_run_fields config evs (SilentReceiver.init_state t0)
              ltac:(apply Qle_refl) _ _ _ _ Hin) as [Hnil|H].
  - by apply elem_of_nil in Hnil.
  - exact H.
Qed.

(** Two datagrams and a repeated header; the report is due with the last
    datagram, eight seconds after the session started. *)
Lemma silent_report_describes_whole_session_witness :
  let config := Silent.mkHeader 44100 2 in
  let sev now := SilentReceiver.mkEvent (replicate 13 x0a) now in
  let evs := [sev 1%Q; SilentReceiver.mkEvent (basic_header 44100 2) 1;
              sev 8%Q] in
  let dur := fdiv (fdiv 6 44100) 2 in
  SilentReceiver.stdout
    (SilentReceiver.run config evs (SilentReceiver.init_state 0)).2
    = [SilentReceiver.Report 2 26 (kbps_of 26 0 8) dur]
  ∧ ∃ pre ev post,
      evs = pre ++ ev :: post
      ∧ 2 = counted_packets_silent (pre ++ [ev])
      ∧ 26 = received_bytes_silent (pre ++ [ev])
      ∧ dur = fdiv (fdiv (inject_Z (26 `div` 4)) (inject_Z 44100)) (of_int 2)
      ∧ 44100 ≠ 0 ∧ 2 ≠ 0.
Proof.
  intros config sev evs dur.
  assert (Ho : SilentReceiver.stdout
                 (SilentReceiver.run config evs
                    (SilentReceiver.init_state 0)).2
               = [SilentReceiver.Report 2 26 (kbps_of 26 0 8) dur])
    by (vm_compute; reflexivity).
  split; [exact Ho|].
  apply (silent_report_describes_whole_session config evs 0
           2 26 (kbps_of 26 0 8) dur).
  rewrite Ho. left.
Defined.

(** * The final summary *)

Section SummaryFacts.
Import Enhanced Receiver.
Variable config : Header.
Variable decoder : option Decoder.

Lemma run_session_inv evs : ∀ h st st',
  session_inv decoder h st →
  run config decoder evs st = (Ok tt, st') →
  session_inv decoder (h ++ evs) st'
  ∧ bytes_received st' = bytes_received st + received_bytes evs
  ∧ start_time st' = start_time st.
Proof.
  induction evs as [|ev evs IH]; intros h st st' Hinv Hrun.
  { injection Hrun as <-. rewrite (right_id_L [] (++)). cbn.
    split; [done|]. split; [lia | done]. }
  rewrite run_cons in Hrun.
  pose proof (session_step config decoder h ev st Hinv) as Hstep.
  destruct (loop_body_report config decoder ev st (si_clock _ _ _ Hinv))
    as (Hs & Hb & _).
  destruct (loop_body config decoder ev st) as [[[]|e] st1];
    cbn [fst snd] in *; [|done].
  destruct (IH (h ++ [ev]) st1 st' (Hstep eq_refl) Hrun) as (Hinv' & Hb' & Hs').
  rewrite <- (assoc_L (++)) in Hinv'. split; [done|].
  rewrite received_bytes_cons. split; [lia | congruence].
Qed.
End SummaryFacts.

(** X17. The final summary of a session that ran without an exception and
    is interrupted at time [now] is computed from the whole session: the
    number of counted datagrams, their total size in MiB, the bitrate over
    the time since the session started, the mean latency (0 when no
    datagram was counted) and the duration, each float evaluated in
    binary64. The bitrate division raises ZeroDivisionError after the first
    four lines exactly when [elapsed * 1000] is zero: it does when [now]
    equals the session start, and it does not when [now] is a microsecond
    or more later. *)
Theorem final_summary_of_session
    (config : Enhanced.Header) (decoder : option Receiver.Decoder)
    (evs : list Receiver.Event) (t0 now : Q) (st : Receiver.State) :
  Receiver.run config decoder evs (Receiver.init_state t0) = (Ok tt, st) →
  let printed :=
    [Shutdown.Stopped; Shutdown.FinalStats;
     Shutdown.PacketsReceived (counted_packets evs);
     Shutdown.TotalData
       (fdiv (fdiv (inject_Z (received_bytes evs)) 1024) 1024)] in
  let summary :=
    printed
      ++ [Shutdown.AverageBitrate (kbps_of (received_bytes evs) t0 now);
          Shutdown.AverageLatency
            (average_latency_ms (latency_total evs) (counted_packets evs));
          Shutdown.Duration (fsub now t0)] in
  Shutdown.final_stats now st
  = (if Qeq_bool (fmul (fsub now t0) 1000) 0
     then (Raise ZeroDivisionError, printed)
     else (Ok tt, summary))
  ∧ ((now == t0)%Q →
     Shutdown.final_stats now st = (Raise ZeroDivisionError, printed))
  ∧ ((1 # 1000000 <= now - t0)%Q →
     Shutdown.final_stats now st = (Ok tt, summary)).
Proof.
  intros Hrun. cbn zeta.
  destruct (run_session_inv config decoder evs [] _ st
              (session_inv_init decoder t0) Hrun)
    as ([_ Hpk Hlc Hlt _ _] & Hb & Hs).
  cbn [app] in *.
  change (Receiver.bytes_received (Receiver.init_state t0)) with 0 in Hb.
  change (Receiver.start_time (Receiver.init_state t0)) with t0 in Hs.
  rewrite Z.add_0_l in Hb.
  match goal with |- ?A ∧ _ => assert (Hgen : A) end.
  { unfold Shutdown.final_stats, average_latency_ms.
    rewrite Hpk, Hlc, Hlt, Hb, Hs, throughput_kbps_cases.
    by destruct (Qeq_bool (fmul (fsub now t0) 1000) 0). }
  split; [exact Hgen|]. rewrite Hgen. split; intros Hnow.
  - by rewrite elapsed_ms_zero.
  - rewrite (elapsed_ms_nonzero (-20)); [done | done |].
    apply Qle_trans with (1 # 1000000)%Q; [by vm_compute | done].
Qed.

(** One frame received five milliseconds after its origin timestamp, in a
    session started at 1700000000.5: interrupted at the very clock reading
    of the start, and four seconds later. *)
Lemma final_summary_of_session_witness :
  let config := Enhanced.mkHeader 1 48000 2 0 "Raw" in
  let t0 := (3400000001 # 2)%Q in
  let t1 := (3400000003 # 2)%Q in
  let t4 := (3400000009 # 2)%Q in
  let ev := Receiver.mkEvent (audio_prefix x00 1000 2 ++ [x0a; x0b])
              6000 (Ok []) (Ok tt) t1 in
  let printed :=
    [Shutdown.Stopped; Shutdown.FinalStats; Shutdown.PacketsReceived 1;
     Shutdown.TotalData (fdiv (fdiv 13 1024) 1024)] in
  ∃ st,
    Receiver.run config None [ev] (Receiver.init_state t0) = (Ok tt, st)
    ∧ Shutdown.final_stats t0 st = (Raise ZeroDivisionError, printed)
    ∧ Shutdown.final_stats t4 st
      = (Ok tt,
         printed
           ++ [Shutdown.AverageBitrate (kbps_of 13 t0 t4);
               Shutdown.AverageLatency (fdiv (fdiv 5000 1) 1000);
               Shutdown.Duration (fsub t4 t0)])
    ∧ (kbps_of 13 t0 t4 == 7493989779944505 # 288230376151711744)%Q
    ∧ (fdiv (fdiv 5000 1) 1000 == 5)%Q
    ∧ (fsub t4 t0 == 4)%Q.
Proof.
  intros config t0 t1 t4 ev printed. eexists.
  split; [vm_compute; reflexivity|].
  split; [|split; [|by vm_compute]].
  - apply (final_summary_of_session config None [ev] t0 t0);
      [vm_compute; reflexivity | reflexivity].
  - apply (final_summary_of_session config None [ev] t0 t4);
      [vm_compute; reflexivity | by vm_compute].
Defined.

(** * The multi-target device list *)

Section TargetListFacts.
Import TargetList.
Variable strip : string → string.
Variable int : string → option Z.

Lemma list_remove_sublist {A} `{EqDecision A} (x : A) l l' :
  list_remove x l = Some l' → l' `sublist_of` l.
Proof.
  revert l'. induction l as [|y l IH]; intros l'; cbn; [done|].
  case_decide.
  - intros [= <-]. by apply sublist_cons.
  - destruct (list_remove x l) as [k|]; [|done].
    intros [= <-]. apply sublist_skip. by apply IH.
Qed.

Lemma Forall_of_sublist {A} (P : A → Prop) l l' :
  Forall P l → l' `sublist_of` l → Forall P l'.
Proof.
  rewrite !Forall_forall. intros HP Hsub x Hx.
  apply HP. by apply (sublist_subseteq _ _ Hsub).
Qed.

Lemma list_remove_snoc {A} `{EqDecision A} (x : A) l :
  x ∉ l → list_remove x (l ++ [x]) = Some l.
Proof.
  induction l as [|y l IH]; intros Hnin; cbn.
  - by rewrite decide_True.
  - apply not_elem_of_cons in Hnin as [Hne Hnin].
    rewrite decide_False by done. by rewrite IH.
Qed.

Lemma well_formed_add st : well_formed st → well_formed (add_target_device strip int st).
Proof.
  intros (Hnd & Hok & Hndl & Hlt). unfold add_target_device.
  case_decide as Hempty; [done|].
  destruct (int _) as [port|]; [|done].
  case_decide as Hrange; [done|].
  case_decide as Hdup; [done|].
  split; [|split; [|split]]; cbn.
  - apply NoDup_app. split; [done|]. split; [|apply NoDup_singleton].
    intros d Hd ->%list_elem_of_singleton. done.
  - apply Forall_app. split; [done|]. constructor; [|constructor].
    cbn. split; [tauto | lia].
  - apply NoDup_app. split; [done|]. split; [|apply NoDup_singleton].
    intros f Hf ->%list_elem_of_singleton.
    pose proof (proj1 (Forall_forall _ _) Hlt _ Hf). cbn in *. lia.
  - apply Forall_app. split.
    + eapply Forall_impl; [exact Hlt|]. cbn. lia.
    + constructor; [lia | constructor].
Qed.

Lemma well_formed_remove ip port frame st :
  well_formed st →
  well_formed (remove_target_device ip port frame st).2.
Proof.
  intros (Hnd & Hok & Hndl & Hlt). unfold remove_target_device.
  case_decide as Hin; [|done].
  destruct (list_remove (ip, port) (target_devices st)) as [devices|] eqn:Hd;
    [|done].
  apply list_remove_sublist in Hd.
  destruct (list_remove frame (device_labels st)) as [labels|] eqn:Hl; cbn.
  - apply list_remove_sublist in Hl.
    split; [by eapply sublist_NoDup|].
    split; [by eapply Forall_of_sublist|].
    split; [by eapply sublist_NoDup | by eapply Forall_of_sublist].
  - split; [by eapply sublist_NoDup|].
    split; [by eapply Forall_of_sublist | done].
Qed.

Lemma well_formed_run actions : ∀ st,
  well_formed st → well_formed (run strip int actions st).
Proof.
  induction actions as [|a actions IH]; intros st Hwf; [done|].
  apply IH. destruct a; cbn.
  - done.
  - by apply well_formed_add.
  - by apply well_formed_remove.
Qed.
End TargetListFacts.

(** X18. Whatever the user types and clicks, and however
    [remove_target_device] is called, the list of target devices never
    holds the same address and port twice, never holds an empty address or
    a port outside 1..65535, and the list of device frames never holds a
    frame twice. *)
Theorem target_list_well_formed
    (strip : string → string) (int : string → option Z)
    (actions : list TargetList.action) :
  well_formed (TargetList.run strip int actions TargetList.init_state).
Proof.
  apply well_formed_run.
  split; [constructor|]. split; [constructor|].
  split; constructor.
Qed.

(** X19. Adding a device and then removing it with the frame that was
    created for it gives back the device list and the frame list as they
    were: if the add button appended the pair typed into the entries, the
    removal returns without an exception and restores both lists. *)
Theorem target_add_then_remove
    (strip : string → string) (int : string → option Z)
    (st : TargetList.State) (ip : string) (port : Z) :
  well_formed st →
  TargetList.target_devices (TargetList.add_target_device strip int st)
    = TargetList.target_devices st ++ [(ip, port)] →
  ∃ st',
    TargetList.remove_target_device ip port (TargetList.frames_created st)
      (TargetList.add_target_device strip int st)
    = (TargetList.Returned, st')
    ∧ TargetList.target_devices st' = TargetList.target_devices st
    ∧ TargetList.device_labels st' = TargetList.device_labels st.
Proof.
  intros (Hnd & Hok & Hndl & Hlt) Hadded.
  assert (Hfresh : TargetList.frames_created st ∉ TargetList.device_labels st).
  { intros Hf. pose proof (proj1 (Forall_forall _ _) Hlt _ Hf). cbn in *. lia. }
  unfold TargetList.add_target_device in *.
  assert (Hneq : ∀ d, TargetList.target_devices (TargetList.show d st)
                      ≠ TargetList.target_devices st ++ [(ip, port)]).
  { intros d Heq. cbn in Heq. apply (f_equal length) in Heq.
    rewrite length_app in Heq. cbn in Heq. lia. }
  case_decide as Hempty; [by apply Hneq in Hadded|].
  destruct (int _) as [port'|]; [|by apply Hneq in Hadded].
  case_decide as Hrange; [by apply Hneq in Hadded|].
  case_decide as Hdup; [by apply Hneq in Hadded|].
  cbn in Hadded. apply app_inv_head in Hadded. injection Hadded as Hip ->.
  rewrite Hip in *.
  unfold TargetList.remove_target_device. cbn.
  rewrite decide_True by (apply elem_of_app; right; by left).
  rewrite (list_remove_snoc (ip, port)) by done.
  rewrite (list_remove_snoc (TargetList.frames_created st)) by done.
  by eexists.
Qed.

Lemma target_add_then_remove_witness :
  let strip := λ s : string, s in
  let int := λ s : string, if decide (s = "5555") then Some 5555 else None in
  let st := TargetList.step strip int TargetList.init_state
              (TargetList.Edit "10.0.0.1" "5555") in
  ∃ st',
    TargetList.remove_target_device "10.0.0.1" 5555
      (TargetList.frames_created st)
      (TargetList.add_target_device strip int st)
    = (TargetList.Returned, st')
    ∧ TargetList.target_devices st' = TargetList.target_devices st
    ∧ TargetList.device_labels st' = TargetList.device_labels st.
Proof.
  intros strip int st.
  apply (target_add_then_remove strip int st "10.0.0.1" 5555).
  - split; [constructor|]. split; [constructor|]. split; constructor.
  - vm_compute. reflexivity.
Defined.
